(** * Haven TTRPG backend: message delivery, presence, cooldown and digests

    A shallow embedding of the delivery core of the Haven backend
    (app/crud.py, app/routers/messages.py, app/routers/rp_chat.py,
    app/routers/tasks.py, app/utils/email_utils.py) and the properties
    of it that the design document states, followed by the history,
    notification, socket and game endpoints around it
    (app/routers/notifications.py, app/routers/games.py, app/auth.py) and
    further properties read off the code.

    Conventions of the embedding.
    - Python [int] is [Z]; [str] is [string], a character being a code
      point below 256 (Latin-1), which is exact for [str.strip],
      [str.lower] and the [\d] class on that range.
    - A [datetime] is a wall-clock reading in microseconds with an optional
      UTC offset; comparing a naive with an aware value raises [TypeError]
      as in Python.
    - A [dict] is a [gmap]; a table of the datastore is the list of its
      rows in insertion order.
    - Effects are threaded through a state-and-exception monad [M] over
      [World]; what the process cannot decide (the clock, whether a socket
      write succeeds, whether the mail transport accepts a message, the
      draws of [random.randint]) is read from an [Env].  A request is
      taken at one reading of the clock. *)

From Stdlib Require Import ZArith List Ascii String Lia Bool.
From stdpp Require Import base option gmap strings pretty list fin_maps sorting.

Local Open Scope Z_scope.

(* ===================================================================== *)
(** * Part I. Definitions                                                  *)
(* ===================================================================== *)

(** ** Python values *)

Record datetime := mk_datetime {
  wall : Z;              (* microseconds since the epoch, local reading *)
  tzinfo : option Z      (* utcoffset in microseconds; None = naive *)
}.

Inductive exn :=
| HTTPException (status_code : Z) (detail : string)
| TypeError (msg : string)
| AttributeError (attr : string)
| RuntimeError (msg : string)
| ValueError (msg : string)
| WebSocketError.

Definition MICROSECONDS_PER_MINUTE : Z := 60000000.
Definition MICROSECONDS_PER_HOUR : Z := 3600000000.

(** [timedelta(minutes=m)] and [timedelta(hours=h)], in microseconds. *)
Definition timedelta_minutes (m : Z) : Z := m * MICROSECONDS_PER_MINUTE.
Definition timedelta_hours (h : Z) : Z := h * MICROSECONDS_PER_HOUR.

(** [d + timedelta]: the wall reading moves, the zone stays. *)
Definition datetime_add (d : datetime) (delta : Z) : datetime :=
  {| wall := wall d + delta; tzinfo := tzinfo d |}.

(** [d.replace(tzinfo=timezone.utc)]. *)
Definition replace_tzinfo_utc (d : datetime) : datetime :=
  {| wall := wall d; tzinfo := Some 0 |}.

(** The instant denoted by an aware value; a naive one is read as UTC,
    which is how the datastore compares stored timestamps. *)
Definition utc_instant (d : datetime) : Z :=
  wall d - default 0 (tzinfo d).

(** [a < b] on datetimes. *)
Definition datetime_lt (a b : datetime) : exn + bool :=
  match tzinfo a, tzinfo b with
  | None, None => inr (wall a <? wall b)
  | Some oa, Some ob => inr (wall a - oa <? wall b - ob)
  | _, _ => inl (TypeError "can't compare offset-naive and offset-aware datetimes")
  end.

(** [x or y] on an optional string: [None] and the empty string are falsy. *)
Definition str_or (x : option string) (y : string) : string :=
  match x with
  | Some s => if String.eqb s "" then y else s
  | None => y
  end.

(** Truthiness of an optional string. *)
Definition str_truthy (x : option string) : bool :=
  match x with
  | Some s => negb (String.eqb s "")
  | None => false
  end.

(** [s[:n]] and [len(s)]. *)
Definition str_prefix (n : nat) (s : string) : string := String.substring 0 n s.
Definition str_len (s : string) : Z := Z.of_nat (String.length s).

(** ** Strings for the dice notation *)

Definition code (c : ascii) : nat := nat_of_ascii c.

(** [str.isspace] on one code point below 256. *)
Definition isspace (c : ascii) : bool :=
  let n := code c in
  ((9 <=? n) && (n <=? 13) || (28 <=? n) && (n <=? 32)
   || (n =? 133) || (n =? 160))%nat.

(** The class [\d] on code points below 256. *)
Definition isdigit (c : ascii) : bool :=
  let n := code c in ((48 <=? n) && (n <=? 57))%nat.

(** [str.lower] on one code point below 256. *)
Definition lower_char (c : ascii) : ascii :=
  let n := code c in
  if ((65 <=? n) && (n <=? 90) ||
      (192 <=? n) && (n <=? 222) && negb (n =? 215))%nat
  then ascii_of_nat (n + 32) else c.

Fixpoint lstrip (s : list ascii) : list ascii :=
  match s with
  | c :: r => if isspace c then lstrip r else s
  | [] => []
  end.

Definition rstrip (s : list ascii) : list ascii := rev (lstrip (rev s)).

Definition strip (s : list ascii) : list ascii := rstrip (lstrip s).

Definition lower (s : list ascii) : list ascii := map lower_char s.

(** The longest prefix of digits and what follows it. *)
Fixpoint span_digits (s : list ascii) : list ascii * list ascii :=
  match s with
  | c :: r =>
      if isdigit c then let '(ds, rest) := span_digits r in (c :: ds, rest)
      else ([], s)
  | [] => ([], [])
  end.

(** The groups of a successful match of
    [^(\d+)d(\d+)(?:([+-])(\d+))?$]. *)
Record Match := {
  group1 : list ascii;
  group2 : list ascii;
  group34 : option (ascii * list ascii)
}.

Definition is_empty {A} (l : list A) : bool :=
  match l with [] => true | _ => false end.

(** [re.match] of the dice pattern.  No digit equals ["d"], ["+"] or
    ["-"], so each greedy [\d+] ends exactly where the digits end and the
    match needs no backtracking.  The pattern is applied to a stripped
    string, which cannot end in a newline, so [$] is the end of the
    string. *)
Definition re_match_dice (s : list ascii) : option Match :=
  let '(g1, r1) := span_digits s in
  if is_empty g1 then None else
  match r1 with
  | c :: r2 =>
      if Ascii.eqb c "d"%char then
        let '(g2, r3) := span_digits r2 in
        if is_empty g2 then None else
        match r3 with
        | [] => Some {| group1 := g1; group2 := g2; group34 := None |}
        | sign :: r4 =>
            if Ascii.eqb sign "+"%char || Ascii.eqb sign "-"%char then
              let '(g4, r5) := span_digits r4 in
              if is_empty g4 then None else
              if is_empty r5
              then Some {| group1 := g1; group2 := g2;
                           group34 := Some (sign, g4) |}
              else None
            else None
        end
      else None
  | [] => None
  end.

(** [int] of a string of digits. *)
Definition digit_value (c : ascii) : Z := Z.of_nat (code c) - 48.

Definition int_of_digits (ds : list ascii) : Z :=
  fold_left (fun acc c => 10 * acc + digit_value c) ds 0.

(** [sys.int_info.default_max_str_digits]: the most decimal digits
    CPython converts between [str] and [int]; beyond it both directions
    raise [ValueError]. *)
Definition INT_MAX_STR_DIGITS : Z := 4300.

(** [10 ** 4300], the least number with more decimal digits than that. *)
Definition INT_STR_BOUND : Z := Eval vm_compute in 10 ^ INT_MAX_STR_DIGITS.

(** [int(s)] on a string of digits: every digit counts towards the
    limit, leading zeros included. *)
Definition py_int (ds : list ascii) : exn + Z :=
  if INT_MAX_STR_DIGITS <? Z.of_nat (length ds)
  then inl (ValueError
              ("Exceeds the limit (4300 digits) for integer string conversion: value has "
               +:+ pretty (Z.of_nat (length ds))
               +:+ " digits; use sys.set_int_max_str_digits() to increase the limit"))
  else inr (int_of_digits ds).

(** [str(z)], also as an f-string renders [{z}]: a number of more than
    4300 decimal digits is not converted. *)
Definition py_str (z : Z) : exn + string :=
  if INT_STR_BOUND <=? Z.abs z
  then inl (ValueError
              "Exceeds the limit (4300 digits) for integer string conversion; use sys.set_int_max_str_digits() to increase the limit")
  else inr (pretty z).

Fixpoint sum (l : list Z) : Z :=
  match l with
  | x :: r => x + sum r
  | [] => 0
  end.

(** ** The datastore (app/models.py)

    Field names carry the table's initial, two tables sharing [id],
    [content] and [timestamp]. *)

Record User := {
  u_id : Z;
  u_username : string;
  u_email : option string;
  u_nickname : option string;
  u_email_notifications_enabled : bool;
  u_last_digest_sent_at : option datetime
}.

Record GameMessage := {
  gm_id : Z;
  gm_content : string;
  gm_timestamp : datetime;
  gm_game_id : Z;
  gm_sender_id : option Z;
  gm_sender_display_name : option string;
  gm_sender_role : option string;
  gm_sender_avatar_url : option string;
  gm_character_id : option string;
  gm_owner_user_id : option string
}.

Record DirectMessage := {
  dm_id : Z;
  dm_content : string;
  dm_timestamp : datetime;
  dm_sender_id : Z;
  dm_receiver_id : Z;
  dm_is_read : bool
}.

Record Notification := {
  n_id : Z;
  n_user_id : Z;
  n_type : string;
  n_content : string;
  n_link : option string;
  n_is_read : bool;
  n_emailed_in_digest : bool;
  n_timestamp : datetime
}.

Record DmNotificationCooldown := {
  cd_id : Z;
  cd_original_sender_id : Z;
  cd_receiver_id : Z;
  cd_last_email_sent_at : option datetime
}.

Record Store := {
  users : list User;
  game_messages : list GameMessage;
  direct_messages : list DirectMessage;
  notifications : list Notification;
  dm_notification_cooldowns : list DmNotificationCooldown
}.

(** ** Mail and wire payloads *)

(** The dictionary [_prepare_notification_data_for_email] builds. *)
Record PreparedNotification := {
  pn_notification : Notification;
  pn_content_preview : string;
  pn_game_name_placeholder : option string;
  pn_player_name_placeholder : option string;
  pn_applicant_name_placeholder : option string
}.

Inductive BodyData :=
| DmBody (recipient_name sender_name message_preview dm_link : string)
         (current_year : Z)
| DigestBody (recipient_name digest_period_name settings_link : string)
             (current_year : Z)
             (grouped : list (string * list PreparedNotification)).

Record Email := {
  subject : string;
  recipient_email : string;
  body_data : BodyData;
  template_name : string
}.

(** A live transport session, known by its identity. *)
Definition WebSocket := nat.

(** What a socket is handed: the serialized direct message
    ([send_json]) or the serialized roleplay message ([send_text]). *)
Inductive Frame :=
| JsonFrame (m : DirectMessage)
| TextFrame (m : GameMessage).

(** The statements a handler issues against the datastore: one entry for
    the query or write at the heart of each [crud] call, and one for each
    commit or rollback. *)
Inductive Statement :=
| SelectUser (user_id : Z)
| InsertGameMessage (id : Z)
| InsertDirectMessage (id : Z)
| InsertNotification (id : Z)
| SelectCooldown (original_sender_id receiver_id : Z)
| InsertCooldown (original_sender_id receiver_id : Z)
| UpdateCooldown (id : Z)
| SelectUsersForDigest
| SelectNotificationsForDigest (user_id : Z)
| UpdateNotificationsEmailed (ids : list Z)
| UpdateUserLastDigest (user_id : Z)
| Commit
| Rollback.

(** ** The process state and its surroundings *)

Record World := {
  session : Store;        (* the rows as the open session sees them *)
  committed : Store;      (* the rows as of the last [db.commit()] *)
  dm_connections : gmap Z WebSocket;
                          (* messages.manager.active_connections *)
  rp_connections : gmap string (list WebSocket);
                          (* rp_chat.rp_chat_manager.active_connections *)
  wire : list (WebSocket * Frame);   (* frames written, oldest first *)
  background_tasks : list Email;     (* mails queued on BackgroundTasks *)
  delivered_mail : list Email;       (* mails the transport accepted *)
  rng_calls : nat;                   (* draws taken from [random] so far *)
  sql_log : list Statement           (* statements issued, oldest first *)
}.

Record Env := {
  clock : Z;                       (* datetime.now(timezone.utc), as an instant *)
  clock_year : Z;                  (* its [.year] *)
  tz_aware_columns : bool;         (* does the datastore load aware datetimes *)
  socket_alive : WebSocket -> bool;  (* does a write to the socket succeed *)
  fm_instance : bool;              (* email_utils.fm_instance is not None *)
  smtp_accepts : Email -> bool;    (* does fm_instance.send_message succeed *)
  random_randint : nat -> Z -> Z -> Z;  (* k-th draw of random.randint(a, b) *)
  frontend_url : string;           (* os.getenv('FRONTEND_URL', ...) *)
  strftime : string -> datetime -> string
}.

(** [datetime.now(timezone.utc)]. *)
Definition datetime_now_utc (env : Env) : datetime :=
  {| wall := clock env; tzinfo := Some 0 |}.

(** [func.now()] as the datastore writes it and the ORM loads it back. *)
Definition func_now (env : Env) : datetime :=
  {| wall := clock env;
     tzinfo := if tz_aware_columns env then Some 0 else None |}.

(** ** The monad of request handlers *)

Inductive Result (A : Type) :=
| Ok (a : A) (w : World)
| Raise (e : exn) (w : World).
Arguments Ok {A} a w.
Arguments Raise {A} e w.

Definition M (A : Type) : Type := World -> Result A.

Definition ret {A} (a : A) : M A := fun w => Ok a w.

Definition bind {A B} (m : M A) (k : A -> M B) : M B :=
  fun w => match m w with
           | Ok a w' => k a w'
           | Raise e w' => Raise e w'
           end.

Definition raise {A} (e : exn) : M A := fun w => Raise e w.

(** [try: body except Exception as e: handler e]. *)
Definition try_except {A} (body : M A) (handler : exn -> M A) : M A :=
  fun w => match body w with
           | Ok a w' => Ok a w'
           | Raise e w' => handler e w'
           end.

Definition get_world : M World := fun w => Ok w w.

Definition lift_exn {A} (r : exn + A) : M A :=
  match r with
  | inl e => raise e
  | inr a => ret a
  end.

Global Instance M_ret : MRet M := @ret.
Global Instance M_bind : MBind M := fun A B k m => bind m k.

(** [for x in xs: body x]. *)
Fixpoint for_each {A} (xs : list A) (body : A -> M unit) : M unit :=
  match xs with
  | [] => ret tt
  | x :: r => body x;; for_each r body
  end.

(** Field updates of [World]. *)
Definition set_session (x : Store) (w : World) : World :=
  {| session := x;
     committed := committed w;
     dm_connections := dm_connections w;
     rp_connections := rp_connections w;
     wire := wire w;
     background_tasks := background_tasks w;
     delivered_mail := delivered_mail w;
     rng_calls := rng_calls w;
     sql_log := sql_log w |}.

Definition set_committed (x : Store) (w : World) : World :=
  {| session := session w;
     committed := x;
     dm_connections := dm_connections w;
     rp_connections := rp_connections w;
     wire := wire w;
     background_tasks := background_tasks w;
     delivered_mail := delivered_mail w;
     rng_calls := rng_calls w;
     sql_log := sql_log w |}.

Definition set_dm_connections (x : gmap Z WebSocket) (w : World) : World :=
  {| session := session w;
     committed := committed w;
     dm_connections := x;
     rp_connections := rp_connections w;
     wire := wire w;
     background_tasks := background_tasks w;
     delivered_mail := delivered_mail w;
     rng_calls := rng_calls w;
     sql_log := sql_log w |}.

Definition set_rp_connections (x : gmap string (list WebSocket)) (w : World) : World :=
  {| session := session w;
     committed := committed w;
     dm_connections := dm_connections w;
     rp_connections := x;
     wire := wire w;
     background_tasks := background_tasks w;
     delivered_mail := delivered_mail w;
     rng_calls := rng_calls w;
     sql_log := sql_log w |}.

Definition set_wire (x : list (WebSocket * Frame)) (w : World) : World :=
  {| session := session w;
     committed := committed w;
     dm_connections := dm_connections w;
     rp_connections := rp_connections w;
     wire := x;
     background_tasks := background_tasks w;
     delivered_mail := delivered_mail w;
     rng_calls := rng_calls w;
     sql_log := sql_log w |}.

Definition set_background_tasks (x : list Email) (w : World) : World :=
  {| session := session w;
     committed := committed w;
     dm_connections := dm_connections w;
     rp_connections := rp_connections w;
     wire := wire w;
     background_tasks := x;
     delivered_mail := delivered_mail w;
     rng_calls := rng_calls w;
     sql_log := sql_log w |}.

Definition set_delivered_mail (x : list Email) (w : World) : World :=
  {| session := session w;
     committed := committed w;
     dm_connections := dm_connections w;
     rp_connections := rp_connections w;
     wire := wire w;
     background_tasks := background_tasks w;
     delivered_mail := x;
     rng_calls := rng_calls w;
     sql_log := sql_log w |}.

Definition set_rng_calls (x : nat) (w : World) : World :=
  {| session := session w;
     committed := committed w;
     dm_connections := dm_connections w;
     rp_connections := rp_connections w;
     wire := wire w;
     background_tasks := background_tasks w;
     delivered_mail := delivered_mail w;
     rng_calls := x;
     sql_log := sql_log w |}.

Definition set_sql_log (x : list Statement) (w : World) : World :=
  {| session := session w;
     committed := committed w;
     dm_connections := dm_connections w;
     rp_connections := rp_connections w;
     wire := wire w;
     background_tasks := background_tasks w;
     delivered_mail := delivered_mail w;
     rng_calls := rng_calls w;
     sql_log := x |}.

Definition modify (f : World -> World) : M unit := fun w => Ok tt (f w).

(** A statement reaches the datastore. *)
Definition sql (st : Statement) : M unit :=
  modify (fun w => set_sql_log (sql_log w ++ [st]) w).

(** [db.commit()] and [db.rollback()]. *)
Definition db_commit : M unit :=
  sql Commit;; modify (fun w => set_committed (session w) w).
Definition db_rollback : M unit :=
  sql Rollback;; modify (fun w => set_session (committed w) w).

(** A write to the session. *)
Definition db_write (f : Store -> Store) : M unit :=
  modify (fun w => set_session (f (session w)) w).

(** A read of the session. *)
Definition db_read {A} (f : Store -> A) : M A :=
  fun w => Ok (f (session w)) w.

(** [await websocket.send_json/send_text]: the frame is written, or the
    write raises. *)
Definition websocket_send (env : Env) (ws : WebSocket) (f : Frame) : M unit :=
  if socket_alive env ws
  then modify (fun w => set_wire (wire w ++ [(ws, f)]) w)
  else raise WebSocketError.

(** [random.randint(a, b)]. *)
Definition randint (env : Env) (a b : Z) : M Z :=
  fun w => Ok (random_randint env (rng_calls w) a b)
              (set_rng_calls (S (rng_calls w)) w).

(** Field updates of [Store]. *)
Definition set_users (x : list User) (s : Store) : Store :=
  {| users := x; game_messages := game_messages s;
     direct_messages := direct_messages s; notifications := notifications s;
     dm_notification_cooldowns := dm_notification_cooldowns s |}.

Definition set_game_messages (x : list GameMessage) (s : Store) : Store :=
  {| users := users s; game_messages := x;
     direct_messages := direct_messages s; notifications := notifications s;
     dm_notification_cooldowns := dm_notification_cooldowns s |}.

Definition set_direct_messages (x : list DirectMessage) (s : Store) : Store :=
  {| users := users s; game_messages := game_messages s;
     direct_messages := x; notifications := notifications s;
     dm_notification_cooldowns := dm_notification_cooldowns s |}.

Definition set_notifications (x : list Notification) (s : Store) : Store :=
  {| users := users s; game_messages := game_messages s;
     direct_messages := direct_messages s; notifications := x;
     dm_notification_cooldowns := dm_notification_cooldowns s |}.

Definition set_dm_notification_cooldowns (x : list DmNotificationCooldown)
  (s : Store) : Store :=
  {| users := users s; game_messages := game_messages s;
     direct_messages := direct_messages s; notifications := notifications s;
     dm_notification_cooldowns := x |}.

(** The key an autoincrement column gives the next row. *)
Definition next_id (ids : list Z) : Z := 1 + fold_right Z.max 0 ids.

(** ** app/routers/rp_chat.py: the channel registry *)

(** [list.remove(x)]: the first occurrence goes. *)
Fixpoint list_remove (x : WebSocket) (l : list WebSocket) : list WebSocket :=
  match l with
  | [] => []
  | y :: r => if Nat.eqb x y then r else y :: list_remove x r
  end.

(** [x in l]. *)
Definition list_in (x : WebSocket) (l : list WebSocket) : bool :=
  existsb (Nat.eqb x) l.

(** [await websocket.accept()] is taken to succeed in both managers. *)
Module RpConnectionManager.

Definition connect (websocket : WebSocket) (channel_id : string) : M unit :=
  modify (fun w =>
    let ac := rp_connections w in
    let ac1 := match ac !! channel_id with
               | None => <[channel_id := []]> ac
               | Some _ => ac
               end in
    set_rp_connections (alter (fun l => l ++ [websocket]) channel_id ac1) w).

Definition disconnect (websocket : WebSocket) (channel_id : string)
  : M unit :=
  modify (fun w =>
    let ac := rp_connections w in
    match ac !! channel_id with
    | Some l =>
        if list_in websocket l then
          let l' := list_remove websocket l in
          set_rp_connections
            (if is_empty l' then delete channel_id ac
             else <[channel_id := l']> ac) w
        else w
    | None => w
    end).

(** The body of the loop of [broadcast_to_channel]. *)
Definition push (env : Env) (channel_id : string)
  (message_data : GameMessage) (connection : WebSocket) : M unit :=
  try_except
    (websocket_send env connection (TextFrame message_data))
    (fun _ => disconnect connection channel_id).

Definition broadcast_to_channel (env : Env) (channel_id : string)
  (message_data : GameMessage) : M unit :=
  w ← get_world;
  match rp_connections w !! channel_id with
  | Some connections_to_broadcast =>
      for_each connections_to_broadcast (push env channel_id message_data)
  | None => ret tt
  end.

End RpConnectionManager.

(** ** app/routers/messages.py: the user registry *)

(** What a Python call hands back, where a property is about the value. *)
Inductive PyValue :=
| PyNone
| PyBool (b : bool).

Module ConnectionManager.

Definition connect (websocket : WebSocket) (user_id : Z) : M unit :=
  modify (fun w =>
    set_dm_connections (<[user_id := websocket]> (dm_connections w)) w).

Definition disconnect (user_id : Z) : M unit :=
  modify (fun w =>
    match dm_connections w !! user_id with
    | Some _ => set_dm_connections (delete user_id (dm_connections w)) w
    | None => w
    end).

Definition send_personal_message_json (env : Env) (data : DirectMessage)
  (user_id : Z) : M PyValue :=
  w ← get_world;
  match dm_connections w !! user_id with
  | Some websocket =>
      websocket_send env websocket (JsonFrame data);; ret PyNone
  | None => ret PyNone
  end.

End ConnectionManager.

(** ** app/crud.py *)

Definition get_user_by_id (user_id : Z) : M (option User) :=
  sql (SelectUser user_id);;
  db_read (fun s => find (fun u => u_id u =? user_id) (users s)).

Definition create_direct_message (env : Env) (content : string)
  (sender_id receiver_id : Z) : M DirectMessage :=
  id ← db_read (fun s => next_id (map dm_id (direct_messages s)));
  let db_message :=
    {| dm_id := id; dm_content := content; dm_timestamp := func_now env;
       dm_sender_id := sender_id; dm_receiver_id := receiver_id;
       dm_is_read := false |} in
  sql (InsertDirectMessage id);;
  db_write (fun s => set_direct_messages (direct_messages s ++ [db_message]) s);;
  db_commit;;
  ret db_message.

Definition create_notification (env : Env) (user_id : Z)
  (type content : string) (link : option string) : M Notification :=
  id ← db_read (fun s => next_id (map n_id (notifications s)));
  let db_notification :=
    {| n_id := id; n_user_id := user_id; n_type := type;
       n_content := content; n_link := link; n_is_read := false;
       n_emailed_in_digest := false; n_timestamp := func_now env |} in
  sql (InsertNotification id);;
  db_write (fun s => set_notifications (notifications s ++ [db_notification]) s);;
  db_commit;;
  ret db_notification.

Definition cooldown_matches (original_sender_id receiver_id : Z)
  (c : DmNotificationCooldown) : bool :=
  (cd_original_sender_id c =? original_sender_id)
  && (cd_receiver_id c =? receiver_id).

Definition get_dm_notification_cooldown (original_sender_id receiver_id : Z)
  : M (option DmNotificationCooldown) :=
  sql (SelectCooldown original_sender_id receiver_id);;
  db_read (fun s =>
    find (cooldown_matches original_sender_id receiver_id)
         (dm_notification_cooldowns s)).

Definition touch_cooldown (env : Env) (id : Z) (c : DmNotificationCooldown)
  : DmNotificationCooldown :=
  if cd_id c =? id
  then {| cd_id := cd_id c;
          cd_original_sender_id := cd_original_sender_id c;
          cd_receiver_id := cd_receiver_id c;
          cd_last_email_sent_at := Some (func_now env) |}
  else c.

Definition upsert_dm_notification_cooldown (env : Env)
  (original_sender_id receiver_id : Z) : M DmNotificationCooldown :=
  cooldown_record ← get_dm_notification_cooldown original_sender_id receiver_id;
  match cooldown_record with
  | Some c =>
      sql (UpdateCooldown (cd_id c));;
      db_write (fun s =>
        set_dm_notification_cooldowns
          (map (touch_cooldown env (cd_id c)) (dm_notification_cooldowns s)) s);;
      db_commit;;
      ret (touch_cooldown env (cd_id c) c)
  | None =>
      id ← db_read (fun s => next_id (map cd_id (dm_notification_cooldowns s)));
      let c := {| cd_id := id;
                  cd_original_sender_id := original_sender_id;
                  cd_receiver_id := receiver_id;
                  cd_last_email_sent_at := Some (func_now env) |} in
      sql (InsertCooldown original_sender_id receiver_id);;
      db_write (fun s =>
        set_dm_notification_cooldowns (dm_notification_cooldowns s ++ [c]) s);;
      db_commit;;
      ret c
  end.

Definition create_game_message_rp_style (env : Env) (game_id : Z)
  (sender_id : option Z) (content senderName senderType : string)
  (avatar character_id owner_user_id : option string) : M (option GameMessage) :=
  id ← db_read (fun s => next_id (map gm_id (game_messages s)));
  let db_message :=
    {| gm_id := id; gm_content := content; gm_timestamp := func_now env;
       gm_game_id := game_id; gm_sender_id := sender_id;
       gm_sender_display_name := Some senderName;
       gm_sender_role := Some senderType;
       gm_sender_avatar_url := avatar;
       gm_character_id := character_id;
       gm_owner_user_id := owner_user_id |} in
  sql (InsertGameMessage id);;
  db_write (fun s => set_game_messages (game_messages s ++ [db_message]) s);;
  db_commit;;
  db_read (fun s => find (fun m => gm_id m =? id) (game_messages s)).

(** *** The dice parser *)

Record DiceRoll := {
  num_dice : Z;
  num_sides : Z;
  rolls : list Z;
  total : Z
}.

(** [[random.randint(1, num_sides) for _ in range(n)]]. *)
Fixpoint roll_dice (env : Env) (n : nat) (num_sides : Z) : M (list Z) :=
  match n with
  | O => ret []
  | S k =>
      r ← randint env 1 num_sides;
      rs ← roll_dice env k num_sides;
      ret (r :: rs)
  end.

Definition parse_dice_notation_for_rp (env : Env) (notation : string)
  : M (option DiceRoll) :=
  match re_match_dice (lower (strip (list_ascii_of_string notation))) with
  | None => ret None
  | Some m =>
      num_dice ← lift_exn (py_int (group1 m));
      num_sides ← lift_exn (py_int (group2 m));
      if (num_dice <=? 0) || (num_sides <=? 0) || (100 <? num_dice)
      then ret None
      else
        rolls ← roll_dice env (Z.to_nat num_dice) num_sides;
        let total := sum rolls in
        ret (Some {| num_dice := num_dice; num_sides := num_sides;
                     rolls := rolls; total := total |})
  end.

(** ** app/routers/rp_chat.py: the endpoints *)

Definition TEST_CHANNEL_ID_FOR_GDM_RP : string := "gdm-rp-test-channel".
Definition PLACEHOLDER_GAME_ID_FOR_DB : Z := 0.

(** [', '.join(map(str, xs))]. *)
Fixpoint join_ints (xs : list Z) : M string :=
  match xs with
  | [] => ret ""
  | x :: r =>
      s ← lift_exn (py_str x);
      match r with
      | [] => ret s
      | _ :: _ => rest ← join_ints r; ret (s +:+ ", " +:+ rest)
      end
  end.

(** The f-string [roll_content] of [rp_dice_roll], its fields rendered
    from left to right. *)
Definition roll_content (rollerName : string) (parsed_roll : DiceRoll)
  : M string :=
  sides ← lift_exn (py_str (num_sides parsed_roll));
  dice ← lift_exn (py_str (num_dice parsed_roll));
  joined ← join_ints (rolls parsed_roll);
  sum_of_rolls ← lift_exn (py_str (total parsed_roll));
  ret (rollerName +:+ " rolls!! (d" +:+ sides +:+ " x " +:+ dice +:+ " = ["
       +:+ joined +:+ "] --> " +:+ sum_of_rolls +:+ ")").

Definition send_rp_message (env : Env) (channel_id : string)
  (content senderName senderType : string)
  (avatar character_id owner_user_id : option string) : M GameMessage :=
  if negb (String.eqb channel_id TEST_CHANNEL_ID_FOR_GDM_RP)
  then raise (HTTPException 403 "Channel not permitted")
  else
    db_message ← create_game_message_rp_style env PLACEHOLDER_GAME_ID_FOR_DB
                   None content senderName senderType
                   avatar character_id owner_user_id;
    match db_message with
    | None => raise (HTTPException 500 "Failed to create message in database")
    | Some m =>
        RpConnectionManager.broadcast_to_channel env channel_id m;;
        ret m
    end.

Definition rp_dice_roll (env : Env) (channel_id : string)
  (notation rollerName : string) : M GameMessage :=
  if negb (String.eqb channel_id TEST_CHANNEL_ID_FOR_GDM_RP)
  then raise (HTTPException 403 "Channel not permitted")
  else
    parsed_roll ← parse_dice_notation_for_rp env notation;
    match parsed_roll with
    | None => raise (HTTPException 400 "Invalid dice notation")
    | Some parsed =>
        content ← roll_content rollerName parsed;
        db_system_message ←
          create_game_message_rp_style env PLACEHOLDER_GAME_ID_FOR_DB None
            content "System" "system" None None None;
        match db_system_message with
        | None =>
            raise (HTTPException 500 "Failed to save dice roll message to DB")
        | Some m =>
            RpConnectionManager.broadcast_to_channel env channel_id m;;
            ret m
        end
    end.

(** ** app/utils/email_utils.py *)

Definition send_email_notification (env : Env) (mail : Email) : M unit :=
  if fm_instance env then
    try_except
      (if smtp_accepts env mail
       then modify (fun w => set_delivered_mail (delivered_mail w ++ [mail]) w)
       else raise (RuntimeError "send_message failed"))
      (fun _ => ret tt)
  else raise (RuntimeError "Email service not initialized. Call initialize_mailer first.").

(** [background_tasks.add_task(send_email_notification, ...)]. *)
Definition add_task (mail : Email) : M unit :=
  modify (fun w => set_background_tasks (background_tasks w ++ [mail]) w).

(** ** app/routers/messages.py: direct messages *)

Definition DM_EMAIL_COOLDOWN_MINUTES : Z := 15.

(** The cool-down test of [send_direct_message]: the value of
    [can_send_email] once the record has been looked up. *)
Definition can_send_email (env : Env)
  (cooldown_check : option DmNotificationCooldown) : exn + bool :=
  match cooldown_check with
  | Some c =>
      match cd_last_email_sent_at c with
      | Some last =>
          let last_sent_aware :=
            match tzinfo last with
            | None => replace_tzinfo_utc last
            | Some _ => last
            end in
          match datetime_lt (datetime_now_utc env)
                  (datetime_add last_sent_aware
                     (timedelta_minutes DM_EMAIL_COOLDOWN_MINUTES)) with
          | inl e => inl e
          | inr true => inr false
          | inr false => inr true
          end
      | None => inr true
      end
  | None => inr true
  end.

Definition ellipsis (limit : nat) (s : string) : string :=
  if (Z.of_nat limit <? str_len s) then "..." else "".

Definition notification_content (current_user : User) (content : string)
  : string :=
  "New message from "
  +:+ str_or (u_nickname current_user) (u_username current_user)
  +:+ ": " +:+ str_prefix 50 content +:+ ellipsis 50 content.

Definition dm_email (env : Env) (current_user receiver_user : User)
  (content : string) : Email :=
  {| subject :=
       "New Direct Message from "
       +:+ str_or (u_nickname current_user) (u_username current_user)
       +:+ " on Haven";
     recipient_email := default "" (u_email receiver_user);
     body_data :=
       DmBody (str_or (u_nickname receiver_user) (u_username receiver_user))
              (str_or (u_nickname current_user) (u_username current_user))
              (str_prefix 100 content +:+ ellipsis 100 content)
              (frontend_url env +:+ "/dm?targetUser=" +:+ u_username current_user)
              (clock_year env);
     template_name := "new_dm_notification.html" |}.

(** The e-mail branch of [send_direct_message], entered once the
    notification row exists. *)
Definition notify_by_email (env : Env) (current_user receiver_user : User)
  (content : string) : M unit :=
  if u_email_notifications_enabled receiver_user
     && str_truthy (u_email receiver_user) then
    w ← get_world;
    let is_receiver_online_ws :=
      bool_decide (is_Some (dm_connections w !! u_id receiver_user)) in
    if is_receiver_online_ws then ret tt
    else
      cooldown_check ← get_dm_notification_cooldown
                         (u_id current_user) (u_id receiver_user);
      ok ← lift_exn (can_send_email env cooldown_check);
      if ok : bool then
        add_task (dm_email env current_user receiver_user content);;
        upsert_dm_notification_cooldown env
          (u_id current_user) (u_id receiver_user);;
        ret tt
      else ret tt
  else ret tt.

(** [schemas.DirectMessage.from_orm(new_dm_db)] is taken to succeed: the
    rows of sender and receiver carry the address the schema requires. *)
Definition send_direct_message (env : Env) (current_user : User)
  (receiver_user_id : Z) (content : string) : M DirectMessage :=
  if u_id current_user =? receiver_user_id
  then raise (HTTPException 400 "Cannot send a message to yourself")
  else
    receiver ← get_user_by_id receiver_user_id;
    match receiver with
    | None => raise (HTTPException 404 "Receiver user not found")
    | Some receiver_user =>
        new_dm_db ← create_direct_message env content
                      (u_id current_user) receiver_user_id;
        let message_to_send := new_dm_db in
        create_notification env receiver_user_id "new_dm"
          (notification_content current_user content)
          (Some ("/dm?targetUser=" +:+ u_username current_user));;
        notify_by_email env current_user receiver_user content;;
        ConnectionManager.send_personal_message_json env
          message_to_send receiver_user_id;;
        ret new_dm_db
    end.

(** ** app/routers/tasks.py: the digest *)

Definition DIGEST_PERIOD_HOURS : Z := 24.

Definition DIGEST_NOTIFICATION_TYPES : list string :=
  ["new_game_post"; "game_updated"; "player_joined_your_game";
   "application_to_your_game"].

Definition EXCLUDED_FROM_DIGEST_TYPES : list string := ["new_dm"].

(** [s in l] on a list of strings. *)
Definition str_in (s : string) (l : list string) : bool :=
  existsb (String.eqb s) l.

(** [s.split(" ")[0]]. *)
Fixpoint first_word (s : string) : string :=
  match s with
  | EmptyString => EmptyString
  | String c r => if Ascii.eqb c " "%char then EmptyString
                  else String c (first_word r)
  end.

(** [notification.related_entity_id]: the [Notification] model declares
    no such column or attribute, so reading it raises. *)
Definition related_entity_id (notification : Notification) : M (option string) :=
  raise (AttributeError "related_entity_id").

Definition _prepare_notification_data_for_email (notification : Notification)
  : M PreparedNotification :=
  let content := n_content notification in
  let content_preview :=
    if 70 <? str_len content then str_prefix 70 content +:+ "..."
    else content in
  game_name_placeholder ←
    (if str_in (n_type notification)
          ["new_game_post"; "game_updated"; "player_joined_your_game";
           "application_to_your_game"]
     then
       rid ← related_entity_id notification;
       match rid with
       | Some r => if negb (String.eqb r "")
                   then ret (Some ("Game ID " +:+ r))
                   else ret (Some "A game")
       | None => ret (Some "A game")
       end
     else ret None);
  let player_name_placeholder :=
    if String.eqb (n_type notification) "player_joined_your_game"
    then Some (first_word content) else None in
  let applicant_name_placeholder :=
    if String.eqb (n_type notification) "application_to_your_game"
    then Some (first_word content) else None in
  ret {| pn_notification := notification;
         pn_content_preview := content_preview;
         pn_game_name_placeholder := game_name_placeholder;
         pn_player_name_placeholder := player_name_placeholder;
         pn_applicant_name_placeholder := applicant_name_placeholder |}.

(** [grouped[key].append(x)] on the dictionary kept in key order. *)
Definition group_append (key : string) (x : PreparedNotification)
  (grouped : list (string * list PreparedNotification))
  : list (string * list PreparedNotification) :=
  map (fun kv => if String.eqb (fst kv) key then (fst kv, snd kv ++ [x]) else kv)
      grouped.

Fixpoint group_loop (notifications : list Notification)
  (grouped : list (string * list PreparedNotification))
  : M (list (string * list PreparedNotification)) :=
  match notifications with
  | [] => ret grouped
  | notif :: r =>
      if str_in (n_type notif) (map fst grouped) then
        prepared_data ← _prepare_notification_data_for_email notif;
        group_loop r (group_append (n_type notif) prepared_data grouped)
      else group_loop r grouped
  end.

Definition _group_notifications_for_digest (notifications : list Notification)
  : M (list (string * list PreparedNotification)) :=
  group_loop notifications
    (map (fun notif_type => (notif_type, [])) DIGEST_NOTIFICATION_TYPES).

(** [ORDER BY timestamp ASC], rows of equal timestamp in table order. *)
Fixpoint insert_by_timestamp (n : Notification) (l : list Notification)
  : list Notification :=
  match l with
  | [] => [n]
  | m :: r =>
      if utc_instant (n_timestamp n) <? utc_instant (n_timestamp m)
      then n :: l else m :: insert_by_timestamp n r
  end.

Definition order_by_timestamp (l : list Notification) : list Notification :=
  fold_right insert_by_timestamp [] l.

Definition digest_filter (user_id : Z) (since : option datetime)
  (excluded_types included_types : list string) (n : Notification) : bool :=
  (n_user_id n =? user_id)
  && negb (n_emailed_in_digest n)
  && (if is_empty excluded_types then true
      else negb (str_in (n_type n) excluded_types))
  && (if is_empty included_types then true
      else str_in (n_type n) included_types)
  && match since with
     | Some t => utc_instant t <? utc_instant (n_timestamp n)
     | None => true
     end.

Definition get_notifications_for_digest (user_id : Z) (since : option datetime)
  (excluded_types included_types : list string) : M (list Notification) :=
  sql (SelectNotificationsForDigest user_id);;
  db_read (fun s =>
    order_by_timestamp
      (filter (fun n => digest_filter user_id since excluded_types
                          included_types n = true)
              (notifications s))).

Definition mark_emailed (ids : list Z) (n : Notification) : Notification :=
  if existsb (Z.eqb (n_id n)) ids
  then {| n_id := n_id n; n_user_id := n_user_id n; n_type := n_type n;
          n_content := n_content n; n_link := n_link n;
          n_is_read := n_is_read n; n_emailed_in_digest := true;
          n_timestamp := n_timestamp n |}
  else n.

Definition mark_notifications_as_emailed_in_digest (notification_ids : list Z)
  : M Z :=
  if is_empty notification_ids then ret 0
  else
    updated_count ← db_read (fun s =>
      Z.of_nat (length (filter
        (fun n => existsb (Z.eqb (n_id n)) notification_ids = true)
        (notifications s))));
    sql (UpdateNotificationsEmailed notification_ids);;
    db_write (fun s =>
      set_notifications (map (mark_emailed notification_ids) (notifications s)) s);;
    db_commit;;
    ret updated_count.

Definition touch_last_digest (env : Env) (user_id : Z) (u : User) : User :=
  if u_id u =? user_id
  then {| u_id := u_id u; u_username := u_username u; u_email := u_email u;
          u_nickname := u_nickname u;
          u_email_notifications_enabled := u_email_notifications_enabled u;
          u_last_digest_sent_at := Some (func_now env) |}
  else u.

Definition update_user_last_digest_sent_time (env : Env) (user_id : Z)
  : M (option User) :=
  user ← get_user_by_id user_id;
  match user with
  | Some u =>
      sql (UpdateUserLastDigest user_id);;
      db_write (fun s =>
        set_users (map (touch_last_digest env user_id) (users s)) s);;
      db_commit;;
      ret (Some (touch_last_digest env user_id u))
  | None => ret None
  end.

Definition digest_email (env : Env) (user : User) (since_time : datetime)
  (grouped_notifications : list (string * list PreparedNotification)) : Email :=
  {| subject := "Your Haven Activity Digest";
     recipient_email := default "" (u_email user);
     body_data :=
       DigestBody (str_or (u_nickname user) (u_username user))
         ("since " +:+ strftime env "%b %d, %Y at %I:%M %p UTC" since_time)
         (frontend_url env +:+ "/settings")
         (clock_year env)
         grouped_notifications;
     template_name := "digest_notification.html" |}.

(** The [try]/[except] statement that ends [_send_digests_for_user]:
    send, mark, stamp, commit; roll back on any exception. *)
Definition send_and_record_digest (env : Env) (user : User) (mail : Email)
  (notifications_to_send : list Notification) : M unit :=
  try_except
    (send_email_notification env mail;;
     let notification_ids_sent := map n_id notifications_to_send in
     mark_notifications_as_emailed_in_digest notification_ids_sent;;
     update_user_last_digest_sent_time env (u_id user);;
     db_commit)
    (fun _ => db_rollback).

Definition _send_digests_for_user (env : Env) (user : User) : M unit :=
  let since_time :=
    match u_last_digest_sent_at user with
    | Some t => t
    | None => datetime_add (datetime_now_utc env)
                (- timedelta_hours DIGEST_PERIOD_HOURS)
    end in
  notifications_to_send ←
    get_notifications_for_digest (u_id user) (Some since_time)
      EXCLUDED_FROM_DIGEST_TYPES DIGEST_NOTIFICATION_TYPES;
  if is_empty notifications_to_send then ret tt
  else
    grouped_notifications ← _group_notifications_for_digest notifications_to_send;
    let has_content_for_digest :=
      existsb (fun kv => negb (is_empty (snd kv))) grouped_notifications in
    if negb has_content_for_digest then ret tt
    else
      send_and_record_digest env user
        (digest_email env user since_time grouped_notifications)
        notifications_to_send.

(** The test that opens the loop body of [_scheduled_digest_sender_task]:
    [user.last_digest_sent_at and now < user.last_digest_sent_at +
    timedelta(hours=DIGEST_PERIOD_HOURS - 1)]. *)
Definition digest_not_yet_due (env : Env) (user : User) : exn + bool :=
  match u_last_digest_sent_at user with
  | Some last =>
      datetime_lt (datetime_now_utc env)
        (datetime_add last (timedelta_hours (DIGEST_PERIOD_HOURS - 1)))
  | None => inr false
  end.

(** The loop body of [_scheduled_digest_sender_task]. *)
Definition digest_for (env : Env) (user : User) : M unit :=
  skip ← lift_exn (digest_not_yet_due env user);
  if skip : bool then ret tt
  else _send_digests_for_user env user.

Definition eligible_for_digest (u : User) : bool :=
  u_email_notifications_enabled u
  && match u_email u with Some _ => true | None => false end.

Definition _scheduled_digest_sender_task (env : Env) : M unit :=
  sql SelectUsersForDigest;;
  users_for_digest ← db_read (fun s => filter (fun u => eligible_for_digest u = true) (users s));
  for_each users_for_digest (digest_for env).

(** ** Sequences of registry operations, and the notions the properties use *)

Inductive RegistryOp :=
| UserConnect (websocket : WebSocket) (user_id : Z)
| UserDisconnect (user_id : Z)
| ChannelConnect (websocket : WebSocket) (channel_id : string)
| ChannelDisconnect (websocket : WebSocket) (channel_id : string).

Definition apply_op (op : RegistryOp) : M unit :=
  match op with
  | UserConnect ws u => ConnectionManager.connect ws u
  | UserDisconnect u => ConnectionManager.disconnect u
  | ChannelConnect ws c => RpConnectionManager.connect ws c
  | ChannelDisconnect ws c => RpConnectionManager.disconnect ws c
  end.

Definition run_ops (ops : list RegistryOp) : M unit := for_each ops apply_op.

(** The design's reading of the user registry: the connection of a user
    is the one of the latest registration not yet followed by an
    unregistration, whatever came before it. *)
Fixpoint last_registration (ops : list RegistryOp) (u : Z)
  (initial : option WebSocket) : option WebSocket :=
  match ops with
  | [] => initial
  | UserConnect ws u' :: r =>
      last_registration r u (if u' =? u then Some ws else initial)
  | UserDisconnect u' :: r =>
      last_registration r u (if u' =? u then None else initial)
  | _ :: r => last_registration r u initial
  end.

(** No channel is registered with an empty list of connections. *)
Definition no_empty_channel (ac : gmap string (list WebSocket)) : Prop :=
  ∀ c l, ac !! c = Some l → l ≠ [].

(** The design's [deliver_to_user], word for word, read on
    [send_personal_message_json]: true on a successful push; false when
    the user has no connection or the push fails, the connection being
    unregistered in the latter case. *)
Definition deliver_to_user_as_stated (env : Env) (data : DirectMessage)
  (user_id : Z) (w : World) : Prop :=
  match dm_connections w !! user_id with
  | Some ws =>
      if socket_alive env ws
      then ∃ w', ConnectionManager.send_personal_message_json env data user_id w
                 = Ok (PyBool true) w'
      else ∃ w', ConnectionManager.send_personal_message_json env data user_id w
                 = Ok (PyBool false) w'
                 ∧ dm_connections w' !! user_id = None
  | None =>
      ∃ w', ConnectionManager.send_personal_message_json env data user_id w
            = Ok (PyBool false) w'
  end.

(** The design's [may_notify], word for word: no record for the pair, or
    a last-notified instant older than [now - cooldown_window]. *)
Definition may_notify_spec (now cooldown_window : Z)
  (record : option DmNotificationCooldown) : bool :=
  match record with
  | None => true
  | Some c =>
      match cd_last_email_sent_at c with
      | Some last => utc_instant last <? now - cooldown_window
      | None => false
      end
  end.

(** The design's digest example read on the loop body: the user is
    passed over, nothing is sent and nothing changes. *)
Definition digest_skipped_as_stated (env : Env) (user : User) (w : World)
  : Prop :=
  digest_for env user w = Ok tt w.

(** The shape [<count>d<sides>[+|-<modifier>]] of a string of code points. *)
Definition dice_shape (s : list ascii) (count sides : list ascii)
  (modifier : option (ascii * list ascii)) : Prop :=
  count ≠ [] ∧ sides ≠ []
  ∧ Forall (fun c => isdigit c = true) count
  ∧ Forall (fun c => isdigit c = true) sides
  ∧ match modifier with
    | None => s = count ++ "d"%char :: sides
    | Some (sign, ds) =>
        (sign = "+"%char ∨ sign = "-"%char) ∧ ds ≠ []
        ∧ Forall (fun c => isdigit c = true) ds
        ∧ s = count ++ "d"%char :: sides ++ sign :: ds
    end.

(** Every draw obeys [random.randint]'s contract. *)
Definition randint_in_range (env : Env) : Prop :=
  ∀ k a b, a ≤ b → a ≤ random_randint env k a b ≤ b.

(** A socket that takes a write. *)
Definition alive (env : Env) (ws : WebSocket) : Prop :=
  socket_alive env ws = true.

Global Instance alive_dec (env : Env) (ws : WebSocket)
  : Decision (alive env ws) :=
  decide (socket_alive env ws = true).

(** The frame of a broadcast as one socket receives it. *)
Definition framed (message_data : GameMessage) (ws : WebSocket)
  : WebSocket * Frame :=
  (ws, TextFrame message_data).

(** The channel registry once the connections left on a channel form
    [l]: an empty list takes the channel's entry with it. *)
Definition settled (channel_id : string) (l : list WebSocket)
  (ac : gmap string (list WebSocket)) : gmap string (list WebSocket) :=
  if is_empty l then delete channel_id ac else <[channel_id := l]> ac.

(** The world a result leaves behind, raised or not. *)
Definition world_of {A} (r : Result A) : World :=
  match r with
  | Ok _ w => w
  | Raise _ w => w
  end.



(** ** Sample worlds *)

Definition empty_store : Store :=
  {| users := []; game_messages := []; direct_messages := [];
     notifications := []; dm_notification_cooldowns := [] |}.

Definition world_with (s : Store) : World :=
  {| session := s; committed := s; dm_connections := ∅;
     rp_connections := ∅; wire := []; background_tasks := [];
     delivered_mail := []; rng_calls := 0; sql_log := [] |}.

(** One hundred hours past the epoch, with every socket and the mail
    transport in order; the dice come up as a fixed cycle. *)
Definition sample_env : Env :=
  {| clock := 100 * MICROSECONDS_PER_HOUR;
     clock_year := 2025;
     tz_aware_columns := true;
     socket_alive := fun _ => true;
     fm_instance := true;
     smtp_accepts := fun _ => true;
     random_randint := fun k a b => a + Z.of_nat k `mod` (b - a + 1);
     frontend_url := "http://localhost:3000";
     strftime := fun _ _ => "then" |}.

Definition with_dead_socket (dead : WebSocket) (env : Env) : Env :=
  {| clock := clock env; clock_year := clock_year env;
     tz_aware_columns := tz_aware_columns env;
     socket_alive := fun ws => negb (Nat.eqb ws dead) && socket_alive env ws;
     fm_instance := fm_instance env; smtp_accepts := smtp_accepts env;
     random_randint := random_randint env;
     frontend_url := frontend_url env; strftime := strftime env |}.

Definition with_failing_smtp (env : Env) : Env :=
  {| clock := clock env; clock_year := clock_year env;
     tz_aware_columns := tz_aware_columns env;
     socket_alive := socket_alive env;
     fm_instance := fm_instance env; smtp_accepts := fun _ => false;
     random_randint := random_randint env;
     frontend_url := frontend_url env; strftime := strftime env |}.

Definition hours_ago (env : Env) (h : Z) : datetime :=
  {| wall := clock env - timedelta_hours h; tzinfo := Some 0 |}.

Definition sample_user (id : Z) (name : string) (last : option datetime) : User :=
  {| u_id := id; u_username := name;
     u_email := Some (name +:+ "@example.org"); u_nickname := None;
     u_email_notifications_enabled := true;
     u_last_digest_sent_at := last |}.

Definition sample_notification (id user_id : Z) (type : string)
  (at_ : datetime) : Notification :=
  {| n_id := id; n_user_id := user_id; n_type := type;
     n_content := "Mira joined your game"; n_link := None;
     n_is_read := false; n_emailed_in_digest := false; n_timestamp := at_ |}.

Definition sample_dm : DirectMessage :=
  {| dm_id := 1; dm_content := "hello"; dm_timestamp := hours_ago sample_env 0;
     dm_sender_id := 3; dm_receiver_id := 7; dm_is_read := false |}.

Definition sample_message : GameMessage :=
  {| gm_id := 1; gm_content := "The door creaks.";
     gm_timestamp := hours_ago sample_env 0; gm_game_id := 0;
     gm_sender_id := None; gm_sender_display_name := Some "Narrator";
     gm_sender_role := Some "narration"; gm_sender_avatar_url := None;
     gm_character_id := None; gm_owner_user_id := None |}.

Definition sample_ops : list RegistryOp :=
  [UserConnect 1%nat 7; ChannelConnect 2%nat "tavern"; UserConnect 3%nat 7;
   ChannelDisconnect 2%nat "tavern"; UserDisconnect 9].

(** User 7 is connected on socket 1. *)
Definition online_world : World :=
  set_dm_connections {[ 7 := 1%nat ]} (world_with empty_store).

(** Three sockets listen to the tavern. *)
Definition tavern_world : World :=
  set_rp_connections {[ "tavern" := [1; 2; 3]%nat ]} (world_with empty_store).

(** Two people who can be written to, for the direct-message examples. *)
Definition dm_world : World :=
  world_with
    {| users := [sample_user 3 "bob" None; sample_user 7 "mira" None];
       game_messages := []; direct_messages := []; notifications := [];
       dm_notification_cooldowns := [] |}.

(** The same two people, the second connected on socket 1. *)
Definition dm_world_online : World :=
  set_dm_connections {[ 7 := 1%nat ]} dm_world.

(** The store of the digest examples: two users who accept mail, the
    first last served [h] hours ago, each with digestible notifications
    newer than that. *)
Definition digest_store (h : Z) : Store :=
  {| users := [sample_user 1 "ayla" (Some (hours_ago sample_env h));
               sample_user 2 "brom" None];
     game_messages := []; direct_messages := [];
     notifications :=
       [sample_notification 1 1 "game_updated" (hours_ago sample_env 2);
        sample_notification 2 1 "player_joined_your_game" (hours_ago sample_env 1);
        sample_notification 3 2 "new_game_post" (hours_ago sample_env 1)];
     dm_notification_cooldowns := [] |}.

Definition digest_world (h : Z) : World := world_with (digest_store h).

(** A user who accepts mail and whose last digest carries a naive
    timestamp, followed by another. *)
Definition naive_digest_world : World :=
  world_with
    {| users := [sample_user 1 "ayla"
                   (Some {| wall := clock sample_env - timedelta_hours 30;
                            tzinfo := None |});
                 sample_user 2 "brom" None];
       game_messages := []; direct_messages := []; notifications := [];
       dm_notification_cooldowns := [] |}.

(** ** The rest of the routers

    The queries below read the session; the statement log keeps to the
    calls of the delivery core above.  [skip] and [limit] are natural
    numbers: what a negative offset or limit does is left to the
    datastore. *)

(** [ORDER BY key ASC], rows of equal key in table order. *)
Fixpoint insert_by {A} (key : A -> Z) (x : A) (l : list A) : list A :=
  match l with
  | [] => [x]
  | y :: r => if key x <? key y then x :: l else y :: insert_by key x r
  end.

Definition order_by {A} (key : A -> Z) (l : list A) : list A :=
  fold_right (insert_by key) [] l.

(** [ORDER BY key DESC]. *)
Definition order_by_desc {A} (key : A -> Z) (l : list A) : list A :=
  order_by (fun x => - key x) l.

(** [.offset(skip).limit(limit)]. *)
Definition offset_limit {A} (skip limit : nat) (l : list A) : list A :=
  take limit (drop skip l).

(** *** Direct-message history (app/crud.py, app/routers/messages.py) *)

Definition between_users (user1_id user2_id : Z) (m : DirectMessage) : bool :=
  (dm_sender_id m =? user1_id) && (dm_receiver_id m =? user2_id)
  || (dm_sender_id m =? user2_id) && (dm_receiver_id m =? user1_id).

Definition get_direct_messages_between_users (user1_id user2_id : Z)
  (skip limit : nat) : M (list DirectMessage) :=
  db_read (fun s =>
    offset_limit skip limit
      (order_by (fun m => utc_instant (dm_timestamp m))
         (filter (fun m => between_users user1_id user2_id m = true)
                 (direct_messages s)))).

Definition get_direct_message_history (current_user : User)
  (other_user_id : Z) (skip limit : nat) : M (list DirectMessage) :=
  other_user ← get_user_by_id other_user_id;
  match other_user with
  | None => raise (HTTPException 404 "Other user not found")
  | Some _ =>
      if u_id current_user =? other_user_id
      then raise (HTTPException 400
                    "Cannot fetch DM history with yourself using this endpoint.")
      else get_direct_messages_between_users (u_id current_user)
             other_user_id skip limit
  end.

(** The other end of a message, as the grouping of
    [get_user_conversations] computes it. *)
Definition partner (user_id : Z) (m : DirectMessage) : Z :=
  if dm_sender_id m =? user_id then dm_receiver_id m else dm_sender_id m.

Definition involves (user_id : Z) (m : DirectMessage) : bool :=
  (dm_sender_id m =? user_id) || (dm_receiver_id m =? user_id).

(** [max(id)] over the group of a message: the messages exchanged with
    the same partner, the message itself among them. *)
Definition group_max_id (user_id : Z) (dms : list DirectMessage)
  (m : DirectMessage) : Z :=
  fold_right Z.max (dm_id m)
    (map dm_id
       (filter (fun m' => (involves user_id m'
                           && (partner user_id m' =? partner user_id m)) = true)
               dms)).

(** The sub-query: one [max_id] per group. *)
Definition latest_message_ids (user_id : Z) (dms : list DirectMessage)
  : list Z :=
  map (group_max_id user_id dms)
      (filter (fun m => involves user_id m = true) dms).

Definition get_user_conversations (user_id : Z) : M (list DirectMessage) :=
  db_read (fun s =>
    let dms := direct_messages s in
    order_by_desc (fun m => utc_instant (dm_timestamp m))
      (filter (fun m => existsb (Z.eqb (dm_id m))
                          (latest_message_ids user_id dms) = true)
              dms)).

(** [schemas.Conversation]; the two users of a message are loaded
    through its foreign keys. *)
Record Conversation := {
  other_user : option User;
  last_message : DirectMessage
}.

Definition list_my_conversations (current_user : User)
  : M (list Conversation) :=
  latest_messages_in_convos ← get_user_conversations (u_id current_user);
  db_read (fun s =>
    map (fun msg =>
           let other_id :=
             if dm_receiver_id msg =? u_id current_user
             then dm_sender_id msg else dm_receiver_id msg in
           {| other_user := find (fun u => u_id u =? other_id) (users s);
              last_message := msg |})
        latest_messages_in_convos).

(** *** Notifications (app/crud.py, app/routers/notifications.py) *)

Definition get_notifications_for_user (user_id : Z) (skip limit : nat)
  (include_read : bool) : M (list Notification) :=
  db_read (fun s =>
    offset_limit skip limit
      (order_by_desc (fun n => utc_instant (n_timestamp n))
         (filter (fun n => ((n_user_id n =? user_id)
                            && (include_read || negb (n_is_read n))) = true)
                 (notifications s)))).

Definition set_read (n : Notification) : Notification :=
  {| n_id := n_id n; n_user_id := n_user_id n; n_type := n_type n;
     n_content := n_content n; n_link := n_link n; n_is_read := true;
     n_emailed_in_digest := n_emailed_in_digest n;
     n_timestamp := n_timestamp n |}.

Definition mark_notification_as_read (notification_id user_id : Z)
  : M (option Notification) :=
  db_notification ← db_read (fun s =>
    find (fun n => (n_id n =? notification_id) && (n_user_id n =? user_id))
         (notifications s));
  match db_notification with
  | Some n =>
      db_write (fun s =>
        set_notifications
          (map (fun m => if n_id m =? n_id n then set_read m else m)
               (notifications s)) s);;
      db_commit;;
      ret (Some (set_read n))
  | None => ret None
  end.

Definition unread_of (user_id : Z) (n : Notification) : bool :=
  (n_user_id n =? user_id) && negb (n_is_read n).

Definition mark_all_notifications_as_read_for_user (user_id : Z) : M Z :=
  updated_count ← db_read (fun s =>
    Z.of_nat (length (filter (fun n => unread_of user_id n = true)
                             (notifications s))));
  db_write (fun s =>
    set_notifications
      (map (fun n => if unread_of user_id n then set_read n else n)
           (notifications s)) s);;
  db_commit;;
  ret updated_count.

Definition read_my_notifications (current_user : User) (skip limit : nat)
  (include_read : bool) : M (list Notification) :=
  get_notifications_for_user (u_id current_user) skip limit include_read.

Definition mark_notification_read (current_user : User)
  (notification_id : Z) : M Notification :=
  db_notification ← mark_notification_as_read notification_id
                      (u_id current_user);
  match db_notification with
  | None => raise (HTTPException 404
                     "Notification not found or not owned by user")
  | Some n => ret n
  end.

(** The answer of [mark_all_my_notifications_read]: its message and
    its [updated_count]. *)
Definition mark_all_my_notifications_read (current_user : User)
  : M (string * Z) :=
  updated_count ← mark_all_notifications_as_read_for_user (u_id current_user);
  if updated_count =? 0
  then ret ("No unread notifications to mark as read.", 0)
  else ret ("Successfully marked " +:+ pretty updated_count
            +:+ " notifications as read.", updated_count).

(** *** Roleplay history (app/crud.py, app/routers/rp_chat.py) *)

Definition get_game_messages_rp_style (game_id : Z) (skip limit : nat)
  : M (list GameMessage) :=
  db_read (fun s =>
    offset_limit skip limit
      (order_by (fun m => utc_instant (gm_timestamp m))
         (filter (fun m => (gm_game_id m =? game_id) = true)
                 (game_messages s)))).

Definition get_rp_messages (channel_id : string) (skip limit : nat)
  : M (list GameMessage) :=
  if negb (String.eqb channel_id TEST_CHANNEL_ID_FOR_GDM_RP)
  then raise (HTTPException 403 "Channel not permitted")
  else get_game_messages_rp_style PLACEHOLDER_GAME_ID_FOR_DB skip limit.

(** *** The socket endpoints (app/routers/messages.py, rp_chat.py) *)

(** What [await websocket.receive_text()] gives, call after call: a text,
    [WebSocketDisconnect], or another exception. *)
Inductive Received :=
| ReceivedText (text : string)
| ReceivedDisconnect
| ReceivedError.

(** How far a handler has come once the events so far are consumed. *)
Inductive Outcome :=
| Waiting                 (* suspended in [receive_text] *)
| Finished                (* the handler has returned *)
| Closed (code : Z).      (* the handler closed the socket and returned *)

(** How the receive loop ends. *)
Inductive LoopEnd :=
| Disconnected            (* [WebSocketDisconnect] *)
| Errored.                (* any other exception *)

(** [while True: await websocket.receive_text()]: the first event that
    is not a text ends the loop; none so far leaves it suspended. *)
Fixpoint receive_loop (inbox : list Received) : option LoopEnd :=
  match inbox with
  | [] => None
  | ReceivedText _ :: r => receive_loop r
  | ReceivedDisconnect :: _ => Some Disconnected
  | ReceivedError :: _ => Some Errored
  end.

Definition WS_1008_POLICY_VIOLATION : Z := 1008.
Definition WS_1011_INTERNAL_ERROR : Z := 1011.

(** [auth.get_current_user_from_token_for_ws], the token already
    decoded: [payload] is [None] when decoding fails, else the [sub] and
    [user_id] entries of the token. *)
Definition get_current_user_from_token_for_ws
  (payload : option (option string * option Z)) : M (option User) :=
  match payload with
  | None => ret None
  | Some (username, user_id) =>
      match username, user_id with
      | Some _, Some uid => get_user_by_id uid
      | _, _ => ret None
      end
  end.

Definition websocket_dm_endpoint (websocket : WebSocket)
  (payload : option (option string * option Z)) (inbox : list Received)
  : M Outcome :=
  current_user ← get_current_user_from_token_for_ws payload;
  match current_user with
  | None => ret (Closed WS_1008_POLICY_VIOLATION)
  | Some user =>
      ConnectionManager.connect websocket (u_id user);;
      match receive_loop inbox with
      | None => ret Waiting
      | Some Disconnected =>
          ConnectionManager.disconnect (u_id user);;
          ret Finished
      | Some Errored =>
          ConnectionManager.disconnect (u_id user);;
          ret (Closed WS_1011_INTERNAL_ERROR)
      end
  end.

Definition websocket_rp_chat_endpoint (websocket : WebSocket)
  (channel_id : string) (inbox : list Received) : M Outcome :=
  RpConnectionManager.connect websocket channel_id;;
  match receive_loop inbox with
  | None => ret Waiting
  | Some _ =>
      RpConnectionManager.disconnect websocket channel_id;;
      ret Finished
  end.

(** *** Games (app/crud.py, app/routers/messages.py, app/routers/games.py)

    The [games] table and its [user_games] association are threaded
    beside the world: a handler takes the table as it finds it and, when
    it writes, hands the new one back. *)

Record Game := {
  g_id : Z;
  g_name : string;
  g_description : option string;
  g_master_id : Z;
  g_max_players : option Z;
  g_is_active : bool;
  g_players : list Z          (* the user ids of [game.players] *)
}.

Definition get_game_by_id (games : list Game) (game_id : Z) : option Game :=
  find (fun g => g_id g =? game_id) games.

(** [user in game.players]. *)
Definition is_player_of (user_id : Z) (game : Game) : bool :=
  existsb (Z.eqb user_id) (g_players game).

Definition set_players (players : list Z) (g : Game) : Game :=
  {| g_id := g_id g; g_name := g_name g; g_description := g_description g;
     g_master_id := g_master_id g; g_max_players := g_max_players g;
     g_is_active := g_is_active g; g_players := players |}.

(** [list.remove(x)] on user ids. *)
Fixpoint remove_id (x : Z) (l : list Z) : list Z :=
  match l with
  | [] => []
  | y :: r => if x =? y then r else y :: remove_id x r
  end.

Definition create_game (games : list Game) (name : string)
  (description : option string) (max_players : option Z) (master_id : Z)
  : M (Game * list Game) :=
  let db_game :=
    {| g_id := next_id (map g_id games); g_name := name;
       g_description := description; g_master_id := master_id;
       g_max_players := max_players; g_is_active := true;
       g_players := [] |} in
  db_commit;;
  ret (db_game, games ++ [db_game]).

Definition add_player_to_game (games : list Game) (game : Game)
  (user_id : Z) : M (Game * list Game) :=
  let updated := set_players (g_players game ++ [user_id]) game in
  db_commit;;
  ret (updated,
       map (fun g => if g_id g =? g_id game then updated else g) games).

Definition remove_player_from_game (games : list Game) (game : Game)
  (user_id : Z) : M (Game * list Game) :=
  if is_player_of user_id game then
    let updated := set_players (remove_id user_id (g_players game)) game in
    db_commit;;
    ret (updated,
         map (fun g => if g_id g =? g_id game then updated else g) games)
  else ret (game, games).

Definition create_game_message (env : Env) (content : string)
  (sender_display_name sender_role sender_avatar_url : option string)
  (game_id : Z) (sender_id : option Z) : M (option GameMessage) :=
  id ← db_read (fun s => next_id (map gm_id (game_messages s)));
  let db_message :=
    {| gm_id := id; gm_content := content; gm_timestamp := func_now env;
       gm_game_id := game_id; gm_sender_id := sender_id;
       gm_sender_display_name := sender_display_name;
       gm_sender_role := sender_role;
       gm_sender_avatar_url := sender_avatar_url;
       gm_character_id := None;
       gm_owner_user_id := None |} in
  sql (InsertGameMessage id);;
  db_write (fun s => set_game_messages (game_messages s ++ [db_message]) s);;
  db_commit;;
  db_read (fun s => find (fun m => gm_id m =? id) (game_messages s)).

Definition get_game_messages (game_id : Z) (skip limit : nat)
  : M (list GameMessage) :=
  db_read (fun s =>
    offset_limit skip limit
      (order_by (fun m => utc_instant (gm_timestamp m))
         (filter (fun m => (gm_game_id m =? game_id) = true)
                 (game_messages s)))).

(** The participant test of the two game-chat endpoints. *)
Definition is_participant (current_user : User) (game : Game) : bool :=
  let is_gm := g_master_id game =? u_id current_user in
  let is_player := is_player_of (u_id current_user) game in
  is_gm || is_player.

Definition send_message_to_game (env : Env) (games : list Game)
  (current_user : User) (game_id : Z) (content : string)
  (sender_display_name sender_role sender_avatar_url : option string)
  : M (option GameMessage) :=
  match get_game_by_id games game_id with
  | None => raise (HTTPException 404 "Game not found")
  | Some game =>
      if negb (is_participant current_user game)
      then raise (HTTPException 403
                    "Not authorized to send messages to this game")
      else create_game_message env content sender_display_name sender_role
             sender_avatar_url game_id (Some (u_id current_user))
  end.

Definition get_messages_for_game (games : list Game) (current_user : User)
  (game_id : Z) (skip limit : nat) : M (list GameMessage) :=
  match get_game_by_id games game_id with
  | None => raise (HTTPException 404 "Game not found")
  | Some game =>
      if negb (is_participant current_user game)
      then raise (HTTPException 403
                    "Not authorized to view messages for this game")
      else get_game_messages game_id skip limit
  end.

Definition create_new_game (games : list Game) (current_user : User)
  (name : string) (description : option string) (max_players : option Z)
  : M (option Game * list Game) :=
  '(created_game, games') ← create_game games name description max_players
                              (u_id current_user);
  ret (get_game_by_id games' (g_id created_game), games').

Definition join_game (games : list Game) (current_user : User) (game_id : Z)
  : M (option Game * list Game) :=
  match get_game_by_id games game_id with
  | None => raise (HTTPException 404 "Game not found")
  | Some game =>
      if g_master_id game =? u_id current_user
      then raise (HTTPException 400
                    "Game master cannot join their own game as a player")
      else if is_player_of (u_id current_user) game
      then raise (HTTPException 400 "User is already a player in this game")
      else
        '(updated_game, games') ← add_player_to_game games game
                                    (u_id current_user);
        ret (get_game_by_id games' (g_id updated_game), games')
  end.

Definition leave_game (games : list Game) (current_user : User) (game_id : Z)
  : M (option Game * list Game) :=
  match get_game_by_id games game_id with
  | None => raise (HTTPException 404 "Game not found")
  | Some game =>
      if negb (is_player_of (u_id current_user) game)
      then raise (HTTPException 400 "User is not a player in this game")
      else
        '(updated_game, games') ← remove_player_from_game games game
                                    (u_id current_user);
        ret (get_game_by_id games' (g_id updated_game), games')
  end.

Definition gm_remove_player_from_game (games : list Game)
  (current_user : User) (game_id player_user_id : Z)
  : M (option Game * list Game) :=
  match get_game_by_id games game_id with
  | None => raise (HTTPException 404 "Game not found")
  | Some game =>
      if negb (g_master_id game =? u_id current_user)
      then raise (HTTPException 403 "Only the game master can remove players")
      else
        player_to_remove ← get_user_by_id player_user_id;
        match player_to_remove with
        | None => raise (HTTPException 404 "Player to remove not found")
        | Some player =>
            if negb (is_player_of (u_id player) game)
            then raise (HTTPException 400
                          "Specified user is not a player in this game")
            else
              '(updated_game, games') ← remove_player_from_game games game
                                          (u_id player);
              ret (get_game_by_id games' (g_id updated_game), games')
        end
  end.

(** ** Notions the further properties use *)

(** The row [create_game_message_rp_style] writes. *)
Definition rp_row (env : Env) (w : World) (game_id : Z)
  (sender_id : option Z) (content senderName senderType : string)
  (avatar character_id owner_user_id : option string) : GameMessage :=
  {| gm_id := next_id (map gm_id (game_messages (session w)));
     gm_content := content; gm_timestamp := func_now env;
     gm_game_id := game_id; gm_sender_id := sender_id;
     gm_sender_display_name := Some senderName;
     gm_sender_role := Some senderType;
     gm_sender_avatar_url := avatar;
     gm_character_id := character_id;
     gm_owner_user_id := owner_user_id |}.

(** The world once a game message has been inserted and committed. *)
Definition with_game_message (m : GameMessage) (w : World) : World :=
  let s := set_game_messages (game_messages (session w) ++ [m]) (session w) in
  set_committed s
    (set_session s
       (set_sql_log (sql_log w ++ [InsertGameMessage (gm_id m); Commit]) w)).

(** What [roll_content] reads once every number of the roll has been
    rendered. *)
Fixpoint join_text (xs : list Z) : string :=
  match xs with
  | [] => ""
  | [x] => pretty x
  | x :: r => pretty x +:+ ", " +:+ join_text r
  end.

Definition roll_text (rollerName : string) (parsed_roll : DiceRoll) : string :=
  rollerName +:+ " rolls!! (d" +:+ pretty (num_sides parsed_roll) +:+ " x "
  +:+ pretty (num_dice parsed_roll) +:+ " = ["
  +:+ join_text (rolls parsed_roll) +:+ "] --> "
  +:+ pretty (total parsed_roll) +:+ ")".

(** The system message a roll is posted as. *)
Definition roll_row (env : Env) (w : World) (rollerName : string)
  (parsed : DiceRoll) : GameMessage :=
  rp_row env w PLACEHOLDER_GAME_ID_FOR_DB None
    (roll_text rollerName parsed) "System" "system" None None None.

(** Two sockets listen to the roleplay test channel; one message has
    already been posted there. *)
Definition rp_world : World :=
  set_rp_connections {[ TEST_CHANNEL_ID_FOR_GDM_RP := [4; 5]%nat ]}
    (world_with
       {| users := []; game_messages := [sample_message];
          direct_messages := []; notifications := [];
          dm_notification_cooldowns := [] |}).

(** The row [create_direct_message] writes. *)
Definition dm_row (env : Env) (w : World) (sender_id receiver_id : Z)
  (content : string) : DirectMessage :=
  {| dm_id := next_id (map dm_id (direct_messages (session w)));
     dm_content := content; dm_timestamp := func_now env;
     dm_sender_id := sender_id; dm_receiver_id := receiver_id;
     dm_is_read := false |}.

(** The frames a direct message puts on the wire: one, to the socket
    registered for the receiver, if it takes the write. *)
Definition dm_frames (env : Env) (w : World) (receiver_id : Z)
  (dm : DirectMessage) : list (WebSocket * Frame) :=
  match dm_connections w !! receiver_id with
  | Some ws => if socket_alive env ws then [(ws, JsonFrame dm)] else []
  | None => []
  end.





(** A direct message of the examples, sent [h] hours before the sample
    clock. *)
Definition dm_at (id sender_id receiver_id : Z) (h : Z) : DirectMessage :=
  {| dm_id := id; dm_content := "hello"; dm_timestamp := hours_ago sample_env h;
     dm_sender_id := sender_id; dm_receiver_id := receiver_id;
     dm_is_read := false |}.

(** Three people; the first has exchanged two messages with the second
    and one with the third. *)
Definition chat_world : World :=
  world_with
    {| users := [sample_user 3 "bob" None; sample_user 7 "mira" None;
                 sample_user 9 "cato" None];
       game_messages := [];
       direct_messages := [dm_at 1 3 7 5; dm_at 2 7 3 4; dm_at 3 9 3 2];
       notifications := []; dm_notification_cooldowns := [] |}.

(** Rows carry distinct primary keys. *)
Definition distinct_ids {A} (id : A -> Z) (rows : list A) : Prop :=
  NoDup (map id rows).

(** The primary keys of direct messages are distinct and none is
    addressed to its sender. *)
Definition direct_messages_wf (s : Store) : Prop :=
  distinct_ids dm_id (direct_messages s)
  ∧ Forall (fun m => dm_sender_id m ≠ dm_receiver_id m) (direct_messages s).

(** The row [create_game_message] writes. *)
Definition game_row (env : Env) (w : World) (game_id : Z)
  (sender_id : option Z) (content : string)
  (sender_display_name sender_role sender_avatar_url : option string)
  : GameMessage :=
  {| gm_id := next_id (map gm_id (game_messages (session w)));
     gm_content := content; gm_timestamp := func_now env;
     gm_game_id := game_id; gm_sender_id := sender_id;
     gm_sender_display_name := sender_display_name;
     gm_sender_role := sender_role;
     gm_sender_avatar_url := sender_avatar_url;
     gm_character_id := None;
     gm_owner_user_id := None |}.

(** The games table is well formed: ids are distinct, nobody is listed
    twice among the players of a game, and no master plays in their own
    game. *)
Definition games_wf (games : list Game) : Prop :=
  distinct_ids g_id games
  ∧ Forall (fun g => NoDup (g_players g) ∧ g_master_id g ∉ g_players g) games.

(** The answers of the game endpoints that can fail. *)
Definition game_not_found : exn := HTTPException 404 "Game not found".

(** A game led by user 3 in which user 7 plays, and a second one led by
    user 7. *)
Definition sample_games : list Game :=
  [ {| g_id := 1; g_name := "The Sunken Keep"; g_description := None;
       g_master_id := 3; g_max_players := Some 4; g_is_active := true;
       g_players := [7] |};
    {| g_id := 2; g_name := "Ashfall"; g_description := None;
       g_master_id := 7; g_max_players := None; g_is_active := true;
       g_players := [] |} ].

(* ===================================================================== *)
(** * Part II. Properties                                                  *)
(* ===================================================================== *)

(** ** Running the monad *)

Lemma bind_Ok {A B} (m : M A) (k : A → M B) w a w' :
  m w = Ok a w' → (m ≫= k) w = k a w'.
Proof. intros H. unfold mbind, M_bind, bind. by rewrite H. Qed.

Lemma bind_Raise {A B} (m : M A) (k : A → M B) w e w' :
  m w = Raise e w' → (m ≫= k) w = Raise e w'.
Proof. intros H. unfold mbind, M_bind, bind. by rewrite H. Qed.

Lemma bind_inv {A B} (m : M A) (k : A → M B) w b w'' :
  (m ≫= k) w = Ok b w'' → ∃ a w', m w = Ok a w' ∧ k a w' = Ok b w''.
Proof.
  unfold mbind, M_bind, bind. destruct (m w) as [a w'|e w'] eqn:E; [|done].
  intros H. by exists a, w'.
Qed.

Ltac unfold_monad :=
  unfold db_commit, db_rollback, db_write, db_read, sql, lift_exn, modify,
    get_world, try_except, raise, mbind, M_bind, bind, mret,
    M_ret, ret in *.

Ltac normalize_logs :=
  cbn [world_of session committed dm_connections rp_connections wire
       background_tasks delivered_mail rng_calls sql_log
       set_session set_committed set_dm_connections set_rp_connections
       set_wire set_background_tasks set_delivered_mail set_rng_calls
       set_sql_log users game_messages direct_messages notifications
       dm_notification_cooldowns set_users set_game_messages
       set_direct_messages set_notifications set_dm_notification_cooldowns];
  rewrite <- ?app_assoc; cbn [app];
  rewrite ?drop_app_length, ?drop_all.


(** ** The dice parser *)

Lemma span_digits_app s :
  let '(ds, rest) := span_digits s in s = ds ++ rest.
Proof.
  induction s as [|c r IH]; simpl; [done|].
  destruct (isdigit c); [|done].
  destruct (span_digits r) as [ds rest]. simpl. by rewrite IH.
Qed.

Lemma span_digits_digits s :
  Forall (fun c => isdigit c = true) (fst (span_digits s)).
Proof.
  induction s as [|c r IH]; simpl; [constructor|].
  destruct (isdigit c) eqn:E; [|constructor].
  destruct (span_digits r) as [ds rest]. simpl in *. by constructor.
Qed.

Lemma is_empty_false {A} (l : list A) : is_empty l = false → l ≠ [].
Proof. by destruct l. Qed.

Lemma is_empty_true {A} (l : list A) : is_empty l = true → l = [].
Proof. by destruct l. Qed.

(** What the matcher accepts has the shape of the mini-grammar. *)
Lemma re_match_dice_shape s m :
  re_match_dice s = Some m → dice_shape s (group1 m) (group2 m) (group34 m).
Proof.
  unfold re_match_dice, dice_shape.
  pose proof (span_digits_app s) as Hs.
  pose proof (span_digits_digits s) as Hd.
  destruct (span_digits s) as [g1 r1]; simpl in Hd.
  destruct (is_empty g1) eqn:E1; [done|].
  destruct r1 as [|c r2]; [done|].
  destruct (Ascii.eqb c "d") eqn:Ec; [|done].
  apply Ascii.eqb_eq in Ec; subst c.
  pose proof (span_digits_app r2) as Hs2.
  pose proof (span_digits_digits r2) as Hd2.
  destruct (span_digits r2) as [g2 r3]; simpl in Hd2.
  destruct (is_empty g2) eqn:E2; [done|].
  destruct r3 as [|sign r4].
  - intros [= <-]; simpl. rewrite app_nil_r in Hs2. subst.
    repeat split; eauto using is_empty_false.
  - destruct (Ascii.eqb sign "+" || Ascii.eqb sign "-") eqn:Esign; [|done].
    pose proof (span_digits_app r4) as Hs4.
    pose proof (span_digits_digits r4) as Hd4.
    destruct (span_digits r4) as [g4 r5]; simpl in Hd4.
    destruct (is_empty g4) eqn:E4; [done|].
    destruct (is_empty r5) eqn:E5; [|done].
    intros [= <-]; simpl. apply is_empty_true in E5; subst r5.
    rewrite app_nil_r in Hs4. subst.
    repeat split; eauto using is_empty_false.
    apply orb_true_iff in Esign as [H|H]; apply Ascii.eqb_eq in H; auto.
Qed.

Lemma span_digits_exact ds rest :
  Forall (fun c => isdigit c = true) ds →
  match rest with [] => True | c :: _ => isdigit c = false end →
  span_digits (ds ++ rest) = (ds, rest).
Proof.
  intros Hds Hrest. induction Hds as [|c ds Hc _ IH]; cbn [app span_digits].
  - destruct rest as [|c r]; [done|]. cbn [span_digits]. by rewrite Hrest.
  - by rewrite Hc, IH.
Qed.

(** Conversely, the matcher accepts every string of that shape, with
    the groups the shape names. *)
Lemma re_match_dice_complete s count sides modifier :
  dice_shape s count sides modifier →
  re_match_dice s = Some {| group1 := count; group2 := sides;
                            group34 := modifier |}.
Proof.
  intros (Hc & Hs & Hdc & Hds & Hm). unfold re_match_dice.
  destruct modifier as [[sign ds]|].
  - destruct Hm as (Hsign & Hne & Hdd & ->).
    rewrite (span_digits_exact count) by done.
    destruct count as [|c0 count']; [done|]. cbn [is_empty Ascii.eqb].
    change (Ascii.eqb "d" "d") with true. cbn iota.
    rewrite (span_digits_exact sides (sign :: ds))
      by (by destruct Hsign as [-> | ->]).
    destruct sides as [|s0 sides']; [done|]. cbn [is_empty].
    replace (Ascii.eqb sign "+" || Ascii.eqb sign "-") with true
      by (by destruct Hsign as [-> | ->]).
    rewrite <- (app_nil_r ds), (span_digits_exact ds []) by done.
    destruct ds; [done|]. by rewrite app_nil_r.
  - subst s. rewrite (span_digits_exact count) by done.
    destruct count as [|c0 count']; [done|]. cbn [is_empty Ascii.eqb].
    change (Ascii.eqb "d" "d") with true. cbn iota.
    rewrite <- (app_nil_r sides), (span_digits_exact sides []) by done.
    destruct sides; [done|]. by rewrite app_nil_r.
Qed.

Lemma roll_dice_spec env n sides w :
  roll_dice env n sides w =
    Ok (map (fun k => random_randint env (rng_calls w + k)%nat 1 sides) (seq 0 n))
       (set_rng_calls (rng_calls w + n) w).
Proof.
  revert w. induction n as [|n IH]; intros w; simpl.
  - unfold_monad. rewrite Nat.add_0_r. by destruct w.
  - unfold_monad. unfold randint. rewrite IH. simpl.
    rewrite Nat.add_0_r. f_equal.
    + f_equal. rewrite <- seq_shift, map_map.
      apply map_ext. intros k. f_equal. lia.
    + unfold set_rng_calls; simpl. f_equal. lia.
Qed.

Lemma roll_dice_length env n sides w rs w' :
  roll_dice env n sides w = Ok rs w' → length rs = n.
Proof.
  rewrite roll_dice_spec. intros [= <- _]. by rewrite length_map, length_seq.
Qed.

Lemma roll_dice_range env n sides w rs w' :
  randint_in_range env → 1 ≤ sides →
  roll_dice env n sides w = Ok rs w' →
  Forall (fun r => 1 ≤ r ≤ sides) rs.
Proof.
  intros Hr Hs. rewrite roll_dice_spec. intros [= <- _].
  apply Forall_forall. intros x Hx%list_elem_of_In.
  apply in_map_iff in Hx as [k [<- _]]. by apply Hr.
Qed.

(** The two conversions: within the digit limit they give the value,
    beyond it they raise [ValueError]. *)
Lemma py_int_cases ds :
  (Z.of_nat (length ds) ≤ INT_MAX_STR_DIGITS
   ∧ py_int ds = inr (int_of_digits ds))
  ∨ (INT_MAX_STR_DIGITS < Z.of_nat (length ds)
     ∧ ∃ msg, py_int ds = inl (ValueError msg)).
Proof.
  unfold py_int.
  destruct (Z.ltb_spec INT_MAX_STR_DIGITS (Z.of_nat (length ds)));
    [right|left]; eauto.
Qed.

Lemma py_str_cases z :
  (Z.abs z < INT_STR_BOUND ∧ py_str z = inr (pretty z))
  ∨ (INT_STR_BOUND ≤ Z.abs z ∧ ∃ msg, py_str z = inl (ValueError msg)).
Proof.
  unfold py_str.
  destruct (Z.leb_spec INT_STR_BOUND (Z.abs z)); [right|left]; eauto.
Qed.

(** The parser, step by step: the match, the two conversions, the
    bounds, the draws. *)
Lemma parse_dice_notation_unfold env notation w :
  parse_dice_notation_for_rp env notation w =
    match re_match_dice (lower (strip (list_ascii_of_string notation))) with
    | None => Ok None w
    | Some m =>
        match py_int (group1 m) with
        | inl e => Raise e w
        | inr count =>
            match py_int (group2 m) with
            | inl e => Raise e w
            | inr sides =>
                if (count <=? 0) || (sides <=? 0) || (100 <? count)
                then Ok None w
                else
                  let rs := map (fun k => random_randint env
                                            (rng_calls w + k)%nat 1 sides)
                                (seq 0 (Z.to_nat count)) in
                  Ok (Some {| num_dice := count; num_sides := sides;
                              rolls := rs; total := sum rs |})
                     (set_rng_calls (rng_calls w + Z.to_nat count) w)
            end
        end
    end.
Proof.
  unfold parse_dice_notation_for_rp.
  destruct (re_match_dice _) as [m|]; [|done].
  destruct (py_int (group1 m)) as [e|count]; [done|].
  destruct (py_int (group2 m)) as [e|sides]; [done|].
  unfold_monad. cbn [lift_exn].
  destruct (_ || _); [done|]. by rewrite roll_dice_spec.
Qed.

(** What the parser accepts: the shape of the mini-grammar on the
    stripped, lower-cased notation, the bounds on count and sides, one
    roll per die, each within the die, and a total that is the sum of
    the rolls. *)
Lemma parse_dice_notation_accepts env notation w r w' :
  randint_in_range env →
  parse_dice_notation_for_rp env notation w = Ok (Some r) w' →
  ∃ count sides modifier,
    dice_shape (lower (strip (list_ascii_of_string notation)))
      count sides modifier
    ∧ num_dice r = int_of_digits count
    ∧ num_sides r = int_of_digits sides
    ∧ 1 ≤ num_dice r ≤ 100
    ∧ 1 ≤ num_sides r
    ∧ length (rolls r) = Z.to_nat (num_dice r)
    ∧ Forall (fun x => 1 ≤ x ≤ num_sides r) (rolls r)
    ∧ total r = sum (rolls r).
Proof.
  intros Hr. rewrite parse_dice_notation_unfold.
  destruct (re_match_dice _) as [m|] eqn:Em; [|done].
  apply re_match_dice_shape in Em.
  destruct (py_int_cases (group1 m)) as [[_ ->]|[_ [msg ->]]]; [|done].
  destruct (py_int_cases (group2 m)) as [[_ ->]|[_ [msg ->]]]; [|done].
  destruct (_ || _) eqn:Eb; [done|].
  apply orb_false_iff in Eb as [Eb E3]. apply orb_false_iff in Eb as [E1 E2].
  cbv zeta. intros [= <- <-]. simpl.
  exists (group1 m), (group2 m), (group34 m).
  split; [exact Em|].
  repeat split; try done; try lia.
  - by rewrite length_map, length_seq.
  - apply Forall_forall. intros x Hx%list_elem_of_In.
    apply in_map_iff in Hx as [k [<- _]]. apply Hr. lia.
Qed.

(** A rejected notation draws no die and leaves the world alone. *)
Lemma parse_dice_notation_rejects_pure env notation w w' :
  parse_dice_notation_for_rp env notation w = Ok None w' → w' = w.
Proof.
  rewrite parse_dice_notation_unfold.
  destruct (re_match_dice _) as [m|]; [|by intros [= <-]].
  destruct (py_int (group1 m)); [done|].
  destruct (py_int (group2 m)); [done|].
  destruct (_ || _); [by intros [= <-]|done].
Qed.

(** The parser raises only [ValueError], from a conversion over the digit
    limit, and then nothing has been drawn. *)
Lemma parse_dice_notation_raises env notation w e w' :
  parse_dice_notation_for_rp env notation w = Raise e w' →
  w' = w ∧ ∃ msg, e = ValueError msg.
Proof.
  rewrite parse_dice_notation_unfold.
  destruct (re_match_dice _) as [m|]; [|done].
  destruct (py_int_cases (group1 m)) as [[_ ->]|[_ [msg ->]]];
    [|intros [= <- <-]; eauto].
  destruct (py_int_cases (group2 m)) as [[_ ->]|[_ [msg ->]]];
    [|intros [= <- <-]; eauto].
  by destruct (_ || _).
Qed.

(** The four notations of the design document are rejected. *)
Lemma parse_dice_notation_rejects_samples env w :
  Forall (fun notation => parse_dice_notation_for_rp env notation w = Ok None w)
    ["0d6"; "101d6"; "d6"; "3d0"].
Proof. repeat constructor. Qed.

(** A rejected notation ends the roll endpoint with a client error, and
    nothing has been persisted or broadcast. *)
Lemma rp_dice_roll_rejects env channel_id notation rollerName w :
  parse_dice_notation_for_rp env notation w = Ok None w →
  ∃ code detail,
    rp_dice_roll env channel_id notation rollerName w
      = Raise (HTTPException code detail) w
    ∧ 400 ≤ code < 500.
Proof.
  intros H. unfold rp_dice_roll.
  destruct (negb _).
  - exists 403, "Channel not permitted". split; [done|lia].
  - exists 400, "Invalid dice notation". split; [|lia].
    by erewrite bind_Ok by exact H.
Qed.

(** C1. The notation "3d6+2" is accepted and gives three rolls of a
    six-sided die, but the total the parser returns is the bare sum of
    the rolls: the modifier matched by the pattern is never added, so the
    total is not sum(rolls) + 2. *)
Theorem parse_dice_notation_drops_modifier (env : Env) (w : World) :
  ∃ r w',
    parse_dice_notation_for_rp env "3d6+2" w = Ok (Some r) w'
    ∧ num_dice r = 3 ∧ num_sides r = 6
    ∧ length (rolls r) = 3%nat
    ∧ total r = sum (rolls r)
    ∧ total r ≠ sum (rolls r) + 2.
Proof.
  set (r := {| num_dice := 3; num_sides := 6;
               rolls := map (fun k => random_randint env (rng_calls w + k)%nat 1 6)
                            (seq 0 3);
               total := sum (map (fun k => random_randint env (rng_calls w + k)%nat 1 6)
                                 (seq 0 3)) |}).
  exists r, (set_rng_calls (rng_calls w + 3) w).
  split; [|subst r; simpl; repeat split; lia].
  rewrite parse_dice_notation_unfold.
  change (re_match_dice _) with
    (Some {| group1 := ["3"%char]; group2 := ["6"%char];
             group34 := Some ("+"%char, ["2"%char]) |}).
  cbn [group1 group2].
  change (py_int ["3"%char]) with (@inr exn Z 3).
  change (py_int ["6"%char]) with (@inr exn Z 6).
  reflexivity.
Qed.

(** ** The registries *)

Lemma list_in_spec x l : list_in x l = true ↔ x ∈ l.
Proof.
  unfold list_in. rewrite existsb_exists. split.
  - intros (y & Hy%list_elem_of_In & ->%Nat.eqb_eq). done.
  - intros H. exists x. split; [by apply list_elem_of_In|apply Nat.eqb_refl].
Qed.

Lemma list_in_false x l : list_in x l = false ↔ x ∉ l.
Proof.
  rewrite <- list_in_spec. destruct (list_in x l); split; congruence.
Qed.

Lemma list_remove_not_in x l : x ∉ l → list_remove x l = l.
Proof.
  induction l as [|y r IH]; [done|]. intros H. simpl.
  apply not_elem_of_cons in H as [Hxy Hr].
  destruct (Nat.eqb_spec x y); [done|]. by rewrite IH.
Qed.

Lemma list_remove_middle x kept s :
  x ∉ kept → list_remove x (kept ++ x :: s) = kept ++ s.
Proof.
  induction kept as [|y r IH]; simpl.
  - by rewrite Nat.eqb_refl.
  - intros H. apply not_elem_of_cons in H as [Hxy Hr].
    destruct (Nat.eqb_spec x y); [done|]. by rewrite IH.
Qed.

(** With distinct connections, removing one is filtering it out. *)
Lemma list_remove_filter x l :
  NoDup l → list_remove x l = filter (λ y, y ≠ x) l.
Proof.
  induction 1 as [|y r Hy Hr IH]; [done|]. simpl.
  destruct (Nat.eqb_spec x y) as [->|Hne].
  - rewrite filter_cons_False by (intros H; by apply H).
    symmetry. clear IH Hr. induction r as [|z r IH]; [done|].
    apply not_elem_of_cons in Hy as [Hzy Hr].
    rewrite filter_cons_True by congruence. by rewrite IH.
  - rewrite filter_cons_True by congruence. by rewrite IH.
Qed.

Lemma connect_channel_spec ws c w :
  RpConnectionManager.connect ws c w =
    Ok tt (set_rp_connections
             (<[c := default [] (rp_connections w !! c) ++ [ws]]>
                (rp_connections w)) w).
Proof.
  unfold RpConnectionManager.connect, modify. do 2 f_equal.
  apply map_eq. intros c'. destruct (decide (c = c')) as [<-|Hne].
  - rewrite lookup_insert_eq, lookup_alter_eq.
    destruct (rp_connections w !! c) as [l|] eqn:E; simpl.
    + by rewrite E.
    + by rewrite lookup_insert_eq.
  - rewrite lookup_insert_ne, lookup_alter_ne by done.
    destruct (rp_connections w !! c); [done|]. by rewrite lookup_insert_ne.
Qed.

(** Unregistering what is not registered changes nothing. *)
Lemma disconnect_user_absent u w :
  dm_connections w !! u = None → ConnectionManager.disconnect u w = Ok tt w.
Proof. intros H. unfold ConnectionManager.disconnect, modify. by rewrite H. Qed.

Lemma disconnect_channel_absent ws c w :
  (∀ l, rp_connections w !! c = Some l → ws ∉ l) →
  RpConnectionManager.disconnect ws c w = Ok tt w.
Proof.
  intros H. unfold RpConnectionManager.disconnect, modify.
  destruct (rp_connections w !! c) as [l|]; [|done].
  specialize (H l eq_refl). apply list_in_false in H. by rewrite H.
Qed.

Lemma apply_op_total op w : ∃ w', apply_op op w = Ok tt w'.
Proof. destruct op; simpl; by eexists. Qed.

Lemma apply_op_user op w w' u :
  apply_op op w = Ok tt w' →
  dm_connections w' !! u = last_registration [op] u (dm_connections w !! u).
Proof.
  destruct op as [ws u'|u'|ws c|ws c]; simpl;
    unfold ConnectionManager.connect, ConnectionManager.disconnect,
      RpConnectionManager.connect, RpConnectionManager.disconnect, modify;
    intros [= <-]; simpl.
  - destruct (Z.eqb_spec u' u) as [->|Hne].
    + by rewrite lookup_insert_eq.
    + by rewrite lookup_insert_ne.
  - destruct (Z.eqb_spec u' u) as [->|Hne].
    + destruct (dm_connections w !! u) eqn:E; simpl; [|done].
      by rewrite lookup_delete_eq.
    + destruct (dm_connections w !! u') eqn:E; simpl; [|done].
      by rewrite lookup_delete_ne.
  - done.
  - destruct (rp_connections w !! c); [|done].
    by destruct (list_in ws l).
Qed.

Lemma apply_op_channel op w w' :
  apply_op op w = Ok tt w' →
  no_empty_channel (rp_connections w) → no_empty_channel (rp_connections w').
Proof.
  destruct op as [ws u'|u'|ws c|ws c]; simpl.
  - unfold ConnectionManager.connect, modify. by intros [= <-].
  - unfold ConnectionManager.disconnect, modify. intros [= <-].
    by destruct (dm_connections w !! u').
  - rewrite connect_channel_spec. intros [= <-] Hinv c' l. simpl.
    destruct (decide (c = c')) as [<-|Hne].
    + rewrite lookup_insert_eq. intros [= <-]. by destruct (default _ _).
    + rewrite lookup_insert_ne by done. apply Hinv.
  - unfold RpConnectionManager.disconnect, modify. intros [= <-] Hinv.
    destruct (rp_connections w !! c) as [l|] eqn:E; [|done].
    destruct (list_in ws l); [|done]. simpl.
    destruct (is_empty (list_remove ws l)) eqn:El; intros c' l'.
    + destruct (decide (c = c')) as [<-|Hne].
      * by rewrite lookup_delete_eq.
      * rewrite lookup_delete_ne by done. apply Hinv.
    + destruct (decide (c = c')) as [<-|Hne].
      * rewrite lookup_insert_eq. intros [= <-]. by apply is_empty_false.
      * rewrite lookup_insert_ne by done. apply Hinv.
Qed.

Lemma last_registration_app ops1 ops2 u initial :
  last_registration (ops1 ++ ops2) u initial =
    last_registration ops2 u (last_registration ops1 u initial).
Proof.
  revert initial. induction ops1 as [|op r IH]; intros initial; [done|].
  destruct op; simpl; apply IH.
Qed.

(** Along every sequence of connect and disconnect operations on the
    two registries, started where no channel has an empty list, the run
    never fails; each user id holds at most one connection, namely the
    one of its latest registration not followed by an unregistration
    (last write wins); no channel is left registered with an empty list
    of connections; and unregistering from the state reached a user id
    that has no entry, or a socket that is not in the channel's list,
    changes nothing. *)
Theorem registry_invariants (ops : list RegistryOp) (w : World) :
  no_empty_channel (rp_connections w) →
  ∃ w',
    run_ops ops w = Ok tt w'
    ∧ (∀ u, dm_connections w' !! u
            = last_registration ops u (dm_connections w !! u))
    ∧ no_empty_channel (rp_connections w')
    ∧ (∀ u, dm_connections w' !! u = None →
            ConnectionManager.disconnect u w' = Ok tt w')
    ∧ (∀ ws c, (∀ l, rp_connections w' !! c = Some l → ws ∉ l) →
               RpConnectionManager.disconnect ws c w' = Ok tt w').
Proof.
  revert w. induction ops as [|op r IH]; intros w Hinv.
  - exists w. repeat split; auto using disconnect_user_absent,
      disconnect_channel_absent.
  - destruct (apply_op_total op w) as [w1 H1].
    destruct (IH w1 (apply_op_channel _ _ _ H1 Hinv))
      as (w' & Hrun & Huser & Hchan & Hd1 & Hd2).
    exists w'. split; [|split; [|auto]].
    + unfold run_ops in *. simpl. by erewrite bind_Ok by exact H1.
    + intros u. rewrite Huser, (apply_op_user _ _ _ u H1).
      by rewrite (last_registration_app [op] r).
Qed.

Lemma no_empty_channel_empty : no_empty_channel ∅.
Proof. intros c l H. by rewrite lookup_empty in H. Qed.

Lemma registry_invariants_witness :
  ∃ w',
    run_ops sample_ops (world_with empty_store) = Ok tt w'
    ∧ (∀ u, dm_connections w' !! u
            = last_registration sample_ops u
                (dm_connections (world_with empty_store) !! u))
    ∧ no_empty_channel (rp_connections w')
    ∧ (∀ u, dm_connections w' !! u = None →
            ConnectionManager.disconnect u w' = Ok tt w')
    ∧ (∀ ws c, (∀ l, rp_connections w' !! c = Some l → ws ∉ l) →
               RpConnectionManager.disconnect ws c w' = Ok tt w').
Proof.
  apply (registry_invariants sample_ops (world_with empty_store)).
  simpl. exact no_empty_channel_empty.
Defined.

(** C7. Unregistering a connection that is already absent is not always
    a no-op.  User 7 opens a socket, then a second one, which replaces the
    first in the registry: the first connection is now absent.  When its
    handler ends it unregisters by user id, and the entry that goes is the
    one of the second socket: the registry changes, user 7 has no
    connection although the second socket is open, and a direct message
    for user 7 is not pushed any more.  The channel registry, which
    unregisters by socket, leaves the second socket in place and takes the
    repeated unregistration of the first as a no-op. *)
Theorem disconnect_of_replaced_connection_drops_successor :
  let token := Some (Some "mira", Some 7) in
  ∃ w1 w2 w3 c,
    websocket_dm_endpoint 1%nat token [] dm_world = Ok Waiting w1
    ∧ websocket_dm_endpoint 2%nat token [] w1 = Ok Waiting w2
    ∧ dm_connections w2 !! 7 = Some 2%nat
    ∧ ConnectionManager.disconnect 7 w2 = Ok tt w3
    ∧ dm_connections w3 !! 7 = None
    ∧ ConnectionManager.disconnect 7 w2 ≠ Ok tt w2
    ∧ (∀ env data,
         ConnectionManager.send_personal_message_json env data 7 w3
         = Ok PyNone w3)
    ∧ run_ops [ChannelConnect 1%nat "tavern"; ChannelConnect 2%nat "tavern";
               ChannelDisconnect 1%nat "tavern"] (world_with empty_store)
      = Ok tt c
    ∧ rp_connections c !! "tavern" = Some [2%nat]
    ∧ RpConnectionManager.disconnect 1%nat "tavern" c = Ok tt c.
Proof.
  cbv zeta. do 4 eexists.
  split; [vm_compute; reflexivity|].
  split; [vm_compute; reflexivity|].
  split; [reflexivity|].
  split; [vm_compute; reflexivity|].
  split; [reflexivity|].
  split; [intros [= H]; by apply (f_equal (λ m, m !! 7)) in H|].
  split; [intros env data; reflexivity|].
  split; [vm_compute; reflexivity|].
  split; reflexivity.
Qed.

(** ** Broadcasting to a channel *)

Lemma filter_agree {A} (P Q : A → Prop)
  `{!∀ x, Decision (P x), !∀ x, Decision (Q x)} (l : list A) :
  (∀ x, x ∈ l → P x ↔ Q x) → filter P l = filter Q l.
Proof.
  induction l as [|a l IH]; intros Hagree; [done|].
  assert (Ha : P a ↔ Q a) by (apply Hagree; left).
  assert (Hl : filter P l = filter Q l).
  { apply IH. intros x Hx. apply Hagree. by right. }
  destruct (decide (P a)).
  - rewrite !filter_cons_True by tauto. by rewrite Hl.
  - rewrite !filter_cons_False by tauto. done.
Qed.

Section Broadcast.
Variable env : Env.
Variable channel_id : string.
Variable message_data : GameMessage.

Local Abbreviation alive := (alive env).
Local Abbreviation framed := (framed message_data).
Local Abbreviation push := (RpConnectionManager.push env channel_id message_data).
Local Abbreviation settled := (settled channel_id).

Lemma settled_again l l' ac :
  l ≠ [] → settled l' (<[channel_id := l]> ac) = settled l' ac.
Proof.
  intros _. unfold settled. destruct (is_empty l').
  - apply delete_insert_eq.
  - apply insert_insert_eq.
Qed.

Lemma push_alive x w :
  socket_alive env x = true →
  push x w = Ok tt (set_wire (wire w ++ [framed x]) w).
Proof.
  intros H. unfold push, try_except, websocket_send. by rewrite H.
Qed.

Lemma push_dead x w :
  socket_alive env x = false →
  push x w = RpConnectionManager.disconnect x channel_id w.
Proof.
  intros H. unfold push, try_except, websocket_send. by rewrite H.
Qed.

Lemma disconnect_middle x kept s w :
  x ∉ kept →
  rp_connections w !! channel_id = Some (kept ++ x :: s) →
  RpConnectionManager.disconnect x channel_id w =
    Ok tt (set_rp_connections (settled (kept ++ s) (rp_connections w)) w).
Proof.
  intros Hx Hreg. unfold RpConnectionManager.disconnect, modify.
  rewrite Hreg.
  assert (Hin : list_in x (kept ++ x :: s) = true).
  { apply list_in_spec. set_solver. }
  by rewrite Hin, list_remove_middle.
Qed.

(** The loop of [broadcast_to_channel], entered when the connections
    already served and kept are [kept] and those still to serve are [s]:
    the live ones among [s] get the frame in order, the dead ones leave
    the registry. *)
Lemma broadcast_loop s : ∀ kept w,
  Forall alive kept →
  rp_connections w !! channel_id = Some (kept ++ s) →
  kept ++ s ≠ [] →
  for_each s push w =
    Ok tt (set_wire (wire w ++ map framed (filter alive s))
             (set_rp_connections
                (settled (kept ++ filter alive s) (rp_connections w)) w)).
Proof.
  induction s as [|x s IH]; intros kept w Hkept Hreg Hne.
  - rewrite filter_nil. simpl. rewrite !app_nil_r in *. unfold settled.
    destruct (is_empty kept) eqn:E; [by apply is_empty_true in E|].
    rewrite insert_id by done. by destruct w.
  - cbn [for_each].
    destruct (socket_alive env x) eqn:Ex.
    + erewrite bind_Ok by (by apply push_alive).
      rewrite filter_cons_True by done.
      rewrite (IH (kept ++ [x])); simpl.
      * rewrite <- !app_assoc. simpl. by destruct w.
      * apply Forall_app. split; [done|]. by constructor.
      * by rewrite <- app_assoc.
      * by destruct kept.
    + assert (Hx : x ∉ kept).
      { intros Hin. rewrite Forall_forall in Hkept.
        specialize (Hkept x Hin). unfold alive in Hkept. congruence. }
      rewrite filter_cons_False by (unfold alive; congruence).
      erewrite bind_Ok
        by (rewrite push_dead by done; by apply (disconnect_middle x kept s)).
      unfold settled at 1.
      destruct (is_empty (kept ++ s)) eqn:E.
      * apply is_empty_true, app_eq_nil in E as [-> ->]. simpl.
        rewrite filter_nil. simpl. rewrite app_nil_r. by destruct w.
      * apply is_empty_false in E.
        rewrite (IH kept); simpl; [|done|by rewrite lookup_insert_eq|done].
        rewrite settled_again by done. by destruct w.
Qed.

(** Whatever fails, the broadcast returns normally; the live
    connections get the frame in registration order and the registry
    keeps exactly them. *)
Lemma broadcast_to_channel_spec w l :
  rp_connections w !! channel_id = Some l → l ≠ [] →
  RpConnectionManager.broadcast_to_channel env channel_id message_data w =
    Ok tt (set_wire (wire w ++ map framed (filter alive l))
             (set_rp_connections
                (settled (filter alive l) (rp_connections w)) w)).
Proof.
  intros Hreg Hne. unfold RpConnectionManager.broadcast_to_channel.
  unfold mbind, M_bind, bind, get_world. rewrite Hreg.
  by apply (broadcast_loop l []).
Qed.

Lemma broadcast_to_channel_unknown w :
  rp_connections w !! channel_id = None →
  RpConnectionManager.broadcast_to_channel env channel_id message_data w = Ok tt w.
Proof.
  intros Hreg. unfold RpConnectionManager.broadcast_to_channel.
  unfold mbind, M_bind, bind, get_world. by rewrite Hreg.
Qed.

(** C6. Broadcasting to a channel of N distinct connections, exactly
    one of which raises on write, returns normally, hands the frame to
    the other N-1 in registration order, and removes the failing
    connection and no other from the registry (the channel's entry going
    with it when it was the only one); nothing else in the process
    changes. *)
Theorem broadcast_isolates_failing_connection
  (w : World) (l : list WebSocket) (bad : WebSocket) :
  rp_connections w !! channel_id = Some l →
  NoDup l →
  bad ∈ l →
  socket_alive env bad = false →
  (∀ x, x ∈ l → x ≠ bad → socket_alive env x = true) →
  ∃ w',
    RpConnectionManager.broadcast_to_channel env channel_id message_data w
      = Ok tt w'
    ∧ wire w' = wire w ++ map (λ x, (x, TextFrame message_data))
                              (filter (λ x, x ≠ bad) l)
    ∧ length (filter (λ x, x ≠ bad) l) = (length l - 1)%nat
    ∧ rp_connections w' !! channel_id =
        (if is_empty (filter (λ x, x ≠ bad) l) then None
         else Some (filter (λ x, x ≠ bad) l))
    ∧ (∀ c, c ≠ channel_id →
            rp_connections w' !! c = rp_connections w !! c)
    ∧ session w' = session w ∧ committed w' = committed w
    ∧ dm_connections w' = dm_connections w
    ∧ background_tasks w' = background_tasks w
    ∧ delivered_mail w' = delivered_mail w.
Proof.
  intros Hreg Hnd Hbad Hdead Hlive.
  assert (Hfilter : filter alive l = filter (λ x, x ≠ bad) l).
  { apply filter_agree. intros x Hx. unfold alive. split.
    - intros Hx' ->. congruence.
    - by apply Hlive. }
  assert (Hne : l ≠ []) by (intros ->; by apply elem_of_nil in Hbad).
  eexists. split; [by apply broadcast_to_channel_spec|].
  simpl. rewrite Hfilter. repeat split; try done.
  - clear Hreg Hlive Hfilter Hne Hdead.
    induction Hnd as [|y r Hy Hr IH]; [by apply elem_of_nil in Hbad|].
    destruct (decide (y = bad)) as [->|Hyb].
    + rewrite filter_cons_False by (intros H; by apply H).
      rewrite <- list_remove_filter, list_remove_not_in by done.
      simpl. lia.
    + rewrite filter_cons_True by done. simpl.
      apply elem_of_cons in Hbad as [->|Hbad]; [done|].
      rewrite IH by done. destruct r; [by apply elem_of_nil in Hbad|].
      simpl. lia.
  - unfold settled. destruct (is_empty _).
    + apply lookup_delete_eq.
    + apply lookup_insert_eq.
  - intros c Hc. unfold settled. destruct (is_empty _).
    + by apply lookup_delete_ne.
    + by apply lookup_insert_ne.
Qed.

End Broadcast.

Lemma broadcast_isolates_failing_connection_witness :
  ∃ w',
    RpConnectionManager.broadcast_to_channel (with_dead_socket 2%nat sample_env)
      "tavern" sample_message tavern_world = Ok tt w'
    ∧ wire w' = wire tavern_world
                ++ map (λ x, (x, TextFrame sample_message))
                       (filter (λ x, x ≠ 2%nat) [1; 2; 3]%nat)
    ∧ length (filter (λ x, x ≠ 2%nat) [1; 2; 3]%nat) = (length [1; 2; 3]%nat - 1)%nat
    ∧ rp_connections w' !! "tavern" =
        (if is_empty (filter (λ x, x ≠ 2%nat) [1; 2; 3]%nat) then None
         else Some (filter (λ x, x ≠ 2%nat) [1; 2; 3]%nat))
    ∧ (∀ c, c ≠ "tavern" →
            rp_connections w' !! c = rp_connections tavern_world !! c)
    ∧ session w' = session tavern_world
    ∧ committed w' = committed tavern_world
    ∧ dm_connections w' = dm_connections tavern_world
    ∧ background_tasks w' = background_tasks tavern_world
    ∧ delivered_mail w' = delivered_mail tavern_world.
Proof.
  apply (broadcast_isolates_failing_connection
           (with_dead_socket 2%nat sample_env) "tavern" sample_message
           tavern_world [1; 2; 3]%nat 2%nat).
  - reflexivity.
  - apply (bool_decide_unpack _). vm_compute. exact I.
  - apply (bool_decide_unpack _). vm_compute. exact I.
  - reflexivity.
  - intros x _ Hx. simpl. destruct (Nat.eqb_spec x 2%nat); [done|reflexivity].
Defined.

(** ** Delivery to one user *)

(** C2, as stated, fails twice over.  With user 7 connected on a
    writable socket the call returns [None], not [True]; with the socket
    dead the call raises instead of returning [False], and user 7 is still
    registered afterwards. *)
Lemma deliver_to_user_counterexample :
  ¬ deliver_to_user_as_stated sample_env sample_dm 7 online_world
  ∧ ¬ deliver_to_user_as_stated (with_dead_socket 1%nat sample_env)
        sample_dm 7 online_world
  ∧ ConnectionManager.send_personal_message_json sample_env
      sample_dm 7 online_world
    = Ok PyNone (set_wire [(1%nat, JsonFrame sample_dm)] online_world)
  ∧ ConnectionManager.send_personal_message_json
      (with_dead_socket 1%nat sample_env) sample_dm 7 online_world
    = Raise WebSocketError online_world
  ∧ dm_connections online_world !! 7 = Some 1%nat.
Proof.
  repeat split.
  - intros [w' H]. discriminate H.
  - intros [w' [H _]]. discriminate H.
Qed.

(** C2, amended. [send_personal_message_json] hands the event to the
    connection registered for the user when there is one and the write
    succeeds, and does nothing when there is none; in both cases it
    returns no value ([None], not a boolean), and the registry and the
    datastore are as they were. *)
Theorem send_personal_message_json_returns_none
  (env : Env) (data : DirectMessage) (user_id : Z) (w : World) :
  (∀ ws, dm_connections w !! user_id = Some ws → socket_alive env ws = true) →
  ConnectionManager.send_personal_message_json env data user_id w =
    Ok PyNone
       match dm_connections w !! user_id with
       | Some ws => set_wire (wire w ++ [(ws, JsonFrame data)]) w
       | None => w
       end.
Proof.
  intros Hlive. unfold ConnectionManager.send_personal_message_json.
  unfold_monad. destruct (dm_connections w !! user_id) as [ws|]; [|done].
  unfold websocket_send. by rewrite (Hlive ws eq_refl).
Qed.

Lemma send_personal_message_json_returns_none_witness :
  ConnectionManager.send_personal_message_json sample_env sample_dm 7
    online_world =
    Ok PyNone
       match dm_connections online_world !! 7 with
       | Some ws => set_wire (wire online_world ++ [(ws, JsonFrame sample_dm)])
                      online_world
       | None => online_world
       end.
Proof.
  apply (send_personal_message_json_returns_none sample_env sample_dm 7
           online_world).
  intros ws _. reflexivity.
Defined.

(** ** The cool-down test *)

(** C8, as stated, fails on the boundary: a record stamped exactly one
    window before now is not older than now minus the window, yet the
    handler lets the mail go. *)
Lemma may_notify_counterexample :
  let record := Some {| cd_id := 1; cd_original_sender_id := 3;
                        cd_receiver_id := 7;
                        cd_last_email_sent_at :=
                          Some {| wall := clock sample_env
                                          - timedelta_minutes 15;
                                  tzinfo := Some 0 |} |} in
  can_send_email sample_env record = inr true
  ∧ may_notify_spec (clock sample_env)
      (timedelta_minutes DM_EMAIL_COOLDOWN_MINUTES) record = false.
Proof. split; reflexivity. Qed.

(** The value of the cool-down test, case by case. *)
Lemma can_send_email_value (env : Env)
  (cooldown_check : option DmNotificationCooldown) :
  can_send_email env cooldown_check =
    inr match cooldown_check with
        | None => true
        | Some c =>
            match cd_last_email_sent_at c with
            | None => true
            | Some last =>
                utc_instant last + timedelta_minutes DM_EMAIL_COOLDOWN_MINUTES
                  <=? clock env
            end
        end.
Proof.
  unfold can_send_email.
  destruct cooldown_check as [c|]; [|done].
  destruct (cd_last_email_sent_at c) as [[wl [off|]]|]; [| |done];
    unfold datetime_lt, utc_instant; simpl;
    match goal with
    | |- context [?a <? ?b] => destruct (Z.ltb_spec a b)
    end;
    f_equal; symmetry;
    [apply Z.leb_gt|apply Z.leb_le|apply Z.leb_gt|apply Z.leb_le]; lia.
Qed.

(** C8, amended. The cool-down test never raises and lets the mail go
    exactly when there is no record for the pair, or the record carries
    no timestamp, or the 15-minute window counted from the last-notified
    instant has run out (now at or after last + window); the stored
    timestamp is read as a UTC instant whether it is naive or aware. *)
Theorem can_send_email_spec (env : Env)
  (cooldown_check : option DmNotificationCooldown) :
  can_send_email env cooldown_check =
    inr match cooldown_check with
        | None => true
        | Some c =>
            match cd_last_email_sent_at c with
            | None => true
            | Some last =>
                utc_instant last + timedelta_minutes DM_EMAIL_COOLDOWN_MINUTES
                  <=? clock env
            end
        end.
Proof. apply can_send_email_value. Qed.


(** ** Sending a direct message *)

(** C10. A direct message addressed to the sender's own id is refused
    with HTTP 400 before anything happens: no statement reaches the
    datastore, no row is written, no frame is pushed and no mail is
    queued; the world is the one the request found. *)
Theorem send_direct_message_to_self_rejected
  (env : Env) (current_user : User) (receiver_user_id : Z)
  (content : string) (w : World) :
  u_id current_user = receiver_user_id →
  send_direct_message env current_user receiver_user_id content w =
    Raise (HTTPException 400 "Cannot send a message to yourself") w.
Proof.
  intros H. unfold send_direct_message.
  by rewrite (proj2 (Z.eqb_eq _ _) H).
Qed.

Lemma send_direct_message_to_self_rejected_witness :
  send_direct_message sample_env (sample_user 7 "mira" None) 7 "hello"
    online_world =
    Raise (HTTPException 400 "Cannot send a message to yourself") online_world.
Proof.
  apply (send_direct_message_to_self_rejected sample_env
           (sample_user 7 "mira" None) 7 "hello" online_world).
  reflexivity.
Defined.

Lemma find_user_id rid l ru :
  find (λ u, u_id u =? rid) l = Some ru → u_id ru = rid.
Proof. intros H. apply find_some in H as [_ H]. by apply Z.eqb_eq. Qed.








(** ** The digest *)

Lemma for_each_raise {A} (body : A → M unit) x r w e w' :
  body x w = Raise e w' → for_each (x :: r) body w = Raise e w'.
Proof. intros H. simpl. by apply bind_Raise. Qed.

(** Preparing a notification of a digestible type reads an attribute
    the model does not have. *)
Lemma prepare_notification_raises notification w :
  str_in (n_type notification) DIGEST_NOTIFICATION_TYPES = true →
  _prepare_notification_data_for_email notification w
    = Raise (AttributeError "related_entity_id") w.
Proof.
  intros H. unfold _prepare_notification_data_for_email.
  unfold DIGEST_NOTIFICATION_TYPES in H. rewrite H.
  by unfold related_entity_id, mbind, M_bind, bind, raise.
Qed.

(** Hence grouping fails on the first notification it would keep. *)
Lemma group_notifications_raises notif r w :
  str_in (n_type notif) DIGEST_NOTIFICATION_TYPES = true →
  _group_notifications_for_digest (notif :: r) w
    = Raise (AttributeError "related_entity_id") w.
Proof.
  intros H. unfold _group_notifications_for_digest. cbn [group_loop].
  change (map fst (map (λ notif_type, (notif_type, [])) DIGEST_NOTIFICATION_TYPES))
    with DIGEST_NOTIFICATION_TYPES.
  rewrite H. apply bind_Raise. by apply prepare_notification_raises.
Qed.

Lemma insert_by_timestamp_Forall (P : Notification → Prop) n l :
  P n → Forall P l → Forall P (insert_by_timestamp n l).
Proof.
  intros Hn. induction 1 as [|m r Hm Hr IH]; simpl.
  - by constructor.
  - destruct (_ <? _); repeat constructor; auto.
Qed.

Lemma order_by_timestamp_Forall (P : Notification → Prop) l :
  Forall P l → Forall P (order_by_timestamp l).
Proof.
  induction 1; simpl; [constructor|]. by apply insert_by_timestamp_Forall.
Qed.

(** Every notification the digest query returns is of a digestible
    type. *)
Lemma digest_query_types user_id since s :
  Forall (λ n, str_in (n_type n) DIGEST_NOTIFICATION_TYPES = true)
    (order_by_timestamp
       (filter (λ n, digest_filter user_id since EXCLUDED_FROM_DIGEST_TYPES
                       DIGEST_NOTIFICATION_TYPES n = true)
               (notifications s))).
Proof.
  apply order_by_timestamp_Forall, Forall_forall.
  intros n [Hn _]%list_elem_of_filter.
  unfold digest_filter in Hn. cbn [is_empty DIGEST_NOTIFICATION_TYPES] in Hn.
  repeat (apply andb_true_iff in Hn as [Hn ?]). done.
Qed.

(** As the code stands, [_send_digests_for_user] either finds nothing to
    send and returns, or fails while grouping: it never sends a digest and
    never changes a row. *)
Lemma send_digests_for_user_never_sends env user w :
  let pending :=
    order_by_timestamp
      (filter (λ n, digest_filter (u_id user)
                      (Some (match u_last_digest_sent_at user with
                             | Some t => t
                             | None => datetime_add (datetime_now_utc env)
                                         (- timedelta_hours DIGEST_PERIOD_HOURS)
                             end))
                      EXCLUDED_FROM_DIGEST_TYPES DIGEST_NOTIFICATION_TYPES n = true)
              (notifications (session w))) in
  let w1 := set_sql_log (sql_log w ++ [SelectNotificationsForDigest (u_id user)]) w in
  _send_digests_for_user env user w =
    if is_empty pending then Ok tt w1
    else Raise (AttributeError "related_entity_id") w1.
Proof.
  intros pending w1. unfold _send_digests_for_user.
  unfold get_notifications_for_digest. unfold_monad.
  cbn [session set_sql_log]. fold pending. fold w1.
  pose proof (digest_query_types (u_id user)
    (Some (match u_last_digest_sent_at user with
           | Some t => t
           | None => datetime_add (datetime_now_utc env)
                       (- timedelta_hours DIGEST_PERIOD_HOURS)
           end)) (session w)) as Htypes.
  fold pending in Htypes.
  destruct pending as [|notif r]; [done|]. cbn [is_empty].
  apply Forall_cons in Htypes as [Hnotif _].
  by rewrite group_notifications_raises.
Qed.

(** C3, as stated, fails at the 23-hour example: the test of the loop
    is made against 23 hours (the period less its buffer), so a user last
    served exactly 23 hours ago is not passed over; the run goes on to
    query that user's notifications. *)
Lemma digest_23_hours_counterexample :
  let user := sample_user 1 "ayla" (Some (hours_ago sample_env 23)) in
  utc_instant (hours_ago sample_env 23) = clock sample_env - timedelta_hours 23
  ∧ digest_not_yet_due sample_env user = inr false
  ∧ ¬ digest_skipped_as_stated sample_env user (digest_world 23)
  ∧ sql_log (world_of (digest_for sample_env user (digest_world 23)))
    = [SelectNotificationsForDigest 1].
Proof.
  repeat split. intros H. discriminate H.
Qed.

(** C3, amended. For a user whose [last_digest_sent_at] is set and
    timezone-aware, the run passes the user over exactly when
    now < last_digest_sent_at + 23 hours (the 24-hour period less the
    one-hour buffer): a user served less than 23 hours ago is skipped with
    nothing sent, no statement issued and no state changed, and a user
    served 23 hours ago or earlier is handed to [_send_digests_for_user]. *)
Theorem digest_skip_rule (env : Env) (user : User) (last : datetime)
  (offset : Z) (w : World) :
  u_last_digest_sent_at user = Some last →
  tzinfo last = Some offset →
  digest_not_yet_due env user
    = inr (clock env
           <? utc_instant last + timedelta_hours (DIGEST_PERIOD_HOURS - 1))
  ∧ (clock env < utc_instant last + timedelta_hours 23 →
       digest_for env user w = Ok tt w)
  ∧ (utc_instant last + timedelta_hours 23 ≤ clock env →
       digest_for env user w = _send_digests_for_user env user w).
Proof.
  intros Hlast Htz.
  assert (Hdue : digest_not_yet_due env user
    = inr (clock env
           <? utc_instant last + timedelta_hours (DIGEST_PERIOD_HOURS - 1))).
  { unfold digest_not_yet_due, datetime_lt, utc_instant. rewrite Hlast.
    simpl. rewrite Htz. simpl. do 2 f_equal; lia. }
  split; [done|]. unfold digest_for. rewrite Hdue.
  change (DIGEST_PERIOD_HOURS - 1) with 23.
  split; intros Hc; unfold_monad.
  - by rewrite (proj2 (Z.ltb_lt _ _) Hc).
  - by rewrite (proj2 (Z.ltb_ge _ _) Hc).
Qed.

Lemma digest_skip_rule_witness :
  let user := sample_user 1 "ayla" (Some (hours_ago sample_env 22)) in
  digest_not_yet_due sample_env user
    = inr (clock sample_env
           <? utc_instant (hours_ago sample_env 22)
              + timedelta_hours (DIGEST_PERIOD_HOURS - 1))
  ∧ (clock sample_env
       < utc_instant (hours_ago sample_env 22) + timedelta_hours 23 →
       digest_for sample_env user (digest_world 22) = Ok tt (digest_world 22))
  ∧ (utc_instant (hours_ago sample_env 22) + timedelta_hours 23
       ≤ clock sample_env →
       digest_for sample_env user (digest_world 22)
       = _send_digests_for_user sample_env user (digest_world 22)).
Proof.
  apply (digest_skip_rule sample_env
           (sample_user 1 "ayla" (Some (hours_ago sample_env 22)))
           (hours_ago sample_env 22) 0 (digest_world 22)).
  - reflexivity.
  - reflexivity.
Defined.

(** A user never served is not passed over. *)
Lemma digest_first_time env user w :
  u_last_digest_sent_at user = None →
  digest_for env user w = _send_digests_for_user env user w.
Proof.
  intros H. unfold digest_for, digest_not_yet_due. by rewrite H.
Qed.

(** A naive [last_digest_sent_at] makes the test of the loop raise. *)
Lemma digest_not_yet_due_naive env user last :
  u_last_digest_sent_at user = Some last → tzinfo last = None →
  ∃ msg, digest_not_yet_due env user = inl (TypeError msg).
Proof.
  intros H Htz. unfold digest_not_yet_due, datetime_lt. rewrite H.
  simpl. rewrite Htz. by eexists.
Qed.

(** A transport failure never leaves [send_email_notification]. *)
Lemma send_email_notification_swallows env mail w :
  fm_instance env = true → smtp_accepts env mail = false →
  send_email_notification env mail w = Ok tt w.
Proof.
  intros Hfm Hsmtp. unfold send_email_notification, try_except.
  by rewrite Hfm, Hsmtp.
Qed.


(** C5. A run over two eligible users, each with a pending digestible
    notification: grouping the first user's notifications raises outside
    the [try] block, the exception leaves the loop, and the second user is
    never looked at; nothing is sent and nothing is committed. *)
Theorem digest_run_aborts_on_first_failure :
  filter (λ u, eligible_for_digest u = true) (users (digest_store 25))
    = users (digest_store 25)
  ∧ map u_id (users (digest_store 25)) = [1; 2]
  ∧ (∃ w1, get_notifications_for_digest 2
             (Some (datetime_add (datetime_now_utc sample_env)
                      (- timedelta_hours DIGEST_PERIOD_HOURS)))
             EXCLUDED_FROM_DIGEST_TYPES DIGEST_NOTIFICATION_TYPES
             (digest_world 25)
           = Ok [sample_notification 3 2 "new_game_post"
                   (hours_ago sample_env 1)] w1)
  ∧ _scheduled_digest_sender_task sample_env (digest_world 25)
    = Raise (AttributeError "related_entity_id")
        (set_sql_log [SelectUsersForDigest; SelectNotificationsForDigest 1]
           (digest_world 25)).
Proof.
  split; [reflexivity|].
  split; [reflexivity|].
  split; [eexists; vm_compute; reflexivity|].
  vm_compute. reflexivity.
Qed.

(** The same holds of any run: the loop stops at the first user whose
    processing raises. *)
Lemma digest_loop_stops env user rest w e w' :
  digest_for env user w = Raise e w' →
  for_each (user :: rest) (digest_for env) w = Raise e w'.
Proof. apply for_each_raise. Qed.

(** ** Further observations *)

(** A run whose first user carries a naive [last_digest_sent_at] stops
    at the test of the loop: no user is queried. *)
Lemma digest_run_stops_on_naive_timestamp :
  ∃ msg,
    _scheduled_digest_sender_task sample_env naive_digest_world
    = Raise (TypeError msg)
        (set_sql_log [SelectUsersForDigest] naive_digest_world).
Proof. eexists. vm_compute. reflexivity. Qed.

(** A push that fails is raised to the request: the direct message
    and its notification are committed, the sender gets the exception,
    and the receiver is still registered. *)
Lemma send_direct_message_push_failure :
  ∃ w',
    send_direct_message (with_dead_socket 1%nat sample_env)
      (sample_user 3 "bob" None) 7 "hello" dm_world_online
    = Raise WebSocketError w'
    ∧ map dm_id (direct_messages (committed w')) = [1]
    ∧ map n_user_id (notifications (committed w')) = [7]
    ∧ dm_connections w' !! 7 = Some 1%nat
    ∧ wire w' = [].
Proof.
  eexists. split; [vm_compute; reflexivity|]. repeat split.
Qed.

(* ===================================================================== *)
(** * Part III. Further properties of the code                             *)
(* ===================================================================== *)

(** ** Dice rolls *)

Lemma sample_env_randint_in_range : randint_in_range sample_env.
Proof.
  intros k a b Hab. simpl.
  pose proof (Z.mod_pos_bound (Z.of_nat k) (b - a + 1)). lia.
Qed.

(** X1. Whatever the parser accepts has, once stripped and lower-cased,
    the shape [<count>d<sides>] with an optional signed modifier; the
    count is between 1 and 100 and the sides at least 1; there is one roll
    per die, each between 1 and the number of sides; and the total is the
    sum of the rolls. *)
Theorem parse_dice_notation_sound (env : Env) (notation : string)
  (w w' : World) (r : DiceRoll) :
  randint_in_range env →
  parse_dice_notation_for_rp env notation w = Ok (Some r) w' →
  ∃ count sides modifier,
    dice_shape (lower (strip (list_ascii_of_string notation)))
      count sides modifier
    ∧ num_dice r = int_of_digits count
    ∧ num_sides r = int_of_digits sides
    ∧ 1 ≤ num_dice r ≤ 100
    ∧ 1 ≤ num_sides r
    ∧ length (rolls r) = Z.to_nat (num_dice r)
    ∧ Forall (fun x => 1 ≤ x ≤ num_sides r) (rolls r)
    ∧ total r = sum (rolls r).
Proof. apply parse_dice_notation_accepts. Qed.

Lemma parse_dice_notation_sound_witness :
  ∃ count sides modifier,
    dice_shape (lower (strip (list_ascii_of_string " 2D8-1 ")))
      count sides modifier
    ∧ 2 = int_of_digits count
    ∧ 8 = int_of_digits sides
    ∧ 1 ≤ 2 ≤ 100
    ∧ 1 ≤ 8
    ∧ length [1; 2] = Z.to_nat 2
    ∧ Forall (fun x => 1 ≤ x ≤ 8) [1; 2]
    ∧ 3 = sum [1; 2].
Proof.
  apply (parse_dice_notation_sound sample_env " 2D8-1 "
           (world_with empty_store)
           (set_rng_calls 2 (world_with empty_store))
           {| num_dice := 2; num_sides := 8; rolls := [1; 2]; total := 3 |}).
  - exact sample_env_randint_in_range.
  - vm_compute. reflexivity.
Defined.

Lemma INT_STR_BOUND_eq : INT_STR_BOUND = 10 ^ INT_MAX_STR_DIGITS.
Proof. vm_compute. reflexivity. Qed.

Lemma digit_value_range c : isdigit c = true → 0 ≤ digit_value c ≤ 9.
Proof.
  unfold isdigit, digit_value. cbv zeta.
  intros [H1%Nat.leb_le H2%Nat.leb_le]%andb_true_iff. lia.
Qed.

(** A string of [n] digits denotes a number below [10 ** n]. *)
Lemma int_of_digits_bound ds :
  Forall (fun c => isdigit c = true) ds →
  0 ≤ int_of_digits ds < 10 ^ Z.of_nat (length ds).
Proof.
  unfold int_of_digits.
  assert (H : ∀ ds acc, Forall (fun c => isdigit c = true) ds → 0 ≤ acc →
    0 ≤ fold_left (fun acc c => 10 * acc + digit_value c) ds acc
      < (acc + 1) * 10 ^ Z.of_nat (length ds)).
  { clear ds. induction ds as [|c r IH]; intros acc Hds Hacc.
    - simpl. lia.
    - apply Forall_cons in Hds as [Hc Hr].
      apply digit_value_range in Hc.
      cbn [fold_left length]. rewrite Nat2Z.inj_succ, Z.pow_succ_r by lia.
      specialize (IH (10 * acc + digit_value c) Hr ltac:(lia)).
      assert (0 < 10 ^ Z.of_nat (length r)) by (apply Z.pow_pos_nonneg; lia).
      nia. }
  intros Hds. specialize (H ds 0 Hds ltac:(lia)). lia.
Qed.

(** X2. Conversely, a notation that, stripped and lower-cased, has the
    shape of the mini-grammar, with a count and sides of at most 4300
    digits each, is accepted when its count is between 1 and 100 and its
    sides at least 1, one die being drawn per count, and is rejected with
    nothing drawn otherwise; the modifier plays no part.  A count or sides
    of more than 4300 digits, leading zeros included, is not converted:
    the parser raises [ValueError] and nothing is drawn. *)
Theorem parse_dice_notation_complete (env : Env) (notation : string)
  (count sides : list ascii) (modifier : option (ascii * list ascii))
  (w : World) :
  dice_shape (lower (strip (list_ascii_of_string notation)))
    count sides modifier →
  (Z.of_nat (length count) ≤ INT_MAX_STR_DIGITS
   ∧ Z.of_nat (length sides) ≤ INT_MAX_STR_DIGITS →
     (1 ≤ int_of_digits count ≤ 100 ∧ 1 ≤ int_of_digits sides →
        ∃ r, parse_dice_notation_for_rp env notation w
             = Ok (Some r)
                  (set_rng_calls
                     (rng_calls w + Z.to_nat (int_of_digits count)) w)
             ∧ num_dice r = int_of_digits count
             ∧ num_sides r = int_of_digits sides)
     ∧ (¬ (1 ≤ int_of_digits count ≤ 100 ∧ 1 ≤ int_of_digits sides) →
        parse_dice_notation_for_rp env notation w = Ok None w))
  ∧ (INT_MAX_STR_DIGITS < Z.of_nat (length count)
     ∨ INT_MAX_STR_DIGITS < Z.of_nat (length sides) →
     ∃ msg, parse_dice_notation_for_rp env notation w
            = Raise (ValueError msg) w).
Proof.
  intros Hshape. apply re_match_dice_complete in Hshape.
  rewrite parse_dice_notation_unfold, Hshape. cbn [group1 group2].
  split.
  - intros [Hc Hs].
    destruct (py_int_cases count) as [[_ ->]|[? _]]; [|lia].
    destruct (py_int_cases sides) as [[_ ->]|[? _]]; [|lia].
    split.
    + intros [[H1 H2] H3].
      replace ((int_of_digits count <=? 0) || (int_of_digits sides <=? 0)
               || (100 <? int_of_digits count)) with false
        by (symmetry; rewrite !orb_false_iff, !Z.leb_gt, Z.ltb_ge; lia).
      cbv zeta. by eexists.
    + intros Hout.
      replace ((int_of_digits count <=? 0) || (int_of_digits sides <=? 0)
               || (100 <? int_of_digits count)) with true; [done|].
      symmetry. rewrite !orb_true_iff, !Z.leb_le, Z.ltb_lt. lia.
  - intros Hover.
    destruct (py_int_cases count) as [[Hc ->]|[_ [msg ->]]]; [|by eexists].
    destruct (py_int_cases sides) as [[Hs ->]|[_ [msg ->]]]; [|by eexists].
    lia.
Qed.

Lemma parse_dice_notation_complete_witness :
  (Z.of_nat (length ["1"; "2"]%char) ≤ INT_MAX_STR_DIGITS
   ∧ Z.of_nat (length ["2"; "0"]%char) ≤ INT_MAX_STR_DIGITS →
     (1 ≤ int_of_digits ["1"; "2"]%char ≤ 100
      ∧ 1 ≤ int_of_digits ["2"; "0"]%char →
        ∃ r, parse_dice_notation_for_rp sample_env " 12D20-3 "
               (world_with empty_store)
             = Ok (Some r)
                  (set_rng_calls
                     (rng_calls (world_with empty_store)
                      + Z.to_nat (int_of_digits ["1"; "2"]%char))
                     (world_with empty_store))
             ∧ num_dice r = int_of_digits ["1"; "2"]%char
             ∧ num_sides r = int_of_digits ["2"; "0"]%char)
     ∧ (¬ (1 ≤ int_of_digits ["1"; "2"]%char ≤ 100
           ∧ 1 ≤ int_of_digits ["2"; "0"]%char) →
        parse_dice_notation_for_rp sample_env " 12D20-3 "
          (world_with empty_store) = Ok None (world_with empty_store)))
  ∧ (INT_MAX_STR_DIGITS < Z.of_nat (length ["1"; "2"]%char)
     ∨ INT_MAX_STR_DIGITS < Z.of_nat (length ["2"; "0"]%char) →
     ∃ msg, parse_dice_notation_for_rp sample_env " 12D20-3 "
              (world_with empty_store)
            = Raise (ValueError msg) (world_with empty_store)).
Proof.
  apply (parse_dice_notation_complete sample_env " 12D20-3 "
           ["1"; "2"]%char ["2"; "0"]%char
           (Some ("-"%char, ["3"%char])) (world_with empty_store)).
  repeat split; try discriminate; try (by right);
    repeat constructor.
Defined.

(** ** Roleplay chat *)

Lemma next_id_fresh ids x : x ∈ ids → x < next_id ids.
Proof.
  unfold next_id. induction ids as [|y r IH]; [by intros ?%elem_of_nil|].
  intros [->|Hx]%elem_of_cons; simpl; [lia|]. specialize (IH Hx). lia.
Qed.

Lemma find_app_new {A} (f : A → bool) l x :
  (∀ y, y ∈ l → f y = false) → f x = true → find f (l ++ [x]) = Some x.
Proof.
  intros Hl Hx. induction l as [|y r IH]; simpl.
  - by rewrite Hx.
  - rewrite (Hl y) by left. apply IH. intros z Hz. apply Hl. by right.
Qed.

Lemma find_new_game_message (m : GameMessage) l :
  gm_id m = next_id (map gm_id l) →
  find (λ x, gm_id x =? gm_id m) (l ++ [m]) = Some m.
Proof.
  intros Hid. apply find_app_new; [|apply Z.eqb_refl].
  intros y Hy. apply Z.eqb_neq.
  assert (gm_id y < next_id (map gm_id l)); [|lia].
  apply next_id_fresh, list_elem_of_In, in_map, list_elem_of_In, Hy.
Qed.

Lemma create_game_message_rp_style_spec env w game_id sender_id content
  senderName senderType avatar character_id owner_user_id :
  let m := rp_row env w game_id sender_id content senderName senderType
             avatar character_id owner_user_id in
  create_game_message_rp_style env game_id sender_id content senderName
    senderType avatar character_id owner_user_id w
  = Ok (Some m) (with_game_message m w).
Proof.
  intros m. unfold create_game_message_rp_style. unfold_monad.
  cbn [session game_messages set_session set_sql_log set_committed
       set_game_messages].
  fold (rp_row env w game_id sender_id content senderName senderType
          avatar character_id owner_user_id). fold m.
  rewrite (find_new_game_message m) by done.
  f_equal. unfold with_game_message. destruct w; simpl.
  by rewrite <- app_assoc.
Qed.

(** What a broadcast does to a world whose registry has no empty
    channel. *)
Lemma broadcast_effect env channel_id message_data w :
  no_empty_channel (rp_connections w) →
  let l := default [] (rp_connections w !! channel_id) in
  RpConnectionManager.broadcast_to_channel env channel_id message_data w
  = Ok tt (set_wire (wire w ++ map (framed message_data)
                                   (filter (alive env) l))
             (set_rp_connections
                (match rp_connections w !! channel_id with
                 | Some _ => settled channel_id (filter (alive env) l)
                               (rp_connections w)
                 | None => rp_connections w
                 end) w)).
Proof.
  intros Hinv l. subst l.
  destruct (rp_connections w !! channel_id) as [l|] eqn:E; simpl.
  - apply broadcast_to_channel_spec; [done|]. by apply (Hinv channel_id).
  - rewrite broadcast_to_channel_unknown by done.
    rewrite ?filter_nil. simpl. rewrite app_nil_r. by destruct w.
Qed.

Lemma settled_no_empty_channel channel_id l ac :
  no_empty_channel ac → no_empty_channel (settled channel_id l ac).
Proof.
  intros Hinv c l'. unfold settled.
  destruct (is_empty l) eqn:El.
  - destruct (decide (channel_id = c)) as [<-|Hne].
    + by rewrite lookup_delete_eq.
    + rewrite lookup_delete_ne by done. apply Hinv.
  - destruct (decide (channel_id = c)) as [<-|Hne].
    + rewrite lookup_insert_eq. intros [= <-]. by apply is_empty_false.
    + rewrite lookup_insert_ne by done. apply Hinv.
Qed.

(** X3. Whatever fails, a broadcast returns normally: the connections of
    the channel that take the write get the frame, in registration order;
    those that do not are unregistered, the channel's entry going when none
    is left; no other channel changes, and no channel is left with an empty
    list. *)
Theorem broadcast_to_channel_keeps_live_connections
  (env : Env) (channel_id : string) (message_data : GameMessage) (w : World) :
  no_empty_channel (rp_connections w) →
  let l := default [] (rp_connections w !! channel_id) in
  ∃ w',
    RpConnectionManager.broadcast_to_channel env channel_id message_data w
      = Ok tt w'
    ∧ wire w' = wire w ++ map (λ ws, (ws, TextFrame message_data))
                              (filter (λ ws, socket_alive env ws = true) l)
    ∧ rp_connections w' !! channel_id
      = (if is_empty (filter (λ ws, socket_alive env ws = true) l) then None
         else Some (filter (λ ws, socket_alive env ws = true) l))
    ∧ (∀ c, c ≠ channel_id →
            rp_connections w' !! c = rp_connections w !! c)
    ∧ no_empty_channel (rp_connections w')
    ∧ session w' = session w ∧ committed w' = committed w
    ∧ dm_connections w' = dm_connections w.
Proof.
  intros Hinv l. eexists. split; [by apply broadcast_effect|].
  subst l. cbn [wire rp_connections session committed dm_connections
                set_wire set_rp_connections].
  destruct (rp_connections w !! channel_id) as [l|] eqn:E; simpl.
  - repeat split; try done.
    + unfold settled. destruct (is_empty _).
      * apply lookup_delete_eq.
      * apply lookup_insert_eq.
    + intros c Hc. unfold settled. destruct (is_empty _).
      * by apply lookup_delete_ne.
      * by apply lookup_insert_ne.
    + by apply settled_no_empty_channel.
  - rewrite ?filter_nil, ?app_nil_r. repeat split; try done.
Qed.

Lemma broadcast_to_channel_keeps_live_connections_witness :
  let l := default [] (rp_connections tavern_world !! "tavern") in
  ∃ w',
    RpConnectionManager.broadcast_to_channel (with_dead_socket 1%nat sample_env)
      "tavern" sample_message tavern_world = Ok tt w'
    ∧ wire w' = wire tavern_world
                ++ map (λ ws, (ws, TextFrame sample_message))
                     (filter (λ ws, socket_alive
                                      (with_dead_socket 1%nat sample_env) ws
                                    = true) l)
    ∧ rp_connections w' !! "tavern"
      = (if is_empty (filter (λ ws, socket_alive
                                      (with_dead_socket 1%nat sample_env) ws
                                    = true) l) then None
         else Some (filter (λ ws, socket_alive
                                    (with_dead_socket 1%nat sample_env) ws
                                  = true) l))
    ∧ (∀ c, c ≠ "tavern" →
            rp_connections w' !! c = rp_connections tavern_world !! c)
    ∧ no_empty_channel (rp_connections w')
    ∧ session w' = session tavern_world
    ∧ committed w' = committed tavern_world
    ∧ dm_connections w' = dm_connections tavern_world.
Proof.
  apply (broadcast_to_channel_keeps_live_connections
           (with_dead_socket 1%nat sample_env) "tavern" sample_message
           tavern_world).
  intros c l. unfold tavern_world. simpl.
  destruct (decide (c = "tavern")) as [->|Hne].
  - rewrite lookup_singleton_eq. by intros [= <-].
  - by rewrite lookup_singleton_ne.
Defined.

Lemma broadcast_total env channel_id message_data w :
  ∃ w', RpConnectionManager.broadcast_to_channel env channel_id message_data w
        = Ok tt w'.
Proof.
  destruct (rp_connections w !! channel_id) as [[|x l]|] eqn:E.
  - exists w. unfold RpConnectionManager.broadcast_to_channel.
    unfold_monad. by rewrite E.
  - eexists. by apply (broadcast_to_channel_spec env channel_id message_data
                         w (x :: l)).
  - exists w. by apply broadcast_to_channel_unknown.
Qed.

Lemma parse_dice_notation_world env notation w r w1 :
  parse_dice_notation_for_rp env notation w = Ok r w1 →
  ∃ k, w1 = set_rng_calls k w.
Proof.
  rewrite parse_dice_notation_unfold.
  destruct (re_match_dice _) as [m|].
  - destruct (py_int (group1 m)); [done|].
    destruct (py_int (group2 m)); [done|].
    destruct (_ || _).
    + intros [= _ <-]. exists (rng_calls w). by destruct w.
    + cbv zeta. intros [= _ <-]. by eexists.
  - intros [= _ <-]. exists (rng_calls w). by destruct w.
Qed.

(** An accepted roll stays within the digit limit in its sides, its
    count and every single roll; only the total can pass it. *)
Lemma accepted_roll_converts env notation w parsed w1 :
  randint_in_range env →
  parse_dice_notation_for_rp env notation w = Ok (Some parsed) w1 →
  Z.abs (num_sides parsed) < INT_STR_BOUND
  ∧ Z.abs (num_dice parsed) < INT_STR_BOUND
  ∧ Forall (λ x, Z.abs x < INT_STR_BOUND) (rolls parsed)
  ∧ 0 ≤ total parsed ≤ 100 * num_sides parsed.
Proof.
  intros Hr Hp.
  destruct (parse_dice_notation_accepts _ _ _ _ _ Hr Hp)
    as (count & sides & modifier & Hshape & Hd & Hs & Hdr & Hsr & Hlen
        & Hrolls & Htot).
  assert (Hbound : num_sides parsed < INT_STR_BOUND).
  { revert Hp. rewrite parse_dice_notation_unfold.
    apply re_match_dice_complete in Hshape as Hm. rewrite Hm.
    cbn [group1 group2].
    destruct (py_int_cases count) as [[_ ->]|[_ [msg ->]]]; [|done].
    destruct (py_int_cases sides) as [[Hl ->]|[_ [msg ->]]]; [|done].
    intros _. destruct Hshape as (_ & _ & _ & Hds & _).
    pose proof (int_of_digits_bound sides Hds) as [_ Hlt].
    rewrite INT_STR_BOUND_eq, Hs.
    eapply Z.lt_le_trans; [exact Hlt|].
    apply Z.pow_le_mono_r; lia. }
  assert (H100 : 100 < INT_STR_BOUND) by (by vm_compute).
  split; [lia|]. split; [lia|]. split.
  - eapply Forall_impl; [exact Hrolls|]. simpl. lia.
  - rewrite Htot.
    assert (Hsum : ∀ rs : list Z, Forall (λ x, 1 ≤ x ≤ num_sides parsed) rs →
              0 ≤ sum rs ≤ Z.of_nat (length rs) * num_sides parsed).
    { induction 1 as [|x r Hx _ IH]; cbn [sum length]; [lia|].
      rewrite Nat2Z.inj_succ. nia. }
    specialize (Hsum _ Hrolls). rewrite Hlen in Hsum.
    rewrite Z2Nat.id in Hsum by lia. nia.
Qed.

Lemma py_str_ok z : Z.abs z < INT_STR_BOUND → py_str z = inr (pretty z).
Proof. intros H. destruct (py_str_cases z) as [[_ ->]|[? _]]; [done|lia]. Qed.

Lemma join_ints_ok xs w :
  Forall (λ x, Z.abs x < INT_STR_BOUND) xs →
  join_ints xs w = Ok (join_text xs) w.
Proof.
  induction 1 as [|x r Hx Hr IH]; [done|].
  cbn [join_ints join_text]. unfold_monad. rewrite (py_str_ok x Hx).
  cbn [lift_exn]. destruct r as [|y r']; [done|]. by rewrite IH.
Qed.

(** The text of a roll is rendered unless its total has more than 4300
    digits; then the f-string raises and nothing else has happened. *)
Lemma roll_content_outcome rollerName parsed w :
  Z.abs (num_sides parsed) < INT_STR_BOUND →
  Z.abs (num_dice parsed) < INT_STR_BOUND →
  Forall (λ x, Z.abs x < INT_STR_BOUND) (rolls parsed) →
  (Z.abs (total parsed) < INT_STR_BOUND
   ∧ roll_content rollerName parsed w = Ok (roll_text rollerName parsed) w)
  ∨ (INT_STR_BOUND ≤ Z.abs (total parsed)
     ∧ ∃ msg, roll_content rollerName parsed w = Raise (ValueError msg) w).
Proof.
  intros Hs Hd Hr. unfold roll_content, roll_text. unfold_monad.
  rewrite (py_str_ok _ Hs), (py_str_ok _ Hd), (join_ints_ok _ w Hr).
  destruct (py_str_cases (total parsed)) as [[Ht ->]|[Ht [msg ->]]].
  - left. split; [done|]. reflexivity.
  - right. split; [done|]. by exists msg.
Qed.

(** Rendering the text raises only [ValueError] and changes nothing. *)
Lemma join_ints_raises xs w e w' :
  join_ints xs w = Raise e w' → w' = w ∧ ∃ msg, e = ValueError msg.
Proof.
  revert e w'. induction xs as [|x r IH]; intros e w'; [done|].
  cbn [join_ints]. unfold_monad.
  destruct (py_str_cases x) as [[_ ->]|[_ [msg ->]]];
    [|intros [= <- <-]; eauto].
  destruct r as [|y r']; [done|].
  destruct (join_ints (y :: r') w) as [? ?|e3 w3] eqn:E3; [done|].
  intros [= <- <-]. by apply IH.
Qed.

Lemma join_ints_world xs w joined w' :
  join_ints xs w = Ok joined w' → w' = w.
Proof.
  revert joined w'. induction xs as [|x r IH]; intros joined w';
    [by intros [= _ <-]|].
  cbn [join_ints]. unfold_monad.
  destruct (py_str x); [done|].
  destruct r as [|y r']; [by intros [= _ <-]|].
  destruct (join_ints (y :: r') w) as [j w3|? ?] eqn:E3; [|done].
  intros [= _ <-]. by eapply IH.
Qed.

Lemma roll_content_raises rollerName parsed w e w' :
  roll_content rollerName parsed w = Raise e w' →
  w' = w ∧ ∃ msg, e = ValueError msg.
Proof.
  unfold roll_content. unfold_monad.
  destruct (py_str_cases (num_sides parsed)) as [[_ ->]|[_ [msg ->]]];
    [|intros [= <- <-]; eauto].
  destruct (py_str_cases (num_dice parsed)) as [[_ ->]|[_ [msg ->]]];
    [|intros [= <- <-]; eauto].
  destruct (join_ints (rolls parsed) w) as [joined w3|e3 w3] eqn:E3.
  - apply join_ints_world in E3 as ->.
    destruct (py_str_cases (total parsed)) as [[_ ->]|[_ [msg ->]]];
      [done|intros [= <- <-]; eauto].
  - intros [= <- <-]. by eapply join_ints_raises.
Qed.

Lemma length_lstrip s : (length (lstrip s) ≤ length s)%nat.
Proof.
  induction s as [|c r IH]; simpl; [done|].
  destruct (isspace c); simpl; lia.
Qed.

Lemma length_strip s : (length (strip s) ≤ length s)%nat.
Proof.
  unfold strip, rstrip. rewrite length_rev.
  etrans; [apply length_lstrip|]. rewrite length_rev. apply length_lstrip.
Qed.

Lemma length_list_ascii_of_string s :
  length (list_ascii_of_string s) = String.length s.
Proof. induction s as [|c r IH]; simpl; [done|]. by rewrite IH. Qed.

(** The digits of count and sides are part of the notation: together
    with the [d] between them they are no longer than it. *)
Lemma dice_shape_length notation count sides modifier :
  dice_shape (lower (strip (list_ascii_of_string notation)))
    count sides modifier →
  Z.of_nat (length count) + Z.of_nat (length sides) + 1 ≤ str_len notation
  ∧ 1 ≤ Z.of_nat (length count).
Proof.
  intros (Hc & _ & _ & _ & Hm). unfold str_len.
  pose proof (length_strip (list_ascii_of_string notation)) as Hl.
  rewrite length_list_ascii_of_string in Hl.
  assert (Hs : (length count + length sides + 1
                ≤ length (lower (strip (list_ascii_of_string notation))))%nat).
  { destruct modifier as [[sign ds]|].
    - destruct Hm as (_ & _ & _ & ->). rewrite length_app. simpl.
      rewrite length_app. simpl. lia.
    - rewrite Hm, length_app. simpl. lia. }
  unfold lower in Hs. rewrite length_map in Hs.
  split; [lia|]. destruct count; [done|]. simpl. lia.
Qed.

(** A notation of at most 4300 characters never meets the digit limit:
    it is parsed without [ValueError], and the text of an accepted roll is
    rendered. *)
Lemma short_notation_converts env notation rollerName w :
  randint_in_range env →
  str_len notation ≤ INT_MAX_STR_DIGITS →
  match parse_dice_notation_for_rp env notation w with
  | Ok (Some parsed) w1 =>
      roll_content rollerName parsed w1
      = Ok (roll_text rollerName parsed) w1
  | Ok None _ => True
  | Raise _ _ => False
  end.
Proof.
  intros Hr Hlen.
  destruct (parse_dice_notation_for_rp env notation w)
    as [[parsed|] w1|e w1] eqn:Hp; [|done|].
  - destruct (accepted_roll_converts _ _ _ _ _ Hr Hp) as (Hs & Hd & Hrs & Ht).
    destruct (parse_dice_notation_accepts _ _ _ _ _ Hr Hp)
      as (count & sides & modifier & Hshape & _ & Hns & _ & Hsr & _).
    destruct (roll_content_outcome rollerName parsed w1 Hs Hd Hrs)
      as [[_ H]|[Hover _]]; [done|]. exfalso.
    destruct (dice_shape_length _ _ _ _ Hshape) as [Hl Hc].
    destruct Hshape as (_ & _ & _ & Hds & _).
    pose proof (int_of_digits_bound sides Hds) as [_ Hlt].
    rewrite INT_STR_BOUND_eq in Hover. rewrite <- Hns in Hlt.
    assert (Hpow : 100 * 10 ^ Z.of_nat (length sides)
                   ≤ 10 ^ INT_MAX_STR_DIGITS).
    { change 100 with (10 ^ 2). rewrite <- Z.pow_add_r by lia.
      apply Z.pow_le_mono_r; lia. }
    lia.
  - revert Hp. rewrite parse_dice_notation_unfold.
    destruct (re_match_dice _) as [m|] eqn:Em; [|done].
    apply re_match_dice_shape in Em.
    destruct (dice_shape_length _ _ _ _ Em) as [Hl Hc].
    destruct (py_int_cases (group1 m)) as [[_ ->]|[? _]]; [|lia].
    destruct (py_int_cases (group2 m)) as [[_ ->]|[? _]]; [|lia].
    by destruct (_ || _).
Qed.

(** X4. The roll endpoint fails only up front.  Whenever it raises, the
    error is HTTP 403 (channel not permitted) or HTTP 400 (invalid dice
    notation), the world being the one the request found, or it is the
    [ValueError] of a number beyond 4300 digits, in the count or sides of
    the notation or in the total of the roll, and then at most dice have
    been drawn; in every case no row has been written and no frame sent.
    For a notation of at most 4300 characters the error is one of the two
    HTTP errors. *)
Theorem rp_dice_roll_fails_cleanly (env : Env)
  (channel_id notation rollerName : string) (w w' : World) (e : exn) :
  rp_dice_roll env channel_id notation rollerName w = Raise e w' →
  ((e = HTTPException 403 "Channel not permitted" ∧ w' = w)
   ∨ (e = HTTPException 400 "Invalid dice notation" ∧ w' = w)
   ∨ ((∃ msg, e = ValueError msg) ∧ ∃ k, w' = set_rng_calls k w))
  ∧ session w' = session w ∧ committed w' = committed w
  ∧ wire w' = wire w ∧ rp_connections w' = rp_connections w
  ∧ (randint_in_range env → str_len notation ≤ INT_MAX_STR_DIGITS →
     w' = w
     ∧ (e = HTTPException 403 "Channel not permitted"
        ∨ e = HTTPException 400 "Invalid dice notation")).
Proof.
  intros Hroll.
  assert (Hcases :
    (e = HTTPException 403 "Channel not permitted" ∧ w' = w)
    ∨ (e = HTTPException 400 "Invalid dice notation" ∧ w' = w)
    ∨ ((∃ msg, e = ValueError msg) ∧ (∃ k, w' = set_rng_calls k w)
       ∧ (randint_in_range env → str_len notation ≤ INT_MAX_STR_DIGITS →
          False))).
  { revert Hroll. unfold rp_dice_roll. destruct (negb _).
    { intros [= <- <-]. auto. }
    destruct (parse_dice_notation_for_rp env notation w)
      as [[parsed|] w1|e1 w1] eqn:Hp.
    - rewrite (bind_Ok _ _ _ _ _ Hp).
      destruct (parse_dice_notation_world _ _ _ _ _ Hp) as [k ->].
      destruct (roll_content rollerName parsed (set_rng_calls k w))
        as [content w2|e2 w2] eqn:Hc.
      + rewrite (bind_Ok _ _ _ _ _ Hc).
        unfold mbind, M_bind, bind.
        rewrite (create_game_message_rp_style_spec env w2). cbv zeta.
        destruct (broadcast_total env channel_id
                    (rp_row env w2 PLACEHOLDER_GAME_ID_FOR_DB None
                       content "System" "system" None None None)
                    (with_game_message
                       (rp_row env w2 PLACEHOLDER_GAME_ID_FOR_DB None
                          content "System" "system" None None None) w2))
          as [w3 Hb].
        by rewrite Hb.
      + rewrite (bind_Raise _ _ _ _ _ Hc). intros [= <- <-].
        right. right.
        assert (Hout : (∃ msg, e2 = ValueError msg)
                       ∧ w2 = set_rng_calls k w
                       ∧ (randint_in_range env →
                          str_len notation ≤ INT_MAX_STR_DIGITS → False)).
        { destruct (roll_content_raises _ _ _ _ _ Hc) as [-> Hmsg].
          split; [done|]. split; [done|]. intros Hr Hlen.
          pose proof (short_notation_converts env notation rollerName w
                        Hr Hlen) as Hshort.
          rewrite Hp in Hshort. congruence. }
        destruct Hout as (Hmsg & -> & Hshort). eauto.
    - rewrite (bind_Ok _ _ _ _ _ Hp).
      apply parse_dice_notation_rejects_pure in Hp as ->.
      intros [= <- <-]. auto.
    - rewrite (bind_Raise _ _ _ _ _ Hp). intros [= <- <-].
      destruct (parse_dice_notation_raises _ _ _ _ _ Hp) as [-> Hmsg].
      right. right. split; [done|]. split.
      + exists (rng_calls w). by destruct w.
      + intros Hr Hlen.
        pose proof (short_notation_converts env notation rollerName w
                      Hr Hlen) as Hshort.
        by rewrite Hp in Hshort. }
  destruct Hcases as [[-> ->]|[[-> ->]|(Hmsg & [k ->] & Hshort)]].
  - repeat split; auto.
  - repeat split; auto.
  - split; [eauto|]. destruct w.
    do 4 (split; [done|]). intros Hr Hlen. by destruct (Hshort Hr Hlen).
Qed.

Lemma rp_dice_roll_fails_cleanly_witness :
  ((HTTPException 400 "Invalid dice notation"
    = HTTPException 403 "Channel not permitted"
    ∧ world_with empty_store = world_with empty_store)
   ∨ (HTTPException 400 "Invalid dice notation"
      = HTTPException 400 "Invalid dice notation"
      ∧ world_with empty_store = world_with empty_store)
   ∨ ((∃ msg, HTTPException 400 "Invalid dice notation" = ValueError msg)
      ∧ ∃ k, world_with empty_store
             = set_rng_calls k (world_with empty_store)))
  ∧ session (world_with empty_store) = session (world_with empty_store)
  ∧ committed (world_with empty_store) = committed (world_with empty_store)
  ∧ wire (world_with empty_store) = wire (world_with empty_store)
  ∧ rp_connections (world_with empty_store)
    = rp_connections (world_with empty_store)
  ∧ (randint_in_range sample_env → str_len "101d6" ≤ INT_MAX_STR_DIGITS →
     world_with empty_store = world_with empty_store
     ∧ (HTTPException 400 "Invalid dice notation"
        = HTTPException 403 "Channel not permitted"
        ∨ HTTPException 400 "Invalid dice notation"
          = HTTPException 400 "Invalid dice notation")).
Proof.
  apply (rp_dice_roll_fails_cleanly sample_env TEST_CHANNEL_ID_FOR_GDM_RP
           "101d6" "Bob" (world_with empty_store) (world_with empty_store)).
  reflexivity.
Defined.

(** X5. On the permitted channel an accepted notation whose total has at
    most 4300 digits is posted as one system message: a new row of game 0
    with no sender, display name "System", role "system", the roll
    written out as its content and an id above every earlier one; the row
    is committed, returned, and sent to every connection of the channel
    that takes the write.  A total of more than 4300 digits cannot be
    written out: the dice have been drawn, but the endpoint raises
    [ValueError] and stores and sends nothing. *)
Theorem rp_dice_roll_posts_system_message (env : Env)
  (notation rollerName : string) (w w1 : World) (parsed : DiceRoll) :
  no_empty_channel (rp_connections w) →
  randint_in_range env →
  parse_dice_notation_for_rp env notation w = Ok (Some parsed) w1 →
  let m := roll_row env w rollerName parsed in
  let l := default [] (rp_connections w !! TEST_CHANNEL_ID_FOR_GDM_RP) in
  (total parsed < INT_STR_BOUND →
   ∃ w',
     rp_dice_roll env TEST_CHANNEL_ID_FOR_GDM_RP notation rollerName w
       = Ok m w'
     ∧ game_messages (committed w') = game_messages (session w) ++ [m]
     ∧ game_messages (session w') = game_messages (session w) ++ [m]
     ∧ (∀ x, x ∈ game_messages (session w) → gm_id x < gm_id m)
     ∧ gm_content m = roll_text rollerName parsed
     ∧ gm_sender_id m = None ∧ gm_sender_role m = Some "system"
     ∧ wire w' = wire w ++ map (λ ws, (ws, TextFrame m))
                               (filter (λ ws, socket_alive env ws = true) l))
  ∧ (INT_STR_BOUND ≤ total parsed →
     ∃ msg,
       rp_dice_roll env TEST_CHANNEL_ID_FOR_GDM_RP notation rollerName w
       = Raise (ValueError msg) w1).
Proof.
  intros Hinv Hr Hp m l.
  destruct (accepted_roll_converts _ _ _ _ _ Hr Hp) as (Hs & Hd & Hrs & Ht).
  destruct (parse_dice_notation_world _ _ _ _ _ Hp) as [k ->].
  unfold rp_dice_roll. change (negb _) with false. cbv iota.
  rewrite (bind_Ok _ _ _ _ _ Hp).
  destruct (roll_content_outcome rollerName parsed (set_rng_calls k w)
              Hs Hd Hrs) as [[Hlt Hc]|[Hge [msg Hc]]].
  - split; [intros _|lia].
    rewrite (bind_Ok _ _ _ _ _ Hc).
    unfold mbind, M_bind, bind.
    rewrite (create_game_message_rp_style_spec env (set_rng_calls k w)).
    cbv zeta.
    change (rp_row env (set_rng_calls k w) PLACEHOLDER_GAME_ID_FOR_DB None
              (roll_text rollerName parsed) "System" "system"
              None None None) with m.
    rewrite (broadcast_effect env TEST_CHANNEL_ID_FOR_GDM_RP m
               (with_game_message m (set_rng_calls k w))) by done.
    eexists. split; [reflexivity|].
    cbn [committed session wire set_wire set_rp_connections with_game_message
         set_committed set_session set_sql_log set_rng_calls game_messages
         set_game_messages rp_connections].
    repeat split; try done.
    intros x Hx. apply next_id_fresh, list_elem_of_In, in_map.
    by apply list_elem_of_In.
  - split; [lia|intros _].
    rewrite (bind_Raise _ _ _ _ _ Hc). by exists msg.
Qed.

Lemma rp_world_no_empty_channel : no_empty_channel (rp_connections rp_world).
Proof.
  intros c l. unfold rp_world. simpl.
  destruct (decide (c = TEST_CHANNEL_ID_FOR_GDM_RP)) as [->|Hne].
  - rewrite lookup_singleton_eq. by intros [= <-].
  - by rewrite lookup_singleton_ne.
Qed.

Lemma rp_dice_roll_posts_system_message_witness :
  let parsed := {| num_dice := 2; num_sides := 6; rolls := [1; 2];
                   total := 3 |} in
  let m := roll_row sample_env rp_world "Bob" parsed in
  let l := default [] (rp_connections rp_world
                       !! TEST_CHANNEL_ID_FOR_GDM_RP) in
  (total parsed < INT_STR_BOUND →
   ∃ w',
     rp_dice_roll sample_env TEST_CHANNEL_ID_FOR_GDM_RP "2d6" "Bob" rp_world
       = Ok m w'
     ∧ game_messages (committed w')
       = game_messages (session rp_world) ++ [m]
     ∧ game_messages (session w')
       = game_messages (session rp_world) ++ [m]
     ∧ (∀ x, x ∈ game_messages (session rp_world) → gm_id x < gm_id m)
     ∧ gm_content m = roll_text "Bob" parsed
     ∧ gm_sender_id m = None ∧ gm_sender_role m = Some "system"
     ∧ wire w' = wire rp_world
                 ++ map (λ ws, (ws, TextFrame m))
                      (filter (λ ws, socket_alive sample_env ws = true) l))
  ∧ (INT_STR_BOUND ≤ total parsed →
     ∃ msg,
       rp_dice_roll sample_env TEST_CHANNEL_ID_FOR_GDM_RP "2d6" "Bob"
         rp_world
       = Raise (ValueError msg) (set_rng_calls 2 rp_world)).
Proof.
  apply (rp_dice_roll_posts_system_message sample_env "2d6" "Bob"
           rp_world (set_rng_calls 2 rp_world)
           {| num_dice := 2; num_sides := 6; rolls := [1; 2]; total := 3 |}).
  - exact rp_world_no_empty_channel.
  - exact sample_env_randint_in_range.
  - vm_compute. reflexivity.
Defined.

(** ** Ordered, paged queries *)

Lemma insert_by_perm {A} (key : A → Z) x l : insert_by key x l ≡ₚ x :: l.
Proof.
  induction l as [|y r IH]; simpl; [done|].
  destruct (key x <? key y); [done|]. rewrite IH. apply perm_swap.
Qed.

Lemma order_by_perm {A} (key : A → Z) l : order_by key l ≡ₚ l.
Proof.
  induction l as [|x r IH]; simpl; [done|].
  rewrite insert_by_perm. by rewrite IH.
Qed.

Lemma elem_of_order_by {A} (key : A → Z) l x : x ∈ order_by key l ↔ x ∈ l.
Proof. by rewrite order_by_perm. Qed.

Lemma insert_by_sorted {A} (key : A → Z) x l :
  StronglySorted (λ a b, key a ≤ key b) l →
  StronglySorted (λ a b, key a ≤ key b) (insert_by key x l).
Proof.
  induction 1 as [|y r Hr IH Hy]; simpl.
  - repeat constructor.
  - destruct (Z.ltb_spec (key x) (key y)).
    + constructor; [by constructor|].
      constructor; [lia|]. eapply Forall_impl; [exact Hy|]. simpl. lia.
    + constructor; [done|].
      rewrite insert_by_perm. by constructor.
Qed.

Lemma order_by_sorted {A} (key : A → Z) l :
  StronglySorted (λ a b, key a ≤ key b) (order_by key l).
Proof.
  induction l; simpl; [constructor|]. by apply insert_by_sorted.
Qed.

Lemma order_by_desc_sorted {A} (key : A → Z) l :
  StronglySorted (λ a b, key b ≤ key a) (order_by_desc key l).
Proof.
  unfold order_by_desc.
  pose proof (order_by_sorted (λ x, - key x) l) as H.
  induction H as [|x r Hr IH Hx]; constructor; [done|].
  eapply Forall_impl; [exact Hx|]. simpl. lia.
Qed.

Lemma elem_of_offset_limit {A} skip limit (l : list A) x :
  x ∈ offset_limit skip limit l → x ∈ l.
Proof.
  unfold offset_limit. intros H.
  by eapply subseteq_drop, subseteq_take.
Qed.

Lemma length_offset_limit {A} skip limit (l : list A) :
  (length (offset_limit skip limit l) ≤ limit)%nat.
Proof. unfold offset_limit. rewrite length_take. lia. Qed.

Lemma offset_limit_all {A} limit (l : list A) :
  (length l ≤ limit)%nat → offset_limit 0 limit l = l.
Proof. intros H. unfold offset_limit. simpl. by apply take_ge. Qed.

Lemma offset_limit_sorted {A} (R : A → A → Prop) skip limit l :
  StronglySorted R l → StronglySorted R (offset_limit skip limit l).
Proof.
  intros H. unfold offset_limit.
  assert (Hd : StronglySorted R (drop skip l)).
  { clear limit. revert skip. induction H as [|x r Hr IH Hx]; intros [|n];
      simpl; try constructor; auto. }
  clear H. revert limit. induction Hd as [|x r Hr IH Hx]; intros [|n];
    simpl; try constructor; auto.
  eapply Forall_forall. intros y Hy. eapply Forall_forall in Hx; [done|].
  by eapply subseteq_take.
Qed.

Lemma filter_app_one {A} (P : A → Prop) `{!∀ x, Decision (P x)} l x :
  P x → filter P (l ++ [x]) = filter P l ++ [x].
Proof. intros HP. rewrite filter_app. by rewrite (filter_cons_True P x []). Qed.

(** X6. A roleplay message sent on the permitted channel is stored as a
    row of game 0 without a sender id, whatever sender type the client
    names, and committed; it is then part of the channel's history: a page
    that starts at the first row and is long enough contains it, holds only
    rows of game 0, and is in ascending order of timestamp. *)
Theorem send_rp_message_appears_in_history (env : Env)
  (content senderName senderType : string)
  (avatar character_id owner_user_id : option string)
  (limit : nat) (w : World) :
  no_empty_channel (rp_connections w) →
  (length (filter (λ m, (gm_game_id m =? PLACEHOLDER_GAME_ID_FOR_DB)%Z = true)
                  (game_messages (session w))) < limit)%nat →
  ∃ m w' history,
    send_rp_message env TEST_CHANNEL_ID_FOR_GDM_RP content senderName
      senderType avatar character_id owner_user_id w = Ok m w'
    ∧ gm_content m = content ∧ gm_sender_id m = None
    ∧ gm_sender_role m = Some senderType
    ∧ gm_game_id m = PLACEHOLDER_GAME_ID_FOR_DB
    ∧ game_messages (committed w') = game_messages (session w) ++ [m]
    ∧ get_rp_messages TEST_CHANNEL_ID_FOR_GDM_RP 0 limit w' = Ok history w'
    ∧ m ∈ history
    ∧ Forall (λ x, gm_game_id x = PLACEHOLDER_GAME_ID_FOR_DB) history
    ∧ StronglySorted
        (λ a b, utc_instant (gm_timestamp a) ≤ utc_instant (gm_timestamp b))
        history.
Proof.
  intros Hinv Hlen.
  set (m := rp_row env w PLACEHOLDER_GAME_ID_FOR_DB None content senderName
              senderType avatar character_id owner_user_id).
  unfold send_rp_message, get_rp_messages, get_game_messages_rp_style.
  change (negb _) with false. cbv iota.
  unfold mbind, M_bind, bind.
  rewrite (create_game_message_rp_style_spec env w). cbv zeta. fold m.
  rewrite (broadcast_effect env TEST_CHANNEL_ID_FOR_GDM_RP m
             (with_game_message m w)) by done.
  eexists m, _, _. split; [reflexivity|].
  unfold db_read.
  cbn [committed session wire set_wire set_rp_connections with_game_message
       set_committed set_session set_sql_log game_messages
       set_game_messages rp_connections].
  repeat split; try done.
  - rewrite filter_app_one by done.
    rewrite offset_limit_all.
    + apply elem_of_order_by. set_solver.
    + rewrite (Permutation_length (order_by_perm _ _)), length_app. simpl. lia.
  - apply Forall_forall. intros x Hx%elem_of_offset_limit.
    apply elem_of_order_by, list_elem_of_filter in Hx as [Hx _].
    by apply Z.eqb_eq.
  - apply offset_limit_sorted, order_by_sorted.
Qed.

Lemma send_rp_message_appears_in_history_witness :
  ∃ m w' history,
    send_rp_message sample_env TEST_CHANNEL_ID_FOR_GDM_RP "I open the door."
      "Mira" "character" None (Some "c1") (Some "7") rp_world = Ok m w'
    ∧ gm_content m = "I open the door." ∧ gm_sender_id m = None
    ∧ gm_sender_role m = Some "character"
    ∧ gm_game_id m = PLACEHOLDER_GAME_ID_FOR_DB
    ∧ game_messages (committed w') = game_messages (session rp_world) ++ [m]
    ∧ get_rp_messages TEST_CHANNEL_ID_FOR_GDM_RP 0 100 w' = Ok history w'
    ∧ m ∈ history
    ∧ Forall (λ x, gm_game_id x = PLACEHOLDER_GAME_ID_FOR_DB) history
    ∧ StronglySorted
        (λ a b, utc_instant (gm_timestamp a) ≤ utc_instant (gm_timestamp b))
        history.
Proof.
  apply (send_rp_message_appears_in_history sample_env "I open the door."
           "Mira" "character" None (Some "c1") (Some "7") 100 rp_world).
  - exact rp_world_no_empty_channel.
  - vm_compute. lia.
Defined.

(** ** Direct messages, once more *)

(** What a request that passes the two checks leaves behind, whatever
    the mail branch does. *)
Lemma send_direct_message_frame
  (env : Env) (current_user : User) (receiver_user_id : Z)
  (content : string) (w : World) (receiver_user : User) :
  u_id current_user ≠ receiver_user_id →
  find (λ u, u_id u =? receiver_user_id) (users (session w))
    = Some receiver_user →
  let r := send_direct_message env current_user receiver_user_id content w in
  let w' := world_of r in
  let dm := dm_row env w (u_id current_user) receiver_user_id content in
  session w' = committed w'
  ∧ users (session w') = users (session w)
  ∧ direct_messages (session w') = direct_messages (session w) ++ [dm]
  ∧ game_messages (session w') = game_messages (session w)
  ∧ dm_connections w' = dm_connections w
  ∧ rp_connections w' = rp_connections w
  ∧ delivered_mail w' = delivered_mail w
  ∧ wire w' = wire w ++ dm_frames env w receiver_user_id dm
  ∧ r = match dm_connections w !! receiver_user_id with
        | Some ws => if socket_alive env ws then Ok dm w'
                     else Raise WebSocketError w'
        | None => Ok dm w'
        end.
Proof.
  intros Hne Hfind. cbv zeta.
  pose proof (find_user_id _ _ _ Hfind) as Hrid.
  remember (send_direct_message env current_user receiver_user_id content w)
    as r eqn:Hr.
  unfold send_direct_message in Hr.
  destruct (Z.eqb_spec (u_id current_user) receiver_user_id) as [|_]; [done|].
  unfold get_user_by_id, create_direct_message, create_notification,
    notify_by_email, ConnectionManager.send_personal_message_json,
    upsert_dm_notification_cooldown, get_dm_notification_cooldown,
    add_task, websocket_send in Hr.
  unfold dm_frames, dm_row.
  destruct w as [ses com dmc rpc wr bg dl rng log].
  unfold_monad. cbn -[can_send_email dm_email notification_content] in Hr.
  cbn [session users] in Hfind. rewrite Hfind, Hrid in Hr.
  cbn -[can_send_email dm_email notification_content] in Hr.
  cbn [dm_connections session direct_messages].
  destruct (u_email_notifications_enabled receiver_user
            && str_truthy (u_email receiver_user)) eqn:Een;
    cbn -[can_send_email dm_email notification_content] in Hr.
  2: {
    destruct (dmc !! receiver_user_id) as [ws|] eqn:Eon;
      [destruct (socket_alive env ws) eqn:Ealive|];
      rewrite ?Eon, ?Ealive in Hr; subst r;
      normalize_logs; rewrite ?app_nil_r; repeat split; done. }
  destruct (dmc !! receiver_user_id) as [ws|] eqn:Eon; rewrite ?Eon in Hr.
  - rewrite bool_decide_eq_true_2 in Hr by eauto.
    cbn -[can_send_email dm_email notification_content] in Hr.
    rewrite Eon in Hr.
    destruct (socket_alive env ws) eqn:Ealive; rewrite ?Ealive in Hr; subst r;
      normalize_logs; rewrite ?app_nil_r; repeat split; done.
  - rewrite bool_decide_eq_false_2 in Hr by (by intros [? ?]).
    rewrite can_send_email_value in *.
    cbn -[can_send_email dm_email notification_content] in Hr.
    destruct (find (cooldown_matches (u_id current_user) receiver_user_id)
                (dm_notification_cooldowns ses)) as [c|] eqn:Erec;
      rewrite ?Erec in Hr.
    + destruct (cd_last_email_sent_at c) as [last|] eqn:Elast;
        [destruct (utc_instant last
                   + timedelta_minutes DM_EMAIL_COOLDOWN_MINUTES <=? clock env)
           eqn:Ew|];
        rewrite ?Ew in Hr;
        cbn -[can_send_email dm_email notification_content] in Hr;
        rewrite ?Erec in Hr;
        cbn -[can_send_email dm_email notification_content] in Hr;
        rewrite ?Eon in Hr; subst r;
        normalize_logs; rewrite ?app_nil_r; repeat split; done.
    + cbn -[can_send_email dm_email notification_content] in Hr;
        rewrite ?Erec in Hr;
        cbn -[can_send_email dm_email notification_content] in Hr;
        rewrite ?Eon in Hr; subst r.
      normalize_logs; rewrite ?app_nil_r; repeat split; done.
Qed.











(** ** Direct-message history and conversations *)

Lemma between_users_sym a b m : between_users a b m = between_users b a m.
Proof. unfold between_users. apply orb_comm. Qed.

Lemma between_users_spec a b m :
  between_users a b m = true ↔
  (dm_sender_id m = a ∧ dm_receiver_id m = b)
  ∨ (dm_sender_id m = b ∧ dm_receiver_id m = a).
Proof.
  unfold between_users.
  rewrite orb_true_iff, !andb_true_iff, !Z.eqb_eq. tauto.
Qed.

(** X11. What the history endpoint returns: it answers only for another,
    existing user (asking for the history with oneself never succeeds);
    it changes nothing in the store; every row of the page is a stored
    message that went from one of the two users to the other; the page has
    at most [limit] rows, in ascending order of timestamp. *)
Theorem get_direct_message_history_page (current_user : User)
  (other_user_id : Z) (skip limit : nat) (w w' : World)
  (history : list DirectMessage) :
  get_direct_message_history current_user other_user_id skip limit w
    = Ok history w' →
  u_id current_user ≠ other_user_id
  ∧ is_Some (find (λ u, u_id u =? other_user_id) (users (session w)))
  ∧ session w' = session w ∧ committed w' = committed w
  ∧ Forall (λ m, m ∈ direct_messages (session w)
                 ∧ ((dm_sender_id m = u_id current_user
                     ∧ dm_receiver_id m = other_user_id)
                    ∨ (dm_sender_id m = other_user_id
                       ∧ dm_receiver_id m = u_id current_user))) history
  ∧ (length history ≤ limit)%nat
  ∧ StronglySorted (λ a b, utc_instant (dm_timestamp a)
                           ≤ utc_instant (dm_timestamp b)) history.
Proof.
  unfold get_direct_message_history, get_user_by_id,
    get_direct_messages_between_users. unfold_monad.
  destruct w as [ses com dmc rpc wr bg dl rng log]. cbn.
  destruct (find (λ u, u_id u =? other_user_id) (users ses)) as [ou|];
    [|done].
  destruct (Z.eqb_spec (u_id current_user) other_user_id) as [|Hne]; [done|].
  intros [= <- <-]. cbn. repeat split; try done; try by eauto.
  - apply Forall_forall. intros m Hm.
    apply elem_of_offset_limit, elem_of_order_by, list_elem_of_filter in Hm
      as [Hb Hm].
    split; [done|]. by apply between_users_spec.
  - apply length_offset_limit.
  - apply offset_limit_sorted, order_by_sorted.
Qed.

Lemma get_direct_message_history_page_witness :
  u_id (sample_user 3 "bob" None) ≠ 7
  ∧ is_Some (find (λ u, u_id u =? 7) (users (session chat_world)))
  ∧ session (set_sql_log [SelectUser 7] chat_world) = session chat_world
  ∧ committed (set_sql_log [SelectUser 7] chat_world) = committed chat_world
  ∧ Forall (λ m, m ∈ direct_messages (session chat_world)
                 ∧ ((dm_sender_id m = u_id (sample_user 3 "bob" None)
                     ∧ dm_receiver_id m = 7)
                    ∨ (dm_sender_id m = 7
                       ∧ dm_receiver_id m = u_id (sample_user 3 "bob" None))))
      [dm_at 1 3 7 5; dm_at 2 7 3 4]
  ∧ (length [dm_at 1 3 7 5; dm_at 2 7 3 4] ≤ 50)%nat
  ∧ StronglySorted (λ a b, utc_instant (dm_timestamp a)
                           ≤ utc_instant (dm_timestamp b))
      [dm_at 1 3 7 5; dm_at 2 7 3 4].
Proof.
  apply (get_direct_message_history_page (sample_user 3 "bob" None) 7 0 50
           chat_world).
  reflexivity.
Defined.

(** X12. The two parties of an exchange see the same history: for two
    distinct users who both exist, the page one of them gets for the other
    is the page the other gets for the one, row for row. *)
Theorem direct_message_history_is_shared (a b : User) (skip limit : nat)
  (w : World) :
  u_id a ≠ u_id b →
  is_Some (find (λ u, u_id u =? u_id a) (users (session w))) →
  is_Some (find (λ u, u_id u =? u_id b) (users (session w))) →
  ∃ history wa wb,
    get_direct_message_history a (u_id b) skip limit w = Ok history wa
    ∧ get_direct_message_history b (u_id a) skip limit w = Ok history wb.
Proof.
  intros Hne [ua Ha] [ub Hb].
  unfold get_direct_message_history, get_user_by_id,
    get_direct_messages_between_users. unfold_monad.
  destruct w as [ses com dmc rpc wr bg dl rng log]. cbn in *.
  rewrite Ha, Hb.
  destruct (Z.eqb_spec (u_id a) (u_id b)) as [|_]; [done|].
  destruct (Z.eqb_spec (u_id b) (u_id a)) as [|_]; [done|].
  do 3 eexists. split; [reflexivity|].
  do 3 f_equal. apply filter_agree. intros m _.
  by rewrite between_users_sym.
Qed.

Lemma direct_message_history_is_shared_witness :
  ∃ history wa wb,
    get_direct_message_history (sample_user 3 "bob" None)
      (u_id (sample_user 7 "mira" None)) 0 50 chat_world = Ok history wa
    ∧ get_direct_message_history (sample_user 7 "mira" None)
        (u_id (sample_user 3 "bob" None)) 0 50 chat_world = Ok history wb.
Proof.
  apply (direct_message_history_is_shared (sample_user 3 "bob" None)
           (sample_user 7 "mira" None) 0 50 chat_world).
  - simpl. lia.
  - simpl. eauto.
  - simpl. eauto.
Defined.

(** X13. A direct message that was sent is in the history afterwards:
    once [send_direct_message] has returned a row, the sender's history
    with the receiver, read from the first row with a limit that covers the
    table, contains that row. *)
Theorem sent_direct_message_appears_in_history
  (env : Env) (current_user : User) (receiver_user_id : Z)
  (content : string) (limit : nat) (w w' : World) (dm : DirectMessage) :
  send_direct_message env current_user receiver_user_id content w = Ok dm w' →
  (length (direct_messages (session w)) < limit)%nat →
  ∃ history w'',
    get_direct_message_history current_user receiver_user_id 0 limit w'
      = Ok history w''
    ∧ dm ∈ history.
Proof.
  intros Hsend Hlimit.
  destruct (Z.eqb_spec (u_id current_user) receiver_user_id) as [Heq|Hne].
  { unfold send_direct_message in Hsend.
    by rewrite (proj2 (Z.eqb_eq _ _) Heq) in Hsend. }
  destruct (find (λ u, u_id u =? receiver_user_id) (users (session w)))
    as [receiver_user|] eqn:Hfind.
  2: { unfold send_direct_message, get_user_by_id in Hsend.
       rewrite (proj2 (Z.eqb_neq _ _) Hne) in Hsend. unfold_monad.
       cbn [session set_sql_log] in Hsend. by rewrite Hfind in Hsend. }
  destruct (send_direct_message_frame env current_user receiver_user_id
              content w receiver_user Hne Hfind)
    as (_ & Husers & Hdms & _ & _ & _ & _ & _ & Hres).
  cbv zeta in *. rewrite Hsend in *. cbn [world_of] in *.
  assert (Hdm : dm = dm_row env w (u_id current_user) receiver_user_id
                       content).
  { destruct (dm_connections w !! receiver_user_id) as [ws|];
      [destruct (socket_alive env ws)|]; congruence. }
  clear Hres Hsend.
  unfold get_direct_message_history, get_user_by_id,
    get_direct_messages_between_users. unfold_monad.
  destruct w' as [ses com dmc rpc wr bg dl rng log]. cbn in *.
  rewrite Husers, Hfind.
  destruct (Z.eqb_spec (u_id current_user) receiver_user_id) as [|_]; [done|].
  do 2 eexists. split; [reflexivity|]. subst dm.
  rewrite offset_limit_all.
  - apply elem_of_order_by, list_elem_of_filter. split.
    + apply between_users_spec. by left.
    + cbn [session set_sql_log]. rewrite Hdms. apply elem_of_app.
      right. by left.
  - cbn [session set_sql_log]. rewrite order_by_perm.
    etrans; [apply length_filter|]. rewrite Hdms, length_app. simpl. lia.
Qed.

Lemma sent_direct_message_appears_in_history_witness :
  ∃ history w'',
    get_direct_message_history (sample_user 3 "bob" None) 7 0 50
      (world_of (send_direct_message sample_env (sample_user 3 "bob" None)
                   7 "hello" chat_world))
      = Ok history w''
    ∧ dm_row sample_env chat_world 3 7 "hello" ∈ history.
Proof.
  apply (sent_direct_message_appears_in_history sample_env
           (sample_user 3 "bob" None) 7 "hello" 50 chat_world
           (world_of (send_direct_message sample_env
                        (sample_user 3 "bob" None) 7 "hello" chat_world))
           (dm_row sample_env chat_world 3 7 "hello")).
  - vm_compute. reflexivity.
  - simpl. lia.
Defined.

Lemma fold_max_ge_init d l : d ≤ fold_right Z.max d l.
Proof. induction l; simpl; lia. Qed.

Lemma fold_max_ge d l x : x ∈ l → x ≤ fold_right Z.max d l.
Proof.
  induction l as [|y r IH]; [by intros ?%elem_of_nil|].
  intros [->|Hx]%elem_of_cons; simpl; [lia|]. specialize (IH Hx). lia.
Qed.

Lemma fold_max_in d l : fold_right Z.max d l = d ∨ fold_right Z.max d l ∈ l.
Proof.
  induction l as [|y r IH]; simpl; [by left|].
  destruct (Z.max_spec y (fold_right Z.max d r)) as [[_ ->]|[_ ->]].
  - destruct IH as [IH|IH]; [by left|]. right. by right.
  - right. by left.
Qed.

Lemma distinct_ids_inj {A} (id : A → Z) (rows : list A) x y :
  distinct_ids id rows → x ∈ rows → y ∈ rows → id x = id y → x = y.
Proof.
  unfold distinct_ids. induction rows as [|z r IH]; simpl;
    [by intros _ ?%elem_of_nil|].
  intros [Hz Hr]%NoDup_cons Hx Hy Hid.
  apply elem_of_cons in Hx as [->|Hx]; apply elem_of_cons in Hy as [->|Hy].
  - done.
  - exfalso. apply Hz. rewrite Hid. apply list_elem_of_In, in_map.
    by apply list_elem_of_In.
  - exfalso. apply Hz. rewrite <- Hid. apply list_elem_of_In, in_map.
    by apply list_elem_of_In.
  - by apply IH.
Qed.

Lemma distinct_ids_NoDup {A} (id : A → Z) (rows : list A) :
  distinct_ids id rows → NoDup rows.
Proof.
  unfold distinct_ids. induction rows as [|z r IH]; simpl; [constructor|].
  intros [Hz Hr]%NoDup_cons. constructor; [|by apply IH].
  intros Hin. apply Hz, list_elem_of_In, in_map. by apply list_elem_of_In.
Qed.

(** The greatest id of a group is the id of one of its members. *)
Lemma group_max_id_spec user_id dms m0 :
  m0 ∈ dms → involves user_id m0 = true →
  ∃ m1, m1 ∈ dms ∧ involves user_id m1 = true
        ∧ partner user_id m1 = partner user_id m0
        ∧ group_max_id user_id dms m0 = dm_id m1
        ∧ ∀ m', m' ∈ dms → involves user_id m' = true →
                partner user_id m' = partner user_id m0 →
                dm_id m' ≤ dm_id m1.
Proof.
  intros Hin Hinv. unfold group_max_id.
  set (G := filter _ dms).
  assert (HG : ∀ m', m' ∈ G ↔ m' ∈ dms ∧ involves user_id m' = true
                                ∧ partner user_id m' = partner user_id m0).
  { intros m'. unfold G. rewrite list_elem_of_filter, andb_true_iff, Z.eqb_eq.
    tauto. }
  assert (Hbound : ∀ m', m' ∈ dms → involves user_id m' = true →
                         partner user_id m' = partner user_id m0 →
                         dm_id m' ≤ fold_right Z.max (dm_id m0) (map dm_id G)).
  { intros m' H1 H2 H3. apply fold_max_ge, list_elem_of_In, in_map.
    apply list_elem_of_In, HG. done. }
  destruct (fold_max_in (dm_id m0) (map dm_id G)) as [E|E].
  - exists m0. rewrite E in *. done.
  - apply list_elem_of_In, in_map_iff in E as (m1 & E & Hm1).
    apply list_elem_of_In, HG in Hm1 as (H1 & H2 & H3).
    exists m1. rewrite <- E in *. done.
Qed.

Lemma elem_of_latest_message_ids user_id dms id :
  id ∈ latest_message_ids user_id dms ↔
  ∃ m0, m0 ∈ dms ∧ involves user_id m0 = true
        ∧ id = group_max_id user_id dms m0.
Proof.
  unfold latest_message_ids. rewrite list_elem_of_In, in_map_iff. split.
  - intros (m0 & <- & Hm0). apply list_elem_of_In, list_elem_of_filter in Hm0.
    exists m0. tauto.
  - intros (m0 & H1 & H2 & ->). exists m0. split; [done|].
    apply list_elem_of_In, list_elem_of_filter. done.
Qed.

Lemma existsb_eqb_elem_of (x : Z) (l : list Z) :
  existsb (Z.eqb x) l = true ↔ x ∈ l.
Proof.
  rewrite existsb_exists. split.
  - intros (y & Hy & ->%Z.eqb_eq). by apply list_elem_of_In.
  - intros H. exists x. split; [by apply list_elem_of_In|apply Z.eqb_refl].
Qed.

(** Membership in the answer of [get_user_conversations]. *)
Lemma elem_of_conversations user_id dms m :
  distinct_ids dm_id dms →
  m ∈ filter (λ m, existsb (Z.eqb (dm_id m))
                     (latest_message_ids user_id dms) = true) dms ↔
  m ∈ dms ∧ involves user_id m = true
  ∧ ∀ m', m' ∈ dms → involves user_id m' = true →
          partner user_id m' = partner user_id m → dm_id m' ≤ dm_id m.
Proof.
  intros Hids. rewrite list_elem_of_filter, existsb_eqb_elem_of,
    elem_of_latest_message_ids. split.
  - intros [(m0 & Hm0 & Hinv0 & Hid) Hm].
    destruct (group_max_id_spec user_id dms m0 Hm0 Hinv0)
      as (m1 & H1 & H2 & H3 & H4 & H5).
    assert (m = m1) as ->.
    { apply (distinct_ids_inj dm_id dms); try done. congruence. }
    split; [done|]. split; [done|]. intros m' ? ? Hp. apply H5; try done.
    congruence.
  - intros (Hm & Hinv & Hmax). split; [|done].
    exists m. split; [done|]. split; [done|].
    destruct (group_max_id_spec user_id dms m Hm Hinv)
      as (m1 & H1 & H2 & H3 & H4 & H5).
    rewrite H4. apply Z.le_antisymm; [by apply H5|by apply Hmax].
Qed.

Lemma NoDup_map_partner user_id dms l :
  distinct_ids dm_id dms → NoDup l →
  (∀ m, m ∈ l →
        m ∈ dms ∧ involves user_id m = true
        ∧ ∀ m', m' ∈ dms → involves user_id m' = true →
                partner user_id m' = partner user_id m → dm_id m' ≤ dm_id m) →
  NoDup (map (partner user_id) l).
Proof.
  intros Hids Hnd Hl. induction Hnd as [|x r Hx Hr IH]; simpl; [constructor|].
  constructor.
  - intros Hin. apply list_elem_of_In, in_map_iff in Hin as (y & Hp & Hy).
    apply list_elem_of_In in Hy.
    destruct (Hl x) as (Hx1 & Hx2 & Hx3); [by left|].
    destruct (Hl y) as (Hy1 & Hy2 & Hy3); [by right|].
    assert (x = y) as ->; [|done].
    apply (distinct_ids_inj dm_id dms); try done.
    apply Z.le_antisymm; [apply Hy3|apply Hx3]; done.
  - apply IH. intros m Hm. apply Hl. by right.
Qed.

(** X14. What [get_user_conversations] returns, the ids of the stored
    messages being distinct: exactly the messages the user sent or
    received that have the greatest id among those exchanged with the same
    partner; hence one message per partner, for every partner the user has
    exchanged a message with; newest first; and nothing is written. *)
Theorem get_user_conversations_latest_per_partner (user_id : Z)
  (w w' : World) (conversations : list DirectMessage) :
  distinct_ids dm_id (direct_messages (session w)) →
  get_user_conversations user_id w = Ok conversations w' →
  let dms := direct_messages (session w) in
  w' = w
  ∧ (∀ m, m ∈ conversations ↔
          m ∈ dms ∧ involves user_id m = true
          ∧ ∀ m', m' ∈ dms → involves user_id m' = true →
                  partner user_id m' = partner user_id m →
                  dm_id m' ≤ dm_id m)
  ∧ NoDup (map (partner user_id) conversations)
  ∧ (∀ m, m ∈ dms → involves user_id m = true →
          ∃ c, c ∈ conversations ∧ partner user_id c = partner user_id m)
  ∧ StronglySorted (λ a b, utc_instant (dm_timestamp b)
                           ≤ utc_instant (dm_timestamp a)) conversations.
Proof.
  intros Hids. unfold get_user_conversations, db_read. intros [= <- <-].
  cbv zeta.
  set (dms := direct_messages (session w)) in *.
  assert (Hmem : ∀ m,
    m ∈ order_by_desc (λ m, utc_instant (dm_timestamp m))
          (filter (λ m, existsb (Z.eqb (dm_id m))
                          (latest_message_ids user_id dms) = true) dms) ↔
    m ∈ dms ∧ involves user_id m = true
    ∧ ∀ m', m' ∈ dms → involves user_id m' = true →
            partner user_id m' = partner user_id m → dm_id m' ≤ dm_id m).
  { intros m. unfold order_by_desc. rewrite elem_of_order_by.
    by apply elem_of_conversations. }
  split; [done|]. split; [exact Hmem|]. split; [|split].
  - apply (NoDup_map_partner user_id dms); [done| |intros m; apply Hmem].
    unfold order_by_desc. rewrite order_by_perm.
    apply NoDup_filter. by eapply distinct_ids_NoDup.
  - intros m Hm Hinv.
    destruct (group_max_id_spec user_id dms m Hm Hinv)
      as (m1 & H1 & H2 & H3 & H4 & H5).
    exists m1. split; [|done]. apply Hmem. split; [done|]. split; [done|].
    intros m' ? ? Hp. apply H5; try done. congruence.
  - apply order_by_desc_sorted.
Qed.

Lemma get_user_conversations_latest_per_partner_witness :
  let dms := direct_messages (session chat_world) in
  chat_world = chat_world
  ∧ (∀ m, m ∈ [dm_at 3 9 3 2; dm_at 2 7 3 4] ↔
          m ∈ dms ∧ involves 3 m = true
          ∧ ∀ m', m' ∈ dms → involves 3 m' = true →
                  partner 3 m' = partner 3 m → dm_id m' ≤ dm_id m)
  ∧ NoDup (map (partner 3) [dm_at 3 9 3 2; dm_at 2 7 3 4])
  ∧ (∀ m, m ∈ dms → involves 3 m = true →
          ∃ c, c ∈ [dm_at 3 9 3 2; dm_at 2 7 3 4]
               ∧ partner 3 c = partner 3 m)
  ∧ StronglySorted (λ a b, utc_instant (dm_timestamp b)
                           ≤ utc_instant (dm_timestamp a))
      [dm_at 3 9 3 2; dm_at 2 7 3 4].
Proof.
  apply (get_user_conversations_latest_per_partner 3 chat_world chat_world
           [dm_at 3 9 3 2; dm_at 2 7 3 4]).
  - unfold distinct_ids. by apply (bool_decide_unpack _).
  - vm_compute. reflexivity.
Defined.

Lemma involves_partner user_id m :
  involves user_id m = true → dm_sender_id m ≠ dm_receiver_id m →
  partner user_id m ≠ user_id
  ∧ (if dm_receiver_id m =? user_id then dm_sender_id m else dm_receiver_id m)
    = partner user_id m.
Proof.
  unfold involves, partner. rewrite orb_true_iff, !Z.eqb_eq.
  intros Hinv Hne.
  destruct (Z.eqb_spec (dm_sender_id m) user_id),
           (Z.eqb_spec (dm_receiver_id m) user_id); split; lia.
Qed.

(** X15. The conversation list of the endpoint, on a table with
    distinct ids and no message addressed to its sender: its last messages
    are those of [get_user_conversations], in that order; the user shown
    beside each is the row of the partner the query grouped by, never the
    current user; no partner is listed twice; nothing is written. *)
Theorem list_my_conversations_names_partner (current_user : User)
  (w w' : World) (conversations : list Conversation) :
  direct_messages_wf (session w) →
  list_my_conversations current_user w = Ok conversations w' →
  w' = w
  ∧ get_user_conversations (u_id current_user) w
    = Ok (map last_message conversations) w
  ∧ Forall (λ c, partner (u_id current_user) (last_message c)
                 ≠ u_id current_user
                 ∧ other_user c
                   = find (λ u, u_id u =? partner (u_id current_user)
                                            (last_message c))
                          (users (session w))) conversations
  ∧ NoDup (map (λ c, partner (u_id current_user) (last_message c))
               conversations).
Proof.
  intros [Hids Hself]. unfold list_my_conversations, get_user_conversations.
  unfold_monad. intros [= <- <-].
  set (dms := direct_messages (session w)) in *.
  set (convs := order_by_desc _ _).
  assert (Hmem : ∀ m, m ∈ convs →
    m ∈ dms ∧ involves (u_id current_user) m = true
    ∧ ∀ m', m' ∈ dms → involves (u_id current_user) m' = true →
            partner (u_id current_user) m' = partner (u_id current_user) m →
            dm_id m' ≤ dm_id m).
  { intros m. unfold convs, order_by_desc. rewrite elem_of_order_by.
    by apply elem_of_conversations. }
  split; [done|]. split; [|split].
  - f_equal. rewrite map_map. simpl. by rewrite map_id.
  - apply Forall_forall. intros c Hc.
    apply list_elem_of_In, in_map_iff in Hc as (m & <- & Hm).
    apply list_elem_of_In in Hm. destruct (Hmem m Hm) as (Hin & Hinv & _).
    assert (Hne : dm_sender_id m ≠ dm_receiver_id m).
    { eapply Forall_forall in Hself; [exact Hself|done]. }
    destruct (involves_partner _ _ Hinv Hne) as [Hp Hother].
    simpl. split; [done|]. by rewrite Hother.
  - rewrite map_map. simpl.
    apply (NoDup_map_partner (u_id current_user) dms); [done| |exact Hmem].
    unfold convs, order_by_desc. rewrite order_by_perm.
    apply NoDup_filter. by eapply distinct_ids_NoDup.
Qed.

Lemma list_my_conversations_names_partner_witness :
  let cs := [ {| other_user := Some (sample_user 9 "cato" None);
                 last_message := dm_at 3 9 3 2 |};
              {| other_user := Some (sample_user 7 "mira" None);
                 last_message := dm_at 2 7 3 4 |} ] in
  chat_world = chat_world
  ∧ get_user_conversations (u_id (sample_user 3 "bob" None)) chat_world
    = Ok (map last_message cs) chat_world
  ∧ Forall (λ c, partner (u_id (sample_user 3 "bob" None)) (last_message c)
                 ≠ u_id (sample_user 3 "bob" None)
                 ∧ other_user c
                   = find (λ u, u_id u =? partner
                                            (u_id (sample_user 3 "bob" None))
                                            (last_message c))
                          (users (session chat_world))) cs
  ∧ NoDup (map (λ c, partner (u_id (sample_user 3 "bob" None))
                       (last_message c)) cs).
Proof.
  apply (list_my_conversations_names_partner (sample_user 3 "bob" None)
           chat_world chat_world).
  - split.
    + unfold distinct_ids. by apply (bool_decide_unpack _).
    + repeat constructor; simpl; lia.
  - vm_compute. reflexivity.
Defined.

(** X16. Sending keeps the table of direct messages well formed: if
    the ids are distinct and no row is addressed to its sender, the same
    holds after [send_direct_message], however the request ends. *)
Theorem send_direct_message_keeps_table_well_formed
  (env : Env) (current_user : User) (receiver_user_id : Z)
  (content : string) (w : World) :
  direct_messages_wf (session w) →
  direct_messages_wf
    (session (world_of (send_direct_message env current_user
                          receiver_user_id content w))).
Proof.
  intros [Hids Hself].
  destruct (Z.eqb_spec (u_id current_user) receiver_user_id) as [Heq|Hne].
  { unfold send_direct_message.
    by rewrite (proj2 (Z.eqb_eq _ _) Heq). }
  destruct (find (λ u, u_id u =? receiver_user_id) (users (session w)))
    as [receiver_user|] eqn:Hfind.
  2: { unfold send_direct_message, get_user_by_id.
       rewrite (proj2 (Z.eqb_neq _ _) Hne). unfold_monad.
       cbn [session set_sql_log]. by rewrite Hfind. }
  destruct (send_direct_message_frame env current_user receiver_user_id
              content w receiver_user Hne Hfind)
    as (_ & _ & Hdms & _).
  cbv zeta in *. unfold direct_messages_wf, distinct_ids. rewrite Hdms. split.
  - rewrite map_app. simpl. apply NoDup_app. split; [done|]. split.
    + intros x Hx [->|[]%elem_of_nil]%elem_of_cons.
      apply next_id_fresh in Hx. lia.
    + apply NoDup_singleton.
  - apply Forall_app. split; [done|]. by constructor.
Qed.

Lemma send_direct_message_keeps_table_well_formed_witness :
  direct_messages_wf
    (session (world_of (send_direct_message sample_env
                          (sample_user 3 "bob" None) 7 "hello" chat_world))).
Proof.
  apply (send_direct_message_keeps_table_well_formed sample_env
           (sample_user 3 "bob" None) 7 "hello" chat_world).
  split.
  - unfold distinct_ids. by apply (bool_decide_unpack _).
  - repeat constructor; simpl; lia.
Defined.

(** ** Notifications *)

Lemma unread_of_set_read user_id n :
  unread_of user_id (if unread_of user_id n then set_read n else n) = false.
Proof.
  destruct (unread_of user_id n) eqn:E; [|done].
  unfold unread_of in *. simpl. apply andb_false_r.
Qed.

Lemma filter_nil_Forall {A} (P : A → Prop) `{!∀ x, Decision (P x)} l :
  Forall (λ x, ¬ P x) l → filter P l = [].
Proof.
  induction 1 as [|x r Hx Hr IH]; [done|].
  by rewrite filter_cons_False.
Qed.

Lemma mark_all_notifications_run (user_id : Z) (w : World) :
  ∃ w',
    mark_all_notifications_as_read_for_user user_id w
      = Ok (Z.of_nat (length (filter (λ n, unread_of user_id n = true)
                                (notifications (session w))))) w'
    ∧ committed w' = session w'
    ∧ notifications (session w')
      = map (λ n, if unread_of user_id n then set_read n else n)
            (notifications (session w)).
Proof.
  unfold mark_all_notifications_as_read_for_user. unfold_monad.
  destruct w as [ses com dmc rpc wr bg dl rng log]. cbn.
  eexists. split; [reflexivity|]. done.
Qed.

Lemma mark_all_my_notifications_run (current_user : User) (w w' : World)
  (count : Z) :
  mark_all_notifications_as_read_for_user (u_id current_user) w
    = Ok count w' →
  ∃ message, mark_all_my_notifications_read current_user w
             = Ok (message, count) w'.
Proof.
  intros H. unfold mark_all_my_notifications_read.
  rewrite (bind_Ok _ _ _ _ _ H).
  destruct (Z.eqb_spec count 0) as [->|_]; eexists; reflexivity.
Qed.

(** X17. Marking all as read: the endpoint always answers; the count it
    reports is the number of the user's unread notifications; the change is
    committed; afterwards every notification of the user is read and the
    user's unread list is empty at every offset and limit; the rows of other
    users, and the ids and order of all rows, are as before; and a second
    call reports zero. *)
Theorem mark_all_my_notifications_read_spec (current_user : User)
  (w : World) :
  ∃ message w',
    mark_all_my_notifications_read current_user w
      = Ok (message,
            Z.of_nat (length (filter (λ n, unread_of (u_id current_user) n
                                           = true)
                                (notifications (session w))))) w'
    ∧ committed w' = session w'
    ∧ Forall (λ n, n_user_id n = u_id current_user → n_is_read n = true)
             (notifications (session w'))
    ∧ (∀ skip limit,
         read_my_notifications current_user skip limit false w' = Ok [] w')
    ∧ filter (λ n, n_user_id n ≠ u_id current_user)
             (notifications (session w'))
      = filter (λ n, n_user_id n ≠ u_id current_user)
               (notifications (session w))
    ∧ map n_id (notifications (session w'))
      = map n_id (notifications (session w))
    ∧ ∃ message' w'',
        mark_all_my_notifications_read current_user w'
          = Ok (message', 0) w''.
Proof.
  set (uid := u_id current_user).
  destruct (mark_all_notifications_run uid w) as (w' & Hrun & Hcom & Hmarked).
  destruct (mark_all_my_notifications_run current_user w w' _ Hrun)
    as [message Hans].
  exists message, w'. split; [exact Hans|]. split; [done|].
  assert (Hnone : Forall (λ n, ¬ (unread_of uid n = true))
                    (notifications (session w'))).
  { rewrite Hmarked. apply Forall_forall. intros n Hn.
    apply list_elem_of_In, in_map_iff in Hn as (m & <- & _).
    by rewrite unread_of_set_read. }
  split; [|split; [|split; [|split]]].
  - eapply Forall_impl; [exact Hnone|]. intros n Hn Hu. unfold unread_of in Hn.
    rewrite (proj2 (Z.eqb_eq _ _) Hu) in Hn. by destruct (n_is_read n).
  - intros skip limit.
    unfold read_my_notifications, get_notifications_for_user, db_read.
    f_equal. rewrite (filter_nil_Forall _ (notifications (session w')));
      [by destruct skip, limit|].
    eapply Forall_impl; [exact Hnone|]. intros n Hn. fold uid.
    unfold unread_of in Hn. simpl. by destruct (_ && _).
  - rewrite Hmarked. clear. induction (notifications (session w)) as [|n r IH];
      [done|]. simpl.
    assert (Hu : n_user_id (if unread_of uid n then set_read n else n)
                 = n_user_id n) by (by destruct (unread_of uid n)).
    destruct (decide (n_user_id n ≠ uid)) as [Hn|Hn].
    + rewrite !filter_cons_True by (by rewrite ?Hu). rewrite IH.
      f_equal. unfold unread_of.
      by rewrite (proj2 (Z.eqb_neq _ _) Hn).
    + rewrite !filter_cons_False by (by rewrite ?Hu). done.
  - rewrite Hmarked, map_map. apply map_ext. intros n.
    by destruct (unread_of uid n).
  - destruct (mark_all_notifications_run uid w') as (w'' & Hrun' & _).
    rewrite (filter_nil_Forall _ _ Hnone) in Hrun'. simpl in Hrun'.
    destruct (mark_all_my_notifications_run current_user w' w'' _ Hrun')
      as [message' Hans'].
    eauto.
Qed.

Lemma find_split {A} (f : A → bool) l x :
  find f l = Some x →
  ∃ l1 l2, l = l1 ++ x :: l2 ∧ f x = true ∧ Forall (λ y, f y = false) l1.
Proof.
  induction l as [|y r IH]; [done|]. simpl.
  destruct (f y) eqn:E.
  - intros [= ->]. exists [], r. by repeat split.
  - intros H. destruct (IH H) as (l1 & l2 & -> & Hx & Hl1).
    exists (y :: l1), l2. repeat split; [done|]. by constructor.
Qed.

Lemma map_set_read_one (n : Notification) l1 l2 :
  distinct_ids n_id (l1 ++ n :: l2) →
  map (λ m, if n_id m =? n_id n then set_read m else m) (l1 ++ n :: l2)
  = l1 ++ set_read n :: l2.
Proof.
  intros Hids.
  assert (Hother : ∀ m, m ∈ l1 ++ l2 → n_id m ≠ n_id n).
  { intros m Hm Heq. unfold distinct_ids in Hids.
    rewrite map_app in Hids. simpl in Hids.
    apply NoDup_app in Hids as (_ & Hdisj & [Hn _]%NoDup_cons).
    apply elem_of_app in Hm as [Hm|Hm].
    - apply (Hdisj (n_id m)).
      + apply list_elem_of_In, in_map. by apply list_elem_of_In.
      + rewrite Heq. by left.
    - apply Hn. rewrite <- Heq. apply list_elem_of_In, in_map.
      by apply list_elem_of_In. }
  assert (Hid : ∀ l, (∀ m, m ∈ l → n_id m ≠ n_id n) →
    map (λ m, if n_id m =? n_id n then set_read m else m) l = l).
  { induction l as [|m r IH]; [done|]. intros Hl. simpl.
    rewrite (proj2 (Z.eqb_neq _ _) (Hl m ltac:(by left))).
    rewrite IH; [done|]. intros ? ?. apply Hl. by right. }
  rewrite map_app. simpl. rewrite Z.eqb_refl.
  rewrite !Hid; [done| |]; intros m Hm; apply Hother, elem_of_app; auto.
Qed.

(** X18. Marking one notification as read touches the caller's own row
    only.  If no notification with that id belongs to the caller, the
    answer is HTTP 404 and the world is as before: nothing is written or
    committed, also when the id is that of another user's notification.
    Otherwise, the ids being distinct, exactly that one row is changed, to
    read; the change is committed and the changed row is returned. *)
Theorem mark_notification_read_touches_own_row (current_user : User)
  (notification_id : Z) (w : World) :
  distinct_ids n_id (notifications (session w)) →
  match mark_notification_read current_user notification_id w with
  | Raise e w' =>
      e = HTTPException 404 "Notification not found or not owned by user"
      ∧ w' = w
      ∧ Forall (λ n, ¬ (n_id n = notification_id
                        ∧ n_user_id n = u_id current_user))
               (notifications (session w))
  | Ok n' w' =>
      ∃ l1 n l2,
        notifications (session w) = l1 ++ n :: l2
        ∧ n_id n = notification_id ∧ n_user_id n = u_id current_user
        ∧ n' = set_read n
        ∧ notifications (session w') = l1 ++ set_read n :: l2
        ∧ committed w' = session w'
  end.
Proof.
  intros Hids.
  unfold mark_notification_read, mark_notification_as_read. unfold_monad.
  destruct w as [ses com dmc rpc wr bg dl rng log]. cbn in *.
  destruct (find _ (notifications ses)) as [n|] eqn:Hfind; cbn.
  - destruct (find_split _ _ _ Hfind) as (l1 & l2 & Hl & Hn & _).
    apply andb_true_iff in Hn as [Hid%Z.eqb_eq Hu%Z.eqb_eq].
    exists l1, n, l2. rewrite Hl in *. repeat split; try done.
    by apply map_set_read_one.
  - repeat split. apply Forall_forall. intros n Hn [Hid Hu].
    apply list_elem_of_In in Hn.
    eapply find_none in Hfind; [|exact Hn]. simpl in Hfind.
    apply andb_false_iff in Hfind as [?%Z.eqb_neq|?%Z.eqb_neq]; done.
Qed.

Lemma mark_notification_read_touches_own_row_witness :
  match mark_notification_read (sample_user 2 "brom" None) 1
          (digest_world 30) with
  | Raise e w' =>
      e = HTTPException 404 "Notification not found or not owned by user"
      ∧ w' = digest_world 30
      ∧ Forall (λ n, ¬ (n_id n = 1
                        ∧ n_user_id n = u_id (sample_user 2 "brom" None)))
               (notifications (session (digest_world 30)))
  | Ok n' w' =>
      ∃ l1 n l2,
        notifications (session (digest_world 30)) = l1 ++ n :: l2
        ∧ n_id n = 1 ∧ n_user_id n = u_id (sample_user 2 "brom" None)
        ∧ n' = set_read n
        ∧ notifications (session w') = l1 ++ set_read n :: l2
        ∧ committed w' = session w'
  end.
Proof.
  apply (mark_notification_read_touches_own_row (sample_user 2 "brom" None)
           1 (digest_world 30)).
  unfold distinct_ids. by apply (bool_decide_unpack _).
Defined.

(** A page of the caller's notifications: every row is a stored
    notification of the caller, unread unless read ones were asked for;
    the page has at most [limit] rows, newest first; nothing is written. *)
Theorem read_my_notifications_page (current_user : User) (skip limit : nat)
  (include_read : bool) (w : World) :
  ∃ page,
    read_my_notifications current_user skip limit include_read w = Ok page w
    ∧ Forall (λ n, n ∈ notifications (session w)
                   ∧ n_user_id n = u_id current_user
                   ∧ (include_read = false → n_is_read n = false)) page
    ∧ (length page ≤ limit)%nat
    ∧ StronglySorted (λ a b, utc_instant (n_timestamp b)
                             ≤ utc_instant (n_timestamp a)) page.
Proof.
  unfold read_my_notifications, get_notifications_for_user, db_read.
  eexists. split; [reflexivity|]. split; [|split].
  - apply Forall_forall. intros n Hn.
    apply elem_of_offset_limit in Hn. unfold order_by_desc in Hn.
    apply elem_of_order_by, list_elem_of_filter in Hn as [Hb Hn].
    apply andb_true_iff in Hb as [Hu%Z.eqb_eq Hr].
    repeat split; try done. intros ->. simpl in Hr.
    by destruct (n_is_read n).
  - apply length_offset_limit.
  - apply offset_limit_sorted, order_by_desc_sorted.
Qed.



(** ** The digest, once more *)

Lemma insert_by_timestamp_eq n l :
  insert_by_timestamp n l
  = insert_by (λ n, utc_instant (n_timestamp n)) n l.
Proof. induction l as [|m r IH]; simpl; [done|]. by rewrite IH. Qed.

Lemma order_by_timestamp_eq l :
  order_by_timestamp l = order_by (λ n, utc_instant (n_timestamp n)) l.
Proof.
  induction l as [|m r IH]; simpl; [done|].
  by rewrite insert_by_timestamp_eq, IH.
Qed.

Lemma str_in_spec s l : str_in s l = true ↔ s ∈ l.
Proof.
  unfold str_in. rewrite existsb_exists. split.
  - intros (y & Hy & ->%String.eqb_eq). by apply list_elem_of_In.
  - intros H. exists s. split; [by apply list_elem_of_In|apply String.eqb_refl].
Qed.

Lemma digest_filter_spec user_id since excluded_types included_types n :
  digest_filter user_id since excluded_types included_types n = true ↔
  n_user_id n = user_id
  ∧ n_emailed_in_digest n = false
  ∧ (n_type n ∉ excluded_types)
  ∧ (included_types ≠ [] → n_type n ∈ included_types)
  ∧ (∀ t, since = Some t → utc_instant t < utc_instant (n_timestamp n)).
Proof.
  unfold digest_filter. rewrite !andb_true_iff, Z.eqb_eq, negb_true_iff.
  assert (He : (if is_empty excluded_types then true
                else negb (str_in (n_type n) excluded_types)) = true
               ↔ n_type n ∉ excluded_types).
  { destruct excluded_types as [|x r]; simpl.
    - split; [intros _ []%elem_of_nil|done].
    - rewrite negb_true_iff, <- not_true_iff_false.
      by rewrite (str_in_spec (n_type n) (x :: r)). }
  assert (Hi : (if is_empty included_types then true
                else str_in (n_type n) included_types) = true
               ↔ (included_types ≠ [] → n_type n ∈ included_types)).
  { destruct included_types as [|x r]; simpl.
    - split; [done|done].
    - rewrite (str_in_spec (n_type n) (x :: r)). split; [done|].
      intros H. by apply H. }
  assert (Hs : match since with
               | Some t => utc_instant t <? utc_instant (n_timestamp n)
               | None => true
               end = true
               ↔ ∀ t, since = Some t →
                      utc_instant t < utc_instant (n_timestamp n)).
  { destruct since as [t|].
    - rewrite Z.ltb_lt. split; [by intros ? ? [= <-]|by intros H; apply H].
    - split; [done|done]. }
  rewrite He, Hi, Hs. tauto.
Qed.

Lemma get_notifications_for_digest_run (user_id : Z)
  (since : option datetime) (excluded_types included_types : list string)
  (w : World) :
  get_notifications_for_digest user_id since excluded_types included_types w
  = Ok (order_by (λ n, utc_instant (n_timestamp n))
          (filter (λ n, digest_filter user_id since excluded_types
                          included_types n = true)
                  (notifications (session w))))
       (set_sql_log (sql_log w ++ [SelectNotificationsForDigest user_id]) w).
Proof.
  unfold get_notifications_for_digest. unfold_monad.
  destruct w as [ses com dmc rpc wr bg dl rng log]. cbn.
  by rewrite order_by_timestamp_eq.
Qed.

(** X20. The rows the digest query returns are exactly the stored
    notifications of the user that are not yet marked as mailed, whose type
    is in none of the excluded types, is one of the included types when any
    are given (an empty list of included types filters nothing), and whose
    timestamp is strictly after [since] when one is given; they come oldest
    first, and the store is left as it was. *)
Theorem get_notifications_for_digest_spec (user_id : Z)
  (since : option datetime) (excluded_types included_types : list string)
  (w : World) :
  ∃ rows,
    get_notifications_for_digest user_id since excluded_types included_types w
      = Ok rows (set_sql_log (sql_log w
                              ++ [SelectNotificationsForDigest user_id]) w)
    ∧ (∀ n, n ∈ rows ↔
            n ∈ notifications (session w)
            ∧ n_user_id n = user_id
            ∧ n_emailed_in_digest n = false
            ∧ (n_type n ∉ excluded_types)
            ∧ (included_types ≠ [] → n_type n ∈ included_types)
            ∧ (∀ t, since = Some t →
                    utc_instant t < utc_instant (n_timestamp n)))
    ∧ StronglySorted (λ a b, utc_instant (n_timestamp a)
                             ≤ utc_instant (n_timestamp b)) rows.
Proof.
  rewrite get_notifications_for_digest_run.
  eexists. split; [reflexivity|]. split.
  - intros n. rewrite elem_of_order_by, list_elem_of_filter,
      digest_filter_spec. tauto.
  - apply order_by_sorted.
Qed.

Lemma mark_emailed_ids ids l : map n_id (map (mark_emailed ids) l) = map n_id l.
Proof.
  rewrite map_map. apply map_ext. intros n. unfold mark_emailed.
  by destruct (existsb _ _).
Qed.

(** X21. Marking what the digest query returned takes it out of the
    digest: once the ids of the rows a query returned are handed to
    [mark_notifications_as_emailed_in_digest], the same query returns no
    row.  With no row to mark, the call reports zero and touches nothing,
    not even by a commit; otherwise it commits.  The ids being distinct,
    the count it reports is the number of rows the query returned, and the
    ids and order of the table are as before. *)
Theorem marked_notifications_leave_the_digest (user_id : Z)
  (since : option datetime) (excluded_types included_types : list string)
  (w w1 : World) (rows : list Notification) :
  distinct_ids n_id (notifications (session w)) →
  get_notifications_for_digest user_id since excluded_types included_types w
    = Ok rows w1 →
  ∃ w2,
    mark_notifications_as_emailed_in_digest (map n_id rows) w1
      = Ok (Z.of_nat (length rows)) w2
    ∧ (rows = [] → w2 = w1)
    ∧ (rows ≠ [] → committed w2 = session w2)
    ∧ map n_id (notifications (session w2))
      = map n_id (notifications (session w))
    ∧ ∃ w3,
        get_notifications_for_digest user_id since excluded_types
          included_types w2 = Ok [] w3.
Proof.
  intros Hids Hq.
  rewrite get_notifications_for_digest_run in Hq. injection Hq as Hrows Hw1.
  set (P := λ n, digest_filter user_id since excluded_types included_types n
                 = true) in *.
  assert (Hmem : ∀ n, n ∈ rows ↔ n ∈ notifications (session w) ∧ P n).
  { intros n. rewrite <- Hrows, elem_of_order_by, list_elem_of_filter. tauto. }
  assert (Hnd : NoDup rows).
  { rewrite <- Hrows, order_by_perm. apply NoDup_filter.
    by eapply distinct_ids_NoDup. }
  assert (Hses : session w1 = session w) by (subst w1; by destruct w).
  set (ids := map n_id rows).
  assert (Hid : ∀ n, n ∈ notifications (session w) →
                     (existsb (Z.eqb (n_id n)) ids = true ↔ n ∈ rows)).
  { intros n Hn. rewrite existsb_eqb_elem_of. unfold ids. split.
    - intros (m & Heq & Hm)%list_elem_of_In%in_map_iff.
      apply list_elem_of_In in Hm.
      assert (m = n) as <-; [|done].
      apply (distinct_ids_inj n_id (notifications (session w))); try done.
      by apply Hmem.
    - intros H. apply list_elem_of_In, in_map. by apply list_elem_of_In. }
  assert (Hgone : ∀ w2, notifications (session w2)
                        = map (mark_emailed ids) (notifications (session w)) →
    ∃ w3, get_notifications_for_digest user_id since excluded_types
            included_types w2 = Ok [] w3).
  { intros w2 Hw2. rewrite get_notifications_for_digest_run. fold P.
    eexists. f_equal. rewrite Hw2.
    rewrite (filter_nil_Forall P); [done|].
    apply Forall_forall. intros n Hin HP.
    apply list_elem_of_In, in_map_iff in Hin as (m & Hm & Hmin).
    apply list_elem_of_In in Hmin. unfold mark_emailed in Hm.
    destruct (existsb (Z.eqb (n_id m)) ids) eqn:Ein; subst n.
    - unfold P in HP. apply digest_filter_spec in HP. simpl in HP.
      by destruct HP as (_ & ? & _).
    - assert (m ∈ rows) as Hrow by (by apply Hmem).
      apply Hid in Hrow; [congruence|done]. }
  destruct (decide (rows = [])) as [Erows|Erows].
  - unfold ids in *. clear ids Hrows. subst rows. simpl in *.
    exists w1. split; [done|]. split; [done|]. split; [done|].
    split; [by rewrite Hses|].
    apply Hgone. rewrite Hses. symmetry.
    etrans; [|apply map_id]. apply map_ext. intros n. done.
  - assert (Hcount : length (filter (λ n, existsb (Z.eqb (n_id n)) ids = true)
                               (notifications (session w))) = length rows).
    { apply Permutation_length, NoDup_Permutation; [|done|].
      - apply NoDup_filter. by eapply distinct_ids_NoDup.
      - intros n. rewrite list_elem_of_filter. split.
        + intros [H1 H2]. by apply Hid.
        + intros H. split; [|by apply Hmem].
          apply Hid; [by apply Hmem|done]. }
    unfold mark_notifications_as_emailed_in_digest. fold ids.
    assert (Hne : is_empty ids = false) by (unfold ids; by destruct rows).
    rewrite Hne. unfold_monad. rewrite Hses, Hcount.
    eexists. split; [reflexivity|].
    subst w1. destruct w as [ses com dmc rpc wr bg dl rng log]. cbn in *.
    split; [done|]. split; [done|].
    split; [apply mark_emailed_ids|].
    by apply Hgone.
Qed.

Lemma marked_notifications_leave_the_digest_witness :
  let rows := [sample_notification 1 1 "game_updated" (hours_ago sample_env 2);
               sample_notification 2 1 "player_joined_your_game"
                 (hours_ago sample_env 1)] in
  let w1 := set_sql_log [SelectNotificationsForDigest 1] (digest_world 25) in
  ∃ w2,
    mark_notifications_as_emailed_in_digest (map n_id rows) w1
      = Ok (Z.of_nat (length rows)) w2
    ∧ (rows = [] → w2 = w1)
    ∧ (rows ≠ [] → committed w2 = session w2)
    ∧ map n_id (notifications (session w2))
      = map n_id (notifications (session (digest_world 25)))
    ∧ ∃ w3,
        get_notifications_for_digest 1 (Some (hours_ago sample_env 25))
          EXCLUDED_FROM_DIGEST_TYPES DIGEST_NOTIFICATION_TYPES w2 = Ok [] w3.
Proof.
  apply (marked_notifications_leave_the_digest 1
           (Some (hours_ago sample_env 25))
           EXCLUDED_FROM_DIGEST_TYPES DIGEST_NOTIFICATION_TYPES
           (digest_world 25)).
  - unfold distinct_ids. by apply (bool_decide_unpack _).
  - vm_compute. reflexivity.
Defined.

Lemma set_sql_log_twice l1 l2 w :
  set_sql_log l2 (set_sql_log l1 w) = set_sql_log l2 w.
Proof. by destruct w. Qed.

Lemma set_sql_log_self w : set_sql_log (sql_log w) w = w.
Proof. by destruct w. Qed.

Lemma send_digests_log_only env user w :
  ∃ log', world_of (_send_digests_for_user env user w) = set_sql_log log' w.
Proof.
  rewrite send_digests_for_user_never_sends. cbv zeta.
  destruct (is_empty _); eexists; reflexivity.
Qed.

Lemma digest_for_log_only env user w :
  ∃ log', world_of (digest_for env user w) = set_sql_log log' w.
Proof.
  unfold digest_for. unfold_monad.
  destruct (digest_not_yet_due env user) as [e|[|]]; simpl.
  - exists (sql_log w). by rewrite set_sql_log_self.
  - exists (sql_log w). by rewrite set_sql_log_self.
  - apply send_digests_log_only.
Qed.

Lemma for_each_digest_log_only env users w :
  ∃ log', world_of (for_each users (digest_for env) w) = set_sql_log log' w.
Proof.
  revert w. induction users as [|u r IH]; intros w.
  - exists (sql_log w). simpl. by rewrite set_sql_log_self.
  - destruct (digest_for_log_only env u w) as [l Hl].
    cbn [for_each].
    destruct (digest_for env u w) as [[] w1|e w1] eqn:E; simpl in Hl.
    + rewrite (bind_Ok _ _ _ _ _ E). destruct (IH w1) as [l' Hl'].
      exists l'. by rewrite Hl', Hl, set_sql_log_twice.
    + rewrite (bind_Raise _ _ _ _ _ E). by exists l.
Qed.

(** X22. As the code stands a digest run leaves no trace but its
    queries: whatever the clock, the users and their notifications, after
    [_scheduled_digest_sender_task] (and after [_send_digests_for_user]
    for any one user) the world differs from the one before in the
    statement log at most.  So no digest mail is delivered, no notification
    is marked as mailed and no user's last-digest time is set. *)
Theorem digest_run_leaves_no_trace (env : Env) (w : World) :
  (∀ user, ∃ log',
     world_of (_send_digests_for_user env user w) = set_sql_log log' w)
  ∧ ∃ log',
      world_of (_scheduled_digest_sender_task env w) = set_sql_log log' w.
Proof.
  split; [intros user; apply send_digests_log_only|].
  unfold _scheduled_digest_sender_task. unfold_monad.
  match goal with
  | |- ∃ log', world_of (for_each ?us _ ?w1) = _ =>
      destruct (for_each_digest_log_only env us w1) as [l Hl]
  end.
  exists l. rewrite Hl. by rewrite set_sql_log_twice.
Qed.

(** X23. The block that sends and records a digest always returns
    normally.  With the mailer initialised it records the digest whether
    or not the transport took the mail: the mail is delivered only if the
    transport accepts it, yet in both cases every notification whose id
    was handed in is marked as mailed, every row of the user carries the
    current time as last-digest time, and this is committed.  Without an
    initialised mailer the session is rolled back to the committed state
    and nothing is delivered. *)
Theorem send_and_record_digest_records_regardless (env : Env) (user : User)
  (mail : Email) (notifications_to_send : list Notification) (w : World) :
  ∃ w',
    send_and_record_digest env user mail notifications_to_send w = Ok tt w'
    ∧ if fm_instance env
      then delivered_mail w'
           = delivered_mail w ++ (if smtp_accepts env mail then [mail] else [])
           ∧ committed w' = session w'
           ∧ Forall (λ n, n_id n ∈ map n_id notifications_to_send →
                          n_emailed_in_digest n = true)
                    (notifications (session w'))
           ∧ Forall (λ u, u_id u = u_id user →
                          u_last_digest_sent_at u = Some (func_now env))
                    (users (session w'))
      else session w' = committed w ∧ committed w' = committed w
           ∧ delivered_mail w' = delivered_mail w.
Proof.
  assert (Hmarked : ∀ l,
    Forall (λ n, n_id n ∈ map n_id notifications_to_send →
                 n_emailed_in_digest n = true)
           (map (mark_emailed (map n_id notifications_to_send)) l)).
  { intros l. apply Forall_forall. intros n Hn Hid.
    apply list_elem_of_In, in_map_iff in Hn as (m & <- & _).
    unfold mark_emailed in *.
    destruct (existsb _ _) eqn:E; [done|].
    apply existsb_eqb_elem_of in Hid. simpl in Hid. congruence. }
  assert (Hunmarked : is_empty (map n_id notifications_to_send) = true →
    ∀ l : list Notification,
      Forall (λ n, n_id n ∈ map n_id notifications_to_send →
                   n_emailed_in_digest n = true) l).
  { intros ->%is_empty_true l. apply Forall_forall.
    by intros n _ ?%elem_of_nil. }
  assert (Htouched : ∀ l,
    Forall (λ u, u_id u = u_id user →
                 u_last_digest_sent_at u = Some (func_now env))
           (map (touch_last_digest env (u_id user)) l)).
  { intros l. apply Forall_forall. intros u Hu Hid.
    apply list_elem_of_In, in_map_iff in Hu as (m & <- & _).
    unfold touch_last_digest in *.
    destruct (Z.eqb_spec (u_id m) (u_id user)); [done|]. done. }
  assert (Huntouched : ∀ l : list User,
    find (λ u, u_id u =? u_id user) l = None →
    Forall (λ u, u_id u = u_id user →
                 u_last_digest_sent_at u = Some (func_now env)) l).
  { intros l Hnone. apply Forall_forall. intros u Hu Hid.
    apply list_elem_of_In in Hu. eapply find_none in Hnone; [|exact Hu].
    simpl in Hnone. apply Z.eqb_neq in Hnone. done. }
  unfold send_and_record_digest, send_email_notification,
    mark_notifications_as_emailed_in_digest,
    update_user_last_digest_sent_time, get_user_by_id.
  unfold_monad. destruct w as [ses com dmc rpc wr bg dl rng log].
  destruct (fm_instance env); cbn.
  2: { eexists. split; [reflexivity|]. done. }
  destruct (smtp_accepts env mail); cbn;
    destruct (is_empty (map n_id notifications_to_send)) eqn:Eids; cbn;
    destruct (find (λ u, u_id u =? u_id user) (users ses)) eqn:Eu; cbn;
    (eexists; split; [reflexivity|]); cbn;
    rewrite ?app_nil_r; repeat split; auto.
Qed.

(** X24. What the next run makes of a user the digest has just stamped:
    the row [update_user_last_digest_sent_time] returns carries the time of
    the datastore.  If the datastore hands back aware timestamps, the test
    that opens the loop skips the user until 23 hours have passed on the
    clock and no longer; if it hands back naive ones, the comparison with
    the aware current time raises [TypeError]. *)
Theorem stamped_user_in_next_run (env env' : Env) (user_id : Z)
  (w w' : World) (user : User) :
  update_user_last_digest_sent_time env user_id w = Ok (Some user) w' →
  u_id user = user_id
  ∧ committed w' = session w'
  ∧ digest_not_yet_due env' user
    = if tz_aware_columns env
      then inr (clock env' <? clock env + timedelta_hours 23)
      else inl (TypeError
                  "can't compare offset-naive and offset-aware datetimes").
Proof.
  unfold update_user_last_digest_sent_time, get_user_by_id. unfold_monad.
  destruct w as [ses com dmc rpc wr bg dl rng log]. cbn.
  destruct (find (λ u, u_id u =? user_id) (users ses)) as [u|] eqn:Eu;
    [|done].
  pose proof (find_user_id _ _ _ Eu) as Hid.
  cbn. intros [= <- <-]. cbn.
  unfold touch_last_digest. rewrite (proj2 (Z.eqb_eq _ _) Hid).
  split; [done|]. split; [done|].
  unfold digest_not_yet_due, func_now, datetime_lt, datetime_now_utc,
    datetime_add, DIGEST_PERIOD_HOURS. cbn.
  destruct (tz_aware_columns env); cbn; [|done].
  by rewrite !Z.sub_0_r.
Qed.

Lemma stamped_user_in_next_run_witness :
  let user := touch_last_digest sample_env 1
                (sample_user 1 "ayla" (Some (hours_ago sample_env 25))) in
  u_id user = 1
  ∧ committed (world_of (update_user_last_digest_sent_time sample_env 1
                           (digest_world 25)))
    = session (world_of (update_user_last_digest_sent_time sample_env 1
                           (digest_world 25)))
  ∧ digest_not_yet_due sample_env user
    = if tz_aware_columns sample_env
      then inr (clock sample_env <? clock sample_env + timedelta_hours 23)
      else inl (TypeError
                  "can't compare offset-naive and offset-aware datetimes").
Proof.
  apply (stamped_user_in_next_run sample_env sample_env 1 (digest_world 25)
           (world_of (update_user_last_digest_sent_time sample_env 1
                        (digest_world 25)))).
  vm_compute. reflexivity.
Defined.

(** ** The socket endpoints *)

(** X25. The life of a direct-message socket.  The handler never
    raises and never touches the store or the wire.  A token that cannot
    be decoded, lacks its [sub] or [user_id] entry, or names a user id that
    is not in the table gets the socket closed with code 1008 and the
    registry is as before; the [sub] entry need only be present, it is not
    compared with the user found.  Otherwise the socket is registered under
    the user id, replacing any earlier one, and while the client sends
    texts the handler waits; the first disconnect or error takes the
    user's entry out of the registry, the error closing with code 1011. *)
Theorem websocket_dm_endpoint_lifecycle (websocket : WebSocket)
  (payload : option (option string * option Z)) (inbox : list Received)
  (w : World) :
  ∃ outcome w',
    websocket_dm_endpoint websocket payload inbox w = Ok outcome w'
    ∧ session w' = session w ∧ committed w' = committed w
    ∧ wire w' = wire w ∧ rp_connections w' = rp_connections w
    ∧ match payload with
      | Some (Some _, Some user_id) =>
          match find (λ u, u_id u =? user_id) (users (session w)),
                receive_loop inbox with
          | None, _ =>
              outcome = Closed WS_1008_POLICY_VIOLATION
              ∧ dm_connections w' = dm_connections w
          | Some _, None =>
              outcome = Waiting
              ∧ dm_connections w' = <[user_id := websocket]> (dm_connections w)
          | Some _, Some ending =>
              outcome = match ending with
                        | Disconnected => Finished
                        | Errored => Closed WS_1011_INTERNAL_ERROR
                        end
              ∧ dm_connections w' = delete user_id (dm_connections w)
          end
      | _ =>
          outcome = Closed WS_1008_POLICY_VIOLATION
          ∧ dm_connections w' = dm_connections w
      end.
Proof.
  unfold websocket_dm_endpoint, get_current_user_from_token_for_ws,
    get_user_by_id, ConnectionManager.connect, ConnectionManager.disconnect.
  unfold_monad. destruct w as [ses com dmc rpc wr bg dl rng log].
  destruct payload as [[[name|] [user_id|]]|]; cbn;
    try (do 2 eexists; split; [reflexivity|]; by cbn).
  destruct (find (λ u, u_id u =? user_id) (users ses)) as [user|] eqn:Eu;
    cbn; [|do 2 eexists; split; [reflexivity|]; by cbn].
  pose proof (find_user_id _ _ _ Eu) as ->.
  destruct (receive_loop inbox) as [[|]|]; cbn;
    rewrite ?lookup_insert_eq; cbn;
    (do 2 eexists; split; [reflexivity|]); cbn;
    repeat split; by rewrite ?delete_insert_eq.
Qed.

Lemma connect_disconnect_channel ws c (ac : gmap string (list WebSocket)) :
  no_empty_channel ac →
  ws ∉ default [] (ac !! c) →
  settled c (list_remove ws (default [] (ac !! c) ++ [ws]))
    (<[c := default [] (ac !! c) ++ [ws]]> ac) = ac.
Proof.
  intros Hinv Hnot. rewrite list_remove_middle by done. rewrite app_nil_r.
  unfold settled. apply map_eq. intros c'.
  destruct (ac !! c) as [l|] eqn:E; simpl in *.
  - assert (is_empty l = false) as -> by (destruct l; [by destruct (Hinv c [])|done]).
    destruct (decide (c = c')) as [<-|Hne].
    + by rewrite lookup_insert_eq.
    + by rewrite !lookup_insert_ne.
  - destruct (decide (c = c')) as [<-|Hne].
    + by rewrite lookup_delete_eq.
    + by rewrite lookup_delete_ne, lookup_insert_ne.
Qed.

(** X26. The life of a roleplay socket, on a registry without empty
    channels.  The handler never raises.  While the client sends texts the
    socket is the last entry of its channel's list.  Once the loop has
    ended, by a disconnect or by an error, the socket is unregistered: if
    it was not in the channel before, the registry is exactly as it was
    before the connection, the channel's key included.  At either point no
    channel has an empty list and the other channels are untouched. *)
Theorem websocket_rp_chat_endpoint_lifecycle (websocket : WebSocket)
  (channel_id : string) (inbox : list Received) (w : World) :
  no_empty_channel (rp_connections w) →
  ∃ outcome w',
    websocket_rp_chat_endpoint websocket channel_id inbox w = Ok outcome w'
    ∧ no_empty_channel (rp_connections w')
    ∧ (∀ c, c ≠ channel_id → rp_connections w' !! c = rp_connections w !! c)
    ∧ dm_connections w' = dm_connections w ∧ session w' = session w
    ∧ match receive_loop inbox with
      | None =>
          outcome = Waiting
          ∧ rp_connections w' !! channel_id
            = Some (default [] (rp_connections w !! channel_id)
                    ++ [websocket])
      | Some _ =>
          outcome = Finished
          ∧ (websocket ∉ default [] (rp_connections w !! channel_id) →
             rp_connections w' = rp_connections w)
      end.
Proof.
  intros Hinv. unfold websocket_rp_chat_endpoint.
  pose proof (connect_channel_spec websocket channel_id w) as Hc.
  set (l1 := default [] (rp_connections w !! channel_id) ++ [websocket]) in *.
  set (w1 := set_rp_connections (<[channel_id := l1]> (rp_connections w)) w)
    in *.
  assert (Hinv1 : no_empty_channel (rp_connections w1)).
  { apply (apply_op_channel (ChannelConnect websocket channel_id) w w1);
      [exact Hc|done]. }
  rewrite (bind_Ok _ _ _ _ _ Hc).
  destruct (receive_loop inbox) as [ending|].
  - destruct (RpConnectionManager.disconnect websocket channel_id w1)
      as [[] w2|e w2] eqn:Hd.
    2: { unfold RpConnectionManager.disconnect, modify in Hd. done. }
    rewrite (bind_Ok _ _ _ _ _ Hd).
    exists Finished, w2. split; [done|].
    assert (Hinv2 : no_empty_channel (rp_connections w2)).
    { apply (apply_op_channel (ChannelDisconnect websocket channel_id) w1 w2);
        [exact Hd|done]. }
    unfold RpConnectionManager.disconnect, modify in Hd.
    assert (Hl1 : rp_connections w1 !! channel_id = Some l1).
    { destruct w. unfold w1. cbn. by rewrite lookup_insert_eq. }
    rewrite Hl1 in Hd.
    assert (Hin : list_in websocket l1 = true).
    { apply list_in_spec, elem_of_app. right. by left. }
    rewrite Hin in Hd. injection Hd as <-.
    destruct w as [ses com dmc rpc wr bg dl rng log]. cbn in *.
    split; [done|]. split; [|split; [done|split; [done|split; [done|]]]].
    + intros c Hne.
      destruct (is_empty (list_remove websocket l1)).
      * by rewrite lookup_delete_ne, lookup_insert_ne.
      * by rewrite !lookup_insert_ne.
    + intros Hnot.
      by apply (connect_disconnect_channel websocket channel_id rpc).
  - exists Waiting, w1. split; [done|]. split; [done|].
    destruct w as [ses com dmc rpc wr bg dl rng log]. cbn in *.
    split; [by intros c Hne; rewrite lookup_insert_ne|].
    split; [done|]. split; [done|]. split; [done|].
    by rewrite lookup_insert_eq.
Qed.

Lemma websocket_rp_chat_endpoint_lifecycle_witness :
  ∃ outcome w',
    websocket_rp_chat_endpoint 9%nat "tavern"
      [ReceivedText "ping"; ReceivedDisconnect] tavern_world = Ok outcome w'
    ∧ no_empty_channel (rp_connections w')
    ∧ (∀ c, c ≠ "tavern" →
            rp_connections w' !! c = rp_connections tavern_world !! c)
    ∧ dm_connections w' = dm_connections tavern_world
    ∧ session w' = session tavern_world
    ∧ match receive_loop [ReceivedText "ping"; ReceivedDisconnect] with
      | None =>
          outcome = Waiting
          ∧ rp_connections w' !! "tavern"
            = Some (default [] (rp_connections tavern_world !! "tavern")
                    ++ [9%nat])
      | Some _ =>
          outcome = Finished
          ∧ (9%nat ∉ default [] (rp_connections tavern_world !! "tavern") →
             rp_connections w' = rp_connections tavern_world)
      end.
Proof.
  apply (websocket_rp_chat_endpoint_lifecycle 9%nat "tavern"
           [ReceivedText "ping"; ReceivedDisconnect] tavern_world).
  intros c l. unfold tavern_world. cbn.
  by intros [_ <-]%lookup_singleton_Some.
Defined.

(** ** Games and their chat *)

Lemma get_game_by_id_Some games game_id game :
  get_game_by_id games game_id = Some game →
  game ∈ games ∧ g_id game = game_id.
Proof.
  unfold get_game_by_id. intros [Hin Hid%Z.eqb_eq]%find_some.
  split; [by apply list_elem_of_In|done].
Qed.

Lemma is_player_of_spec user_id game :
  is_player_of user_id game = true ↔ user_id ∈ g_players game.
Proof. unfold is_player_of. apply existsb_eqb_elem_of. Qed.

Lemma is_participant_spec current_user game :
  is_participant current_user game = true ↔
  g_master_id game = u_id current_user ∨ u_id current_user ∈ g_players game.
Proof.
  unfold is_participant. cbv zeta.
  by rewrite orb_true_iff, Z.eqb_eq, is_player_of_spec.
Qed.

Lemma create_game_message_spec env w content dn role av game_id sender_id :
  let m := game_row env w game_id sender_id content dn role av in
  create_game_message env content dn role av game_id sender_id w
  = Ok (Some m) (with_game_message m w).
Proof.
  intros m. unfold create_game_message. unfold_monad.
  cbn [session game_messages set_session set_sql_log set_committed
       set_game_messages].
  fold (game_row env w game_id sender_id content dn role av). fold m.
  rewrite (find_new_game_message m) by done.
  f_equal. unfold with_game_message. destruct w; simpl.
  by rewrite <- app_assoc.
Qed.

(** X27. The game chat takes messages from participants only.  A
    request for a game that does not exist is refused with HTTP 404, one
    from a user who neither leads the game nor plays in it with HTTP 403,
    and in both cases the world is as before.  Otherwise exactly one row is
    committed, for that game, with the caller as sender and the content
    given; it is the row returned, and the caller then finds it in the
    game's messages when reading from the first row with a limit that
    covers the table. *)
Theorem send_message_to_game_is_for_participants (env : Env)
  (games : list Game) (current_user : User) (game_id : Z) (content : string)
  (sender_display_name sender_role sender_avatar_url : option string)
  (w : World) :
  let row := game_row env w game_id (Some (u_id current_user)) content
               sender_display_name sender_role sender_avatar_url in
  match send_message_to_game env games current_user game_id content
          sender_display_name sender_role sender_avatar_url w with
  | Ok answer w' =>
      (∃ game, get_game_by_id games game_id = Some game
               ∧ (g_master_id game = u_id current_user
                  ∨ u_id current_user ∈ g_players game))
      ∧ answer = Some row
      ∧ game_messages (committed w') = game_messages (session w) ++ [row]
      ∧ session w' = committed w'
      ∧ ∀ limit, (length (game_messages (session w)) < limit)%nat →
          ∃ page, get_messages_for_game games current_user game_id 0 limit w'
                  = Ok page w'
                  ∧ row ∈ page
  | Raise e w' =>
      w' = w
      ∧ ((e = game_not_found ∧ get_game_by_id games game_id = None)
         ∨ (e = HTTPException 403
                  "Not authorized to send messages to this game"
            ∧ ∃ game, get_game_by_id games game_id = Some game
                      ∧ g_master_id game ≠ u_id current_user
                      ∧ u_id current_user ∉ g_players game))
  end.
Proof.
  cbv zeta. unfold send_message_to_game, get_messages_for_game.
  destruct (get_game_by_id games game_id) as [game|] eqn:Eg;
    [|split; [done|by left]].
  destruct (is_participant current_user game) eqn:Ep; cbn [negb].
  - rewrite create_game_message_spec. cbv zeta.
    apply is_participant_spec in Ep.
    split; [by exists game|]. split; [done|].
    unfold with_game_message. destruct w as [ses com dmc rpc wr bg dl rng log].
    cbn [session committed game_messages set_committed set_session
         set_sql_log set_game_messages].
    split; [done|]. split; [done|].
    intros limit Hlimit. unfold get_game_messages, db_read.
    cbn [session committed game_messages set_committed set_session
         set_sql_log set_game_messages negb].
    eexists. split; [reflexivity|].
    rewrite offset_limit_all.
    + apply elem_of_order_by, list_elem_of_filter. split.
      * simpl. apply Z.eqb_refl.
      * apply elem_of_app. right. by left.
    + rewrite order_by_perm. etrans; [apply length_filter|].
      rewrite length_app. simpl. lia.
  - split; [done|]. right. split; [done|]. exists game. split; [done|].
    assert (Hn : ¬ (g_master_id game = u_id current_user
                    ∨ u_id current_user ∈ g_players game)).
    { rewrite <- is_participant_spec. congruence. }
    tauto.
Qed.

(** X28. The messages of a game are shown to participants only: HTTP
    404 for a game that does not exist and HTTP 403 for a caller who
    neither leads nor plays, the world being as before.  A page that is
    returned holds stored messages of that game only, at most [limit] of
    them, oldest first, and nothing is written. *)
Theorem get_messages_for_game_page (games : list Game) (current_user : User)
  (game_id : Z) (skip limit : nat) (w : World) :
  match get_messages_for_game games current_user game_id skip limit w with
  | Ok page w' =>
      w' = w
      ∧ (∃ game, get_game_by_id games game_id = Some game
                 ∧ (g_master_id game = u_id current_user
                    ∨ u_id current_user ∈ g_players game))
      ∧ Forall (λ m, m ∈ game_messages (session w) ∧ gm_game_id m = game_id)
               page
      ∧ (length page ≤ limit)%nat
      ∧ StronglySorted (λ a b, utc_instant (gm_timestamp a)
                               ≤ utc_instant (gm_timestamp b)) page
  | Raise e w' =>
      w' = w
      ∧ ((e = game_not_found ∧ get_game_by_id games game_id = None)
         ∨ (e = HTTPException 403
                  "Not authorized to view messages for this game"
            ∧ ∃ game, get_game_by_id games game_id = Some game
                      ∧ g_master_id game ≠ u_id current_user
                      ∧ u_id current_user ∉ g_players game))
  end.
Proof.
  unfold get_messages_for_game.
  destruct (get_game_by_id games game_id) as [game|] eqn:Eg;
    [|split; [done|by left]].
  destruct (is_participant current_user game) eqn:Ep; cbn [negb].
  - apply is_participant_spec in Ep. unfold get_game_messages, db_read.
    split; [done|]. split; [by exists game|]. split; [|split].
    + apply Forall_forall. intros m Hm.
      apply elem_of_offset_limit, elem_of_order_by, list_elem_of_filter in Hm
        as [Hg%Z.eqb_eq Hm]. done.
    + apply length_offset_limit.
    + apply offset_limit_sorted, order_by_sorted.
  - split; [done|]. right. split; [done|]. exists game. split; [done|].
    assert (Hn : ¬ (g_master_id game = u_id current_user
                    ∨ u_id current_user ∈ g_players game)).
    { rewrite <- is_participant_spec. congruence. }
    tauto.
Qed.

Lemma set_players_same game : set_players (g_players game) game = game.
Proof. by destruct game. Qed.

Lemma replace_game_ids games game updated :
  g_id updated = g_id game →
  map g_id (map (λ g, if g_id g =? g_id game then updated else g) games)
  = map g_id games.
Proof.
  intros Hid. rewrite map_map. apply map_ext. intros g.
  destruct (Z.eqb_spec (g_id g) (g_id game)); congruence.
Qed.

Lemma replace_game_lookup games game updated game_id :
  get_game_by_id games game_id = Some game →
  g_id updated = g_id game →
  get_game_by_id
    (map (λ g, if g_id g =? g_id game then updated else g) games) game_id
  = Some updated.
Proof.
  intros Hget Hid.
  destruct (get_game_by_id_Some _ _ _ Hget) as [_ <-].
  unfold get_game_by_id in *. induction games as [|g r IH]; [done|].
  simpl in *.
  destruct (Z.eqb_spec (g_id g) (g_id game)) as [Heq|Hne]; simpl.
  - by rewrite Hid, Z.eqb_refl.
  - rewrite (proj2 (Z.eqb_neq _ _) Hne). by apply IH.
Qed.

Lemma replace_game_wf games game updated :
  games_wf games →
  g_id updated = g_id game →
  NoDup (g_players updated) →
  g_master_id updated ∉ g_players updated →
  games_wf (map (λ g, if g_id g =? g_id game then updated else g) games).
Proof.
  intros [Hids Hall] Hid Hnd Hm. split.
  - unfold distinct_ids. by rewrite replace_game_ids.
  - apply Forall_forall. intros g Hg.
    apply list_elem_of_In, in_map_iff in Hg as (g0 & <- & Hg0).
    destruct (g_id g0 =? g_id game); [done|].
    eapply Forall_forall in Hall; [exact Hall|by apply list_elem_of_In].
Qed.

Lemma replace_game_same games game :
  distinct_ids g_id games → game ∈ games →
  map (λ g, if g_id g =? g_id game then game else g) games = games.
Proof.
  intros Hids Hin. etrans; [|apply map_id].
  apply map_ext_in. intros g Hg%list_elem_of_In.
  destruct (Z.eqb_spec (g_id g) (g_id game)) as [Heq|]; [|done].
  symmetry. by apply (distinct_ids_inj g_id games).
Qed.

Lemma remove_id_subseteq x y l : x ∈ remove_id y l → x ∈ l.
Proof.
  induction l as [|z r IH]; simpl; [done|].
  destruct (y =? z); [by right|].
  intros [->|H]%elem_of_cons; [by left|]. right. by apply IH.
Qed.

Lemma NoDup_remove_id y l : NoDup l → NoDup (remove_id y l).
Proof.
  induction 1 as [|z r Hz Hr IH]; simpl; [constructor|].
  destruct (y =? z); [done|]. constructor; [|done].
  intros H. by apply Hz, (remove_id_subseteq _ y).
Qed.

Lemma not_elem_of_remove_id y l : NoDup l → y ∉ remove_id y l.
Proof.
  induction 1 as [|z r Hz Hr IH]; simpl; [by intros ?%elem_of_nil|].
  destruct (Z.eqb_spec y z) as [->|Hne]; [done|].
  by intros [?|?]%elem_of_cons.
Qed.

Lemma remove_id_last y l : y ∉ l → remove_id y (l ++ [y]) = l.
Proof.
  induction l as [|z r IH]; simpl; [by rewrite Z.eqb_refl|].
  intros [Hne Hr]%not_elem_of_cons.
  rewrite (proj2 (Z.eqb_neq _ _) Hne). by rewrite IH.
Qed.

(** X29. Joining a game, on a well-formed games table.  The request is
    refused, with the world as before, for a game that does not exist
    (404), for the game's own master (400) and for someone who already
    plays (400).  Otherwise the caller is appended to the players of that
    game and of no other, the table stays well formed, the game returned is
    the stored one and the caller is now a participant of its chat; and
    leaving straight away gives back the games table as it was before the
    join. *)
Theorem join_game_adds_one_player (games : list Game) (current_user : User)
  (game_id : Z) (w : World) :
  games_wf games →
  match join_game games current_user game_id w with
  | Ok (answer, games') w' =>
      games_wf games'
      ∧ map g_id games' = map g_id games
      ∧ (∀ g, g ∈ games' → g_id g ≠ game_id → g ∈ games)
      ∧ ∃ game game',
          get_game_by_id games game_id = Some game
          ∧ answer = Some game'
          ∧ get_game_by_id games' game_id = Some game'
          ∧ g_players game' = g_players game ++ [u_id current_user]
          ∧ is_participant current_user game' = true
          ∧ ∃ w'', leave_game games' current_user game_id w'
                   = Ok (Some game, games) w''
  | Raise e w' =>
      w' = w
      ∧ ((e = game_not_found ∧ get_game_by_id games game_id = None)
         ∨ (e = HTTPException 400
                  "Game master cannot join their own game as a player"
            ∧ ∃ game, get_game_by_id games game_id = Some game
                      ∧ g_master_id game = u_id current_user)
         ∨ (e = HTTPException 400 "User is already a player in this game"
            ∧ ∃ game, get_game_by_id games game_id = Some game
                      ∧ u_id current_user ∈ g_players game))
  end.
Proof.
  intros Hwf. unfold join_game.
  destruct (get_game_by_id games game_id) as [game|] eqn:Eg;
    [|split; [done|by left]].
  destruct (get_game_by_id_Some _ _ _ Eg) as [Hin Hgid].
  destruct (Z.eqb_spec (g_master_id game) (u_id current_user)) as [Hm|Hm].
  { split; [done|]. right. left. eauto. }
  destruct (is_player_of (u_id current_user) game) eqn:Ep.
  { apply is_player_of_spec in Ep. split; [done|]. right. right. eauto. }
  assert (Hnot : u_id current_user ∉ g_players game).
  { rewrite <- is_player_of_spec. congruence. }
  destruct Hwf as [Hids Hall].
  assert (Hgame : NoDup (g_players game) ∧ g_master_id game ∉ g_players game).
  { eapply Forall_forall in Hall; [exact Hall|done]. }
  destruct Hgame as [Hnd Hmaster].
  unfold add_player_to_game. unfold_monad. cbn.
  set (updated := set_players (g_players game ++ [u_id current_user]) game).
  set (games' := map (λ g, if g_id g =? g_id game then updated else g) games).
  assert (Hlook : get_game_by_id games' game_id = Some updated).
  { by apply replace_game_lookup. }
  rewrite Hgid, Hlook.
  assert (Hwf' : games_wf games').
  { apply replace_game_wf; [done|done| |].
    - simpl. apply NoDup_app. split; [done|]. split; [|apply NoDup_singleton].
      intros x Hx [->|[]%elem_of_nil]%elem_of_cons. done.
    - simpl. intros [?|[?|[]%elem_of_nil]%elem_of_cons]%elem_of_app; done. }
  split; [done|]. split; [by apply replace_game_ids|]. split.
  { intros g Hg Hne.
    apply list_elem_of_In, in_map_iff in Hg as (g0 & Hg0 & Hin0).
    destruct (Z.eqb_spec (g_id g0) (g_id game)) as [Heq|_].
    - subst g. simpl in Hne. congruence.
    - subst g. by apply list_elem_of_In. }
  exists game, updated. split; [done|]. split; [done|]. split; [done|].
  split; [done|]. split.
  { apply is_participant_spec. right. simpl. apply elem_of_app.
    right. by left. }
  unfold leave_game. rewrite Hlook.
  assert (Hp : is_player_of (u_id current_user) updated = true).
  { apply is_player_of_spec. simpl. apply elem_of_app. right. by left. }
  rewrite Hp. cbn [negb]. unfold remove_player_from_game. rewrite Hp.
  unfold_monad. cbn.
  rewrite remove_id_last by done.
  assert (Hback : set_players (g_players game) updated = game).
  { unfold updated. by destruct game. }
  rewrite Hback.
  assert (Hgames : map (λ g, if g_id g =? g_id game then game else g) games'
                   = games).
  { unfold games'. rewrite map_map. etrans; [|apply map_id].
    apply map_ext_in. intros g Hg%list_elem_of_In.
    destruct (Z.eqb_spec (g_id g) (g_id game)) as [Heq|Hne].
    - simpl. rewrite Z.eqb_refl. symmetry.
      by apply (distinct_ids_inj g_id games).
    - by rewrite (proj2 (Z.eqb_neq _ _) Hne). }
  rewrite Hgames.
  assert (Hfound : get_game_by_id games (g_id game) = Some game)
    by (by rewrite Hgid).
  rewrite Hfound. eauto.
Qed.

Lemma join_game_adds_one_player_witness :
  match join_game sample_games (sample_user 9 "cato" None) 1 dm_world with
  | Ok (answer, games') w' =>
      games_wf games'
      ∧ map g_id games' = map g_id sample_games
      ∧ (∀ g, g ∈ games' → g_id g ≠ 1 → g ∈ sample_games)
      ∧ ∃ game game',
          get_game_by_id sample_games 1 = Some game
          ∧ answer = Some game'
          ∧ get_game_by_id games' 1 = Some game'
          ∧ g_players game'
            = g_players game ++ [u_id (sample_user 9 "cato" None)]
          ∧ is_participant (sample_user 9 "cato" None) game' = true
          ∧ ∃ w'', leave_game games' (sample_user 9 "cato" None) 1 w'
                   = Ok (Some game, sample_games) w''
  | Raise e w' =>
      w' = dm_world
      ∧ ((e = game_not_found ∧ get_game_by_id sample_games 1 = None)
         ∨ (e = HTTPException 400
                  "Game master cannot join their own game as a player"
            ∧ ∃ game, get_game_by_id sample_games 1 = Some game
                      ∧ g_master_id game = u_id (sample_user 9 "cato" None))
         ∨ (e = HTTPException 400 "User is already a player in this game"
            ∧ ∃ game, get_game_by_id sample_games 1 = Some game
                      ∧ u_id (sample_user 9 "cato" None) ∈ g_players game))
  end.
Proof.
  apply (join_game_adds_one_player sample_games (sample_user 9 "cato" None)
           1 dm_world).
  unfold games_wf, distinct_ids. by apply (bool_decide_unpack _).
Defined.

Lemma elem_of_remove_id_ne x y l : x ≠ y → x ∈ remove_id y l ↔ x ∈ l.
Proof.
  intros Hne. split; [apply remove_id_subseteq|].
  induction l as [|z r IH]; simpl; [done|].
  destruct (Z.eqb_spec y z) as [->|Hyz].
  - by intros [?|?]%elem_of_cons.
  - intros [->|H]%elem_of_cons; [by left|]. right. by apply IH.
Qed.

Lemma remove_player_effect games game user_id game_id w :
  games_wf games →
  get_game_by_id games game_id = Some game →
  user_id ∈ g_players game →
  ∃ updated games' w',
    remove_player_from_game games game user_id w = Ok (updated, games') w'
    ∧ session w' = session w
    ∧ g_id updated = game_id
    ∧ g_master_id updated = g_master_id game
    ∧ get_game_by_id games' game_id = Some updated
    ∧ games_wf games'
    ∧ map g_id games' = map g_id games
    ∧ (user_id ∉ g_players updated)
    ∧ ∀ x, x ≠ user_id → x ∈ g_players updated ↔ x ∈ g_players game.
Proof.
  intros Hwf Hget Hin.
  destruct (get_game_by_id_Some _ _ _ Hget) as [Hgin Hgid].
  assert (Hgame : NoDup (g_players game) ∧ g_master_id game ∉ g_players game).
  { destruct Hwf as [_ Hall].
    eapply Forall_forall in Hall; [exact Hall|done]. }
  destruct Hgame as [Hnd Hmaster].
  unfold remove_player_from_game.
  rewrite (proj2 (is_player_of_spec user_id game) Hin).
  unfold_monad. do 3 eexists. split; [reflexivity|].
  split; [by destruct w|]. split; [done|]. split; [done|].
  split; [by apply replace_game_lookup|]. split.
  { apply replace_game_wf; try done; simpl.
    - by apply NoDup_remove_id.
    - intros H. by apply Hmaster, (remove_id_subseteq _ user_id). }
  split; [by apply replace_game_ids|]. simpl.
  split; [by apply not_elem_of_remove_id|].
  intros x Hx. by apply elem_of_remove_id_ne.
Qed.

(** X30. Leaving a game and being removed from one, on a well-formed
    games table.  [leave_game] is refused for a game that does not exist
    (404) and for a caller who does not play in it (400), the world being
    as before; [gm_remove_player_from_game] is refused for a missing game
    (404), for a caller who is not its master (403), for an unknown user
    (404) and for a user who does not play (400), with nothing written.  A
    request that goes through takes that one user out of the players of
    that game, everyone else staying; the table remains well formed; and
    the user who left can no longer post to the game's chat: the attempt is
    answered with HTTP 403. *)
Theorem leaving_a_game_ends_participation (env : Env) (games : list Game)
  (current_user : User) (game_id player_user_id : Z) (w : World) :
  games_wf games →
  match leave_game games current_user game_id w with
  | Ok (answer, games') w' =>
      games_wf games' ∧ map g_id games' = map g_id games
      ∧ ∃ game game',
          get_game_by_id games game_id = Some game
          ∧ answer = Some game'
          ∧ get_game_by_id games' game_id = Some game'
          ∧ u_id current_user ∈ g_players game
          ∧ (u_id current_user ∉ g_players game')
          ∧ (∀ x, x ≠ u_id current_user →
                  x ∈ g_players game' ↔ x ∈ g_players game)
          ∧ ∀ content dn role av,
              send_message_to_game env games' current_user game_id content
                dn role av w'
              = Raise (HTTPException 403
                         "Not authorized to send messages to this game") w'
  | Raise e w' =>
      w' = w
      ∧ ((e = game_not_found ∧ get_game_by_id games game_id = None)
         ∨ (e = HTTPException 400 "User is not a player in this game"
            ∧ ∃ game, get_game_by_id games game_id = Some game
                      ∧ u_id current_user ∉ g_players game))
  end
  ∧ match gm_remove_player_from_game games current_user game_id
            player_user_id w with
    | Ok (answer, games') w' =>
        games_wf games' ∧ map g_id games' = map g_id games
        ∧ session w' = session w
        ∧ ∃ game game',
            get_game_by_id games game_id = Some game
            ∧ g_master_id game = u_id current_user
            ∧ answer = Some game'
            ∧ get_game_by_id games' game_id = Some game'
            ∧ player_user_id ∈ g_players game
            ∧ (player_user_id ∉ g_players game')
            ∧ (∀ x, x ≠ player_user_id →
                    x ∈ g_players game' ↔ x ∈ g_players game)
    | Raise e w' =>
        session w' = session w ∧ committed w' = committed w
        ∧ ((e = game_not_found ∧ get_game_by_id games game_id = None)
           ∨ (e = HTTPException 403 "Only the game master can remove players"
              ∧ ∃ game, get_game_by_id games game_id = Some game
                        ∧ g_master_id game ≠ u_id current_user)
           ∨ (e = HTTPException 404 "Player to remove not found"
              ∧ find (λ u, u_id u =? player_user_id) (users (session w))
                = None)
           ∨ (e = HTTPException 400
                    "Specified user is not a player in this game"
              ∧ ∃ game, get_game_by_id games game_id = Some game
                        ∧ player_user_id ∉ g_players game))
    end.
Proof.
  intros Hwf. split.
  - unfold leave_game.
    destruct (get_game_by_id games game_id) as [game|] eqn:Eg;
      [|split; [done|by left]].
    destruct (is_player_of (u_id current_user) game) eqn:Ep; cbn [negb].
    2: { split; [done|]. right. split; [done|]. exists game. split; [done|].
         rewrite <- is_player_of_spec. congruence. }
    apply is_player_of_spec in Ep.
    destruct (remove_player_effect games game (u_id current_user) game_id w
                Hwf Eg Ep)
      as (updated & games' & w' & Hrun & _ & Hid & Hm & Hlook & Hwf' & Hids
          & Hout & Hrest).
    rewrite (bind_Ok _ _ _ _ _ Hrun). cbn. rewrite Hid, Hlook.
    split; [done|]. split; [done|].
    exists game, updated. repeat (split; [done|]).
    intros content dn role av. unfold send_message_to_game.
    rewrite Hlook.
    assert (Hp : is_participant current_user updated = false).
    { apply not_true_iff_false. rewrite is_participant_spec.
      intros [Hmaster|Hplayer]; [|done].
      destruct Hwf as [_ Hall]. destruct (get_game_by_id_Some _ _ _ Eg).
      eapply Forall_forall in Hall as [_ Hmp]; [|done].
      congruence. }
    by rewrite Hp.
  - unfold gm_remove_player_from_game.
    destruct (get_game_by_id games game_id) as [game|] eqn:Eg;
      [|split; [done|split; [done|by left]]].
    destruct (Z.eqb_spec (g_master_id game) (u_id current_user)) as [Hm|Hm];
      cbn [negb].
    2: { split; [done|]. split; [done|]. right. left. eauto. }
    unfold get_user_by_id. unfold_monad.
    cbn [session set_sql_log].
    assert (Hses : ∀ l, session (set_sql_log l w) = session w
                        ∧ committed (set_sql_log l w) = committed w)
      by (by destruct w).
    destruct (find (λ u, u_id u =? player_user_id) (users (session w)))
      as [player|] eqn:Eu.
    2: { destruct (Hses (sql_log w ++ [SelectUser player_user_id])).
         split; [done|]. split; [done|]. right. right. left. done. }
    pose proof (find_user_id _ _ _ Eu) as Hpid. rewrite Hpid.
    destruct (is_player_of player_user_id game) eqn:Ep; cbn [negb].
    2: { destruct (Hses (sql_log w ++ [SelectUser player_user_id])).
         split; [done|]. split; [done|]. right. right. right.
         split; [done|]. exists game. split; [done|].
         rewrite <- is_player_of_spec. congruence. }
    apply is_player_of_spec in Ep.
    destruct (remove_player_effect games game player_user_id game_id
                (set_sql_log (sql_log w ++ [SelectUser player_user_id]) w)
                Hwf Eg Ep)
      as (updated & games' & w' & Hrun & Hs & Hid & _ & Hlook & Hwf' & Hids
          & Hout & Hrest).
    unfold_monad. rewrite Hrun. cbn. rewrite Hid, Hlook.
    split; [done|]. split; [done|].
    split; [rewrite Hs; by destruct w|].
    exists game, updated. repeat (split; [done|]). done.
Qed.

Lemma leaving_a_game_ends_participation_witness :
  match leave_game sample_games (sample_user 7 "mira" None) 1 dm_world with
  | Ok (answer, games') w' =>
      games_wf games' ∧ map g_id games' = map g_id sample_games
      ∧ ∃ game game',
          get_game_by_id sample_games 1 = Some game
          ∧ answer = Some game'
          ∧ get_game_by_id games' 1 = Some game'
          ∧ u_id (sample_user 7 "mira" None) ∈ g_players game
          ∧ (u_id (sample_user 7 "mira" None) ∉ g_players game')
          ∧ (∀ x, x ≠ u_id (sample_user 7 "mira" None) →
                  x ∈ g_players game' ↔ x ∈ g_players game)
          ∧ ∀ content dn role av,
              send_message_to_game sample_env games'
                (sample_user 7 "mira" None) 1 content dn role av w'
              = Raise (HTTPException 403
                         "Not authorized to send messages to this game") w'
  | Raise e w' =>
      w' = dm_world
      ∧ ((e = game_not_found ∧ get_game_by_id sample_games 1 = None)
         ∨ (e = HTTPException 400 "User is not a player in this game"
            ∧ ∃ game, get_game_by_id sample_games 1 = Some game
                      ∧ u_id (sample_user 7 "mira" None) ∉ g_players game))
  end
  ∧ match gm_remove_player_from_game sample_games
            (sample_user 7 "mira" None) 1 7 dm_world with
    | Ok (answer, games') w' =>
        games_wf games' ∧ map g_id games' = map g_id sample_games
        ∧ session w' = session dm_world
        ∧ ∃ game game',
            get_game_by_id sample_games 1 = Some game
            ∧ g_master_id game = u_id (sample_user 7 "mira" None)
            ∧ answer = Some game'
            ∧ get_game_by_id games' 1 = Some game'
            ∧ 7 ∈ g_players game
            ∧ (7 ∉ g_players game')
            ∧ (∀ x, x ≠ 7 → x ∈ g_players game' ↔ x ∈ g_players game)
    | Raise e w' =>
        session w' = session dm_world ∧ committed w' = committed dm_world
        ∧ ((e = game_not_found ∧ get_game_by_id sample_games 1 = None)
           ∨ (e = HTTPException 403 "Only the game master can remove players"
              ∧ ∃ game, get_game_by_id sample_games 1 = Some game
                        ∧ g_master_id game ≠ u_id (sample_user 7 "mira" None))
           ∨ (e = HTTPException 404 "Player to remove not found"
              ∧ find (λ u, u_id u =? 7) (users (session dm_world)) = None)
           ∨ (e = HTTPException 400
                    "Specified user is not a player in this game"
              ∧ ∃ game, get_game_by_id sample_games 1 = Some game
                        ∧ 7 ∉ g_players game))
    end.
Proof.
  apply (leaving_a_game_ends_participation sample_env sample_games
           (sample_user 7 "mira" None) 1 7 dm_world).
  unfold games_wf, distinct_ids. by apply (bool_decide_unpack _).
Defined.

(** Creating a game keeps the games table well formed: the new game gets
    an id above all earlier ones, the caller as master and no players, the
    games already there are untouched, and the game returned is the stored
    one. *)
Lemma create_new_game_keeps_table_well_formed (games : list Game)
  (current_user : User) (name : string) (description : option string)
  (max_players : option Z) (w : World) :
  games_wf games →
  ∃ game w',
    create_new_game games current_user name description max_players w
      = Ok (Some game, games ++ [game]) w'
    ∧ games_wf (games ++ [game])
    ∧ g_master_id game = u_id current_user ∧ g_players game = []
    ∧ (∀ g, g ∈ games → g_id g < g_id game)
    ∧ session w' = session w.
Proof.
  intros [Hids Hall]. unfold create_new_game, create_game. unfold_monad. cbn.
  set (game := {| g_id := next_id (map g_id games); g_name := name;
                  g_description := description;
                  g_master_id := u_id current_user;
                  g_max_players := max_players; g_is_active := true;
                  g_players := [] |}).
  assert (Hfresh : ∀ g, g ∈ games → g_id g < g_id game).
  { intros g Hg. apply next_id_fresh, list_elem_of_In, in_map.
    by apply list_elem_of_In. }
  assert (Hfind : get_game_by_id (games ++ [game]) (g_id game) = Some game).
  { unfold get_game_by_id. apply find_app_new; [|apply Z.eqb_refl].
    intros g Hg. apply Z.eqb_neq. specialize (Hfresh g Hg). lia. }
  simpl in Hfind. rewrite Hfind.
  do 2 eexists. split; [reflexivity|]. split; [|by destruct w].
  split.
  - unfold distinct_ids. rewrite map_app. simpl. apply NoDup_app.
    split; [done|]. split; [|apply NoDup_singleton].
    intros x Hx [->|[]%elem_of_nil]%elem_of_cons.
    apply next_id_fresh in Hx. lia.
  - apply Forall_app. split; [done|]. repeat constructor.
    by intros ?%elem_of_nil.
Qed.
